(* ===== verification/_CoqProject ===== *)
-Q . S2P
Prelude.v
Raster.v
Reclassify.v
RasterCalc.v
Mosaic.v
FillNoData.v
GridAligner.v
Heatmap.v
IUHD.v
Grid.v
Rasterize.v
Pipeline.v
Stages.v
Adult.v
AdultVector.v
Composition.v
IUHDModel.v
