(* ===== verification/Prelude.v ===== *)
(** * A verification development of the TRANSAFE mosquito-risk raster model

    The program ([src/MyggmodellTRANSAFE_Uppsala.py] and
    [src/heatmappart.py]) is a sequential QGIS/GDAL processing script.  It
    clips national land-cover, land-use, terrain and vegetation rasters to a
    study area, and combines them through a fixed graph of stages into four
    products: the urban heat island raster ([IUHD_final.tif]), the
    oviposition suitability composite ([WMCA_ovi_iuhd.tif]), the
    oviposition hotspot heatmap ([heatmap_ovi.tif]) and the adult habitat
    composite ([WMCA_adult.tif]).  Every stage calls a processing algorithm
    with a parameter dictionary; its result is stored under a name in the
    mutable dictionary [outputs] and read back by later stages.  Two
    stages are the script's own Python: [mosaicrasters] (lines 51-65) and
    the numpy masks (lines 200-214); both write with [saveraster],
    imported from the module [misc], which is not in the repository and
    is modelled from the specification.

    ** Files, in dependency order

    - [Prelude] (this file): rationals as the numeric domain with stdpp's
      [≡] (= [Qeq]) and [Proper] instances, decidability instances for the
      comparisons, the boolean comparisons of the formulas and their
      reflection lemmas, the sum error monad ([MRet]/[MBind] on [E + A])
      with its [mapM] lemmas, notations in [raster_scope], the hint
      database [raster] and the shared tactics.
    - [Raster]: a band as rows of cells ([grid]), the [raster] record
      (cells, no-data value, geotransform), cell-wise [cellmap]/[cellzip],
      shapes, cell lookup, [all_cells].
    - [Reclassify]: [native:reclassifybytable] ([reclassify_value],
      [reclassify_cell], [reclassifybytable], the [TABLE] check
      [classes_of_table]), the one-rule [grass7:r.reclass]
      ([rreclass_rule]) and all twelve tables of the
      script with the parameters its calls pass ([script_params]).
    - [RasterCalc]: [gdal:rastercalculator] ([gdal_calc]: dimension check,
      no-data propagation, the output no-data default) and fifteen of
      the script's sixteen formulas ([mask_roof_slopes] .. [adults_mca2]);
      the sixteenth, the wind reduction, is in [Adult].
    - [Mosaic]: [mosaicrasters] as the script writes it: one loop
      iteration [mosaic_step] on an explicit state (the counter [i],
      [raster], [baseraster]), the loop [mosaic_loop] and the final
      [saveraster]; [mosaic_ref] is the reference (cell-wise maximum).
    - [FillNoData]: [native:fillnodata].
    - [GridAligner]: the window [projwin] (lines 116-123).
    - [Heatmap]: [heatmappart] step by step (threshold, pixels to points,
      [VALUE = 1], kernel density, scaling, fill, warp) and the six-band
      synthesis with its mean (lines 823-869).  The kernel density and
      the warp are the class [HeatmapServices]; what the synthesis relies
      on is the class of laws [HeatmapServiceLaws] (non-negative density,
      the warp keeps a predicate true of 0 and of the cells).
    - [IUHD]: the numpy masks and the vector chain of lines 252-411: the
      zonal statistics (class [ZonalStatistics], laws
      [ZonalStatisticsLaws], the pixel-centre instance [centre_zonal]) and
      the ten field calculators, each a QGIS expression ([expr], [eval])
      with NULL semantics and the 3-decimal rounding of the shapefile
      field ([round3]).  [ln] is a section variable; the theorems assume
      only that it is monotone on positive numbers with [ln 1 = 0].
    - [Grid]: the 100 m grid of [native:creategrid] over [projwin]
      ([create_grid]: [ceil(extent / 100)] columns and rows, generated
      column by column) and the [area] and [perimeter] columns of
      [qgis:exportaddgeometrycolumns] (lines 229-250).
    - [Rasterize]: [gdal:rasterize] of the [IUHD] field on the 10 m grid
      (lines 414-431): output size, centre-in-polygon rule, burning order,
      NULL features skipped, a band starting at 0 without no-data value.
    - [Pipeline]: the dictionary [outputs] as a [gmap] with [KeyError] on a
      missing name ([get]), the ocean-distance branch (lines 172-196) and
      the oviposition model (lines 532-869: [roof_stages],
      [composite_stages], [heatmap_stage]).  The external algorithms it
      calls (slope, proximity, clip by extent, opening a file) are the
      class [GdalServices].
    - [Stages]: the four kinds of statement of the later script
      ([fill_stage], [reclass_stage], [calc_stage], [mosaic_store]), a
      list of them run in order ([run_stages]), the invariant [shaped]
      (the rasters named so far share one shape) with one lemma per kind,
      and the footprint of a statement (names read and written).
    - [Adult]: the adult model (lines 917-1557) as twenty-six such
      statements on [outputs], run in the script's order; the last is
      the adult composite [adult_stages].  numpy's power in the
      wind-reduction formula (line 1422) is a section variable [qpow],
      about which nothing is assumed.
    - [AdultVector]: the adult model's two field calculators on vectors:
      the land-use [CASE] on [DETALJTYP] (lines 872-881) and the clamp of
      the frontal area index at 0.9 (lines 906-916), the latter with the
      expression model of [IUHD].
    - [Composition]: the IUHD reclassification (lines 434-457) followed by
      the oviposition model, one run on one [outputs] ([iuhd_oviposition]);
      its theorem is proved from the components' lemmas, with frame
      lemmas saying which names each part leaves alone.
    - [IUHDModel]: lines 200-869 as one run ([iuhd_model]): numpy masks,
      grid, IUHD chain, rasterization, IUHD reclassification and the
      oviposition model, with numpy's shape error as [ValueError] and a
      field calculator's as [FieldCalcFailed].

    Stages that fail are functions into [E + A].  The error type is
    [reclass_error] for a malformed [TABLE], [calc_error] for mismatched
    dimensions, [mosaic_error] for an empty list or differing shapes
    ([NameError], [ShapeMismatch]), [eval_error] for an unknown field, and
    [py_error] for the script as a whole.  All recursion is structural: no
    definition needs fuel, and every definition is executable, so the
    examples run by [vm_compute] or [reflexivity].

    ** What the theorems show

    - Reclassification: first match wins, exact characterisations of
      success and failure of the lookup, the table round trip, the
      unmatched values of contiguous tables (the IUHD table leaves -3
      unclassified), and what [NODATA_FOR_MISSING False] does.
    - Raster calculator: the cell-wise contract, no-data propagation, and
      transport of value predicates from inputs to output; bounds of the
      overlays (the adult composite is a convex combination).
    - Mosaic: the loop computes the reference, the result is independent
      of the order up to [Qeq], disjoint footprints give their union, and
      the two failure modes exactly.
    - Heatmap: the six band masks partition [[1, oo)]; the hotspot points
      are the centres of the cells of the band; the synthesis succeeds with
      a non-negative mean for every composite.
    - IUHD: the layer chain equals the per-feature chain; each cell's
      warming lies in [[0, 7.54 + 3.97 ln 3]] and its IUHD in
      [[-3, 7.54 + 3.97 ln 3]] or is NULL; the masks are 0/1 rasters.
    - Pipeline: the empty-[oceanDist] branch always raises [KeyError]; on
      inputs in their documented domains the composite succeeds and its
      valid cells lie in [[1, 9.1]]; an IUHD of -3 gives a composite cell
      in no heatmap band.
    - Composition: from a rasterized IUHD in [(-3, 100]], land use in
      [(-1, 16]] and a land cover the table classifies, lines 434-869
      give an oviposition composite in [[1, 9.1]] (the roof raster needs
      no hypothesis: [r.reclass] writes 129, a land-cover code).
    - Grid and rasterization: the grid covers the study area; on it the
      IUHD chain succeeds (every cell has its [area]); a pixel takes the
      value of the last feature covering its centre, and after the chain
      the IUHD of the one grid cell of its centre, or 0.
    - IUHDModel: from any elevation, canopy and wall rasters, with land use
      in [(-1, 16]] and a classified land cover, lines 200-869 give an
      oviposition composite in [[0.6, 9.1]]; the bound 0.6 is reached by
      the unclassified IUHD of -3 (see Pipeline).  [ln] is assumed
      monotone with [ln 1 = 0] and [ln 3 <= 2].
    - Adult: on inputs of one shape all twenty-six statements succeed
      ([adult_model_ok], proved from one lemma per statement kind about
      the invariant [shaped] and a lemma on sequences, [run_stages_ok]);
      the composite keeps the range of its criteria; the heatmap tiers
      leave a density of 0 unclassified.  The land-use field holds one
      of eight codes or NULL exactly off the eleven types; the frontal
      area field is at most 0.9.
    - Loops and types: the mosaic loop runs one iteration per raster;
      the calculator turns well-formed inputs into a well-formed band.

    ** Numeric model

    Cell values are rationals: every constant of the script is an exact
    decimal and the comparisons are exact.  Float32 rounding of the
    calculator's output ([RTYPE 5]) and QGIS's [qgsDoubleNear] tolerance at
    range bounds are not modelled; the theorems hold of the exact values.
    The 3-decimal rounding of the shapefile fields is modelled (half up).

    ** Not modelled

    Vector geoprocessing (clip, buffer, extract, dissolve, and the
    rasterizations other than the IUHD's), the UMEP wall-height and
    morphometric calculators, slope,
    proximity, clipping and warping are external algorithms: the
    development models what the script does with their results, through
    the service classes above where a theorem needs them.  The vector
    statements of the adult model other than its two modelled field
    calculators (morphometric calculators, zonal statistics, the wind
    speed field, a power of a zonal mean the expression model has no
    operator for, rasterizations) are of this kind: their rasters are
    inputs of [adult_model].  The wall heights (lines 217-226) are
    computed or read back depending on a file's existence; their raster
    is an input.  The manmade additions of lines 161-170
    ([gdal:rasterize_over] with [ADD]) change a file before it is clipped
    and are not modelled.  File I/O, QGIS initialisation, the final
    copies to the output folder and the temporary folder are not
    modelled. *)

From stdpp Require Export base list.
From Stdlib Require Export QArith Qminmax Lqa.

Declare Scope raster_scope.
Delimit Scope raster_scope with R.
Open Scope Q_scope.

(** ** Boolean comparisons, as the code's [<], [<=], [==] on cell values *)

Definition qltb (x y : Q) : bool := negb (Qle_bool y x).

Notation "x <=? y" := (Qle_bool x y) : raster_scope.
Notation "x <? y" := (qltb x y) : raster_scope.
Notation "x =? y" := (Qeq_bool x y) : raster_scope.
Open Scope raster_scope.

Lemma qleb_spec (x y : Q) : BoolSpec (x <= y) (y < x) (x <=? y).
Proof.
  destruct (Qle_bool x y) eqn:E; constructor.
  - by apply Qle_bool_iff.
  - apply Qnot_le_lt. intros H. apply Qle_bool_iff in H. congruence.
Qed.

Lemma qltb_spec (x y : Q) : BoolSpec (x < y) (y <= x) (x <? y).
Proof. unfold qltb. destruct (qleb_spec y x); constructor; auto. Qed.

Lemma qeqb_spec (x y : Q) : BoolSpec (x == y) (~ x == y) (x =? y).
Proof.
  destruct (Qeq_bool x y) eqn:E; constructor.
  - by apply Qeq_bool_iff.
  - by apply Qeq_bool_neq.
Qed.

(** [qcmp] case-splits every comparison of the goal and hypotheses. *)
Ltac qcmp :=
  repeat match goal with
  | |- context [Qle_bool ?x ?y] => destruct (qleb_spec x y)
  | |- context [qltb ?x ?y] => destruct (qltb_spec x y)
  | |- context [Qeq_bool ?x ?y] => destruct (qeqb_spec x y)
  | H : context [Qle_bool ?x ?y] |- _ => destruct (qleb_spec x y)
  | H : context [qltb ?x ?y] |- _ => destruct (qltb_spec x y)
  | H : context [Qeq_bool ?x ?y] |- _ => destruct (qeqb_spec x y)
  end; simpl in *.

(** [qsolve] closes the arithmetic leaves left by [qcmp]. *)
Ltac qsolve := qcmp; first [done | lra | exfalso; lra].

Lemma qleb_true (x y : Q) : x <= y -> (x <=? y) = true.
Proof. apply Qle_bool_iff. Qed.
Lemma qleb_false (x y : Q) : y < x -> (x <=? y) = false.
Proof. destruct (qleb_spec x y); [lra | done]. Qed.
Lemma qltb_true (x y : Q) : x < y -> (x <? y) = true.
Proof. destruct (qltb_spec x y); [done | lra]. Qed.
Lemma qltb_false (x y : Q) : y <= x -> (x <? y) = false.
Proof. destruct (qltb_spec x y); [lra | done]. Qed.
Lemma qeqb_true (x y : Q) : x == y -> (x =? y) = true.
Proof. apply Qeq_bool_iff. Qed.
Lemma qeqb_false (x y : Q) : ~ x == y -> (x =? y) = false.
Proof. destruct (qeqb_spec x y); [done | done]. Qed.

(** [qdecide] evaluates every comparison of the goal that the hypotheses
    decide by [lra]. *)
Ltac qdecide :=
  repeat match goal with
  | |- context [Qle_bool ?x ?y] =>
      first [rewrite (qleb_true x y) by lra | rewrite (qleb_false x y) by lra]
  | |- context [qltb ?x ?y] =>
      first [rewrite (qltb_true x y) by lra | rewrite (qltb_false x y) by lra]
  end.

(** ** Rationals as a setoid *)

#[export] Instance Q_equiv : Equiv Q := Qeq.
#[export] Instance Q_equiv_Equivalence : Equivalence (≡@{Q}).
Proof. unfold base.equiv, Q_equiv. apply Q_Setoid. Qed.

#[export] Instance Qeq_decision : RelDecision Qeq := Qeq_dec.
#[export] Instance Qle_decision : RelDecision Qle :=
  λ x y, match Qlt_le_dec y x with left H => right (Qlt_not_le _ _ H) | right H => left H end.
#[export] Instance Qlt_decision : RelDecision Qlt :=
  λ x y, match Qlt_le_dec x y with left H => left H | right H => right (Qle_not_lt _ _ H) end.

#[export] Instance Qle_bool_proper : Proper ((≡) ==> (≡) ==> eq) Qle_bool.
Proof. intros x x' Hx y y' Hy. unfold base.equiv, Q_equiv in *. qcmp; try done; exfalso; lra. Qed.
#[export] Instance qltb_proper : Proper ((≡) ==> (≡) ==> eq) qltb.
Proof. intros x x' Hx y y' Hy. unfold base.equiv, Q_equiv in *. qcmp; try done; exfalso; lra. Qed.
#[export] Instance Qeq_bool_proper : Proper ((≡) ==> (≡) ==> eq) Qeq_bool.
Proof.
  intros x x' Hx y y' Hy. unfold base.equiv, Q_equiv in *.
  destruct (qeqb_spec x y), (qeqb_spec x' y'); try done; exfalso.
  - apply H0. by rewrite <- Hx, <- Hy.
  - apply H. by rewrite Hx, Hy.
Qed.
#[export] Instance Qmax_equiv_proper : Proper ((≡) ==> (≡) ==> (≡)) Qmax.
Proof. intros x x' Hx y y' Hy. by apply Q.max_compat. Qed.

(** ** Facts on [Qmax] used by the mosaic *)

Lemma Qmax_comm_equiv (x y : Q) : Qmax x y ≡ Qmax y x.
Proof. apply Q.max_comm. Qed.

Lemma Qmax_assoc_equiv (x y z : Q) : Qmax x (Qmax y z) ≡ Qmax (Qmax x y) z.
Proof. apply Q.max_assoc. Qed.

Lemma Qmax_0_l_nonneg (x : Q) : 0 <= x -> Qmax 0 x == x.
Proof. apply Q.max_r. Qed.

Lemma Qmax_0_r_nonneg (x : Q) : 0 <= x -> Qmax x 0 == x.
Proof. apply Q.max_l. Qed.

(** ** Generic list lemmas shared by the cell-wise operations *)

Lemma length_zip_with_eq {A B C} (f : A -> B -> C) (l1 : list A) (l2 : list B) :
  length l1 = length l2 -> length (zip_with f l1 l2) = length l1.
Proof. intros H. rewrite length_zip_with. lia. Qed.

Lemma Forall_zip_with {A B C} (P : C -> Prop) (f : A -> B -> C) l1 l2 :
  (forall x y, P (f x y)) -> Forall P (zip_with f l1 l2).
Proof. revert l2. induction l1; intros [|y l2] H; simpl; constructor; auto. Qed.

Lemma Forall_map_intro {A B} (P : B -> Prop) (f : A -> B) (l : list A) :
  (forall x, x ∈ l -> P (f x)) -> Forall P (map f l).
Proof. induction l as [|x l IH]; intros H; simpl; constructor; [apply H; left | apply IH; intros; apply H; by right]. Qed.

Lemma Forall2_zip_with {A B C} (RA : relation A) (RB : relation B) (RC : relation C)
    (f : A -> B -> C) l1 l1' l2 l2' :
  (forall x x' y y', RA x x' -> RB y y' -> RC (f x y) (f x' y')) ->
  Forall2 RA l1 l1' -> Forall2 RB l2 l2' -> Forall2 RC (zip_with f l1 l2) (zip_with f l1' l2').
Proof.
  intros Hf H1. revert l2 l2'.
  induction H1; intros ? ? H2; destruct H2; simpl; constructor; auto.
Qed.

Lemma mapM_map {A B C} (f : B -> option C) (g : A -> B) (l : list A) :
  mapM f (map g l) = mapM (f ∘ g) l.
Proof. induction l as [|x l IH]; simpl; [done|]. by rewrite IH. Qed.

Lemma last_cons_default {A} (x : A) (l : list A) (d : A) :
  List.last (x :: l) d = List.last l x.
Proof.
  revert x d. induction l as [|y l IH]; intros x d; [done|].
  change (List.last (y :: l) d = List.last (y :: l) x). by rewrite !IH.
Qed.

Lemma mapM_Permutation {A B} (f : A -> option B) (l l' : list A) (vs : list B) :
  l ≡ₚ l' -> mapM f l = Some vs -> exists vs', mapM f l' = Some vs' /\ vs ≡ₚ vs'.
Proof.
  intros Hp. revert vs.
  induction Hp as [|x l l' Hp IH|x y l|l l' l'' H1 IH1 H2 IH2]; intros vs Hvs.
  - by exists vs.
  - simpl in Hvs. destruct (f x) as [v|] eqn:Ex; simpl in Hvs; [|done].
    destruct (mapM f l) as [ws|]; simpl in Hvs; [|done]. injection Hvs as <-.
    destruct (IH ws eq_refl) as (ws' & Hl' & Hp'). exists (v :: ws'). simpl.
    rewrite Ex, Hl'. split; [done|]. by constructor.
  - simpl in Hvs. destruct (f y) as [vy|] eqn:Ey; simpl in Hvs; [|done].
    destruct (f x) as [vx|] eqn:Ex; simpl in Hvs; [|done].
    destruct (mapM f l) as [ws|] eqn:El; simpl in Hvs; [|done]. injection Hvs as <-.
    exists (vx :: vy :: ws). simpl. rewrite Ex, Ey, El. split; [done|]. constructor.
  - destruct (IH1 vs Hvs) as (vs1 & H1' & Hp1). destruct (IH2 vs1 H1') as (vs2 & H2' & Hp2).
    exists vs2. split; [done|]. by rewrite Hp1.
Qed.

(** ** The error monad [E + A]

    Fallible stages return [inl] of an error or [inr] of a result; the
    instances below give them stdpp's [x ← m; k] notation and [mapM]. *)

#[export, universes(polymorphic)] Instance sum_mret {E} : MRet (sum E) := λ A x, inr x.
#[export, universes(polymorphic)] Instance sum_mbind {E} : MBind (sum E) :=
  λ A B f m, match m with inl e => inl e | inr x => f x end.
Lemma sum_bind_inr {E A B} (m : E + A) (f : A -> E + B) (y : B) :
  (m ≫= f) = inr y <-> exists x, m = inr x /\ f x = inr y.
Proof.
  destruct m as [e|x]; simpl; [split; [done | by intros (? & ? & _)]|].
  split; [intros H; by exists x | by intros (? & [= <-] & ?)].
Qed.

Lemma mapM_sum_inr {E A B} (f : A -> E + B) (l : list A) (ys : list B) :
  mapM f l = inr ys <-> Forall2 (λ x y, f x = inr y) l ys.
Proof.
  revert ys. induction l as [|x l IH]; intros ys; simpl.
  - split; [intros [= <-]; constructor | by intros ->%Forall2_nil_inv_l].
  - rewrite sum_bind_inr. setoid_rewrite sum_bind_inr. setoid_rewrite IH. split.
    + intros (y & Hy & ys' & Hys & [= <-]). by constructor.
    + intros (y & ys' & Hy & Hys & ->)%Forall2_cons_inv_l. exists y. split; [done|]. by exists ys'.
Qed.

Lemma sum_bind_assoc {E A B C} (m : E + A) (f : A -> E + B) (g : B -> E + C) :
  ((m ≫= f) ≫= g) = (m ≫= λ x, f x ≫= g).
Proof. by destruct m. Qed.

Lemma mapM_sum_map {E A B C} (f : B -> E + C) (g : A -> B) (l : list A) :
  mapM f (map g l) = mapM (f ∘ g) l.
Proof. induction l as [|x l IH]; simpl; [done|]. by rewrite IH. Qed.

(** Two passes of [mapM] over a list succeed with the same result as one
    pass of the composed function. *)
Lemma mapM_sum_compose {E A B C} (X : E + list B) (F : A -> E + B) (g : B -> E + C)
    (l : list A) :
  (forall ys, X = inr ys <-> mapM F l = inr ys) ->
  forall zs, (X ≫= mapM g) = inr zs <-> mapM (λ x, F x ≫= g) l = inr zs.
Proof.
  intros HX zs. rewrite sum_bind_inr. setoid_rewrite HX. setoid_rewrite mapM_sum_inr.
  clear X HX. revert zs. induction l as [|x l IH]; intros zs.
  - split; [intros (ys & ->%Forall2_nil_inv_l & ->%Forall2_nil_inv_l); constructor|].
    intros ->%Forall2_nil_inv_l. exists []. split; constructor.
  - split.
    + intros (ys & (y & ys' & Hy & Hys & ->)%Forall2_cons_inv_l &
               (z & zs' & Hz & Hzs & ->)%Forall2_cons_inv_l).
      constructor; [by rewrite Hy | apply IH; eauto].
    + intros (z & zs' & Hz & Hzs & ->)%Forall2_cons_inv_l.
      apply sum_bind_inr in Hz as (y & Hy & Hz). apply IH in Hzs as (ys & Hys & Hzs).
      exists (y :: ys). split; by constructor.
Qed.

Lemma sum_bind_inr_ext {E A B} (X Y : E + A) (K : A -> E + B) :
  (forall ys, X = inr ys <-> Y = inr ys) ->
  forall zs, (X ≫= K) = inr zs <-> (Y ≫= K) = inr zs.
Proof. intros HXY zs. rewrite !sum_bind_inr. by setoid_rewrite HXY. Qed.

Lemma mapM_sum_ext {E A B} (f g : A -> E + B) (l : list A) :
  (forall x, f x = g x) -> mapM f l = mapM g l.
Proof. intros Hfg. induction l as [|x l IH]; simpl; [done|]. by rewrite Hfg, IH. Qed.

(** A stage [mapM g] followed by the rest [K] of a pipeline fuses with the
    stage [mapM f] before it. *)
Lemma mapM_sum_cont {E A B C D} (f : A -> E + B) (g : B -> E + C) (K : list C -> E + D)
    (l : list A) (zs : D) :
  (mapM f l ≫= λ ys, mapM g ys ≫= K) = inr zs <-> (mapM (λ x, f x ≫= g) l ≫= K) = inr zs.
Proof.
  rewrite <- (sum_bind_assoc (mapM f l) (mapM g) K). apply sum_bind_inr_ext.
  apply mapM_sum_compose. done.
Qed.

Lemma mapM_sum_cont_map {E A B B' C D} (f : A -> E + B) (h : B -> B') (g : B' -> E + C)
    (K : list C -> E + D) (l : list A) (zs : D) :
  (mapM f l ≫= λ ys, mapM g (map h ys) ≫= K) = inr zs <->
  (mapM (λ x, f x ≫= λ y, g (h y)) l ≫= K) = inr zs.
Proof.
  rewrite <- (mapM_sum_cont f (g ∘ h) K).
  enough ((mapM f l ≫= λ ys, mapM g (map h ys) ≫= K) = (mapM f l ≫= λ ys, mapM (g ∘ h) ys ≫= K))
    as -> by done.
  destruct (mapM f l) as [e|ys]; simpl; [done|]. by rewrite mapM_sum_map.
Qed.

Lemma mapM_sum_last {E A B C} (f : A -> E + B) (g : B -> E + C) (l : list A) (zs : list C) :
  (mapM f l ≫= λ ys, mapM g ys) = inr zs <-> mapM (λ x, f x ≫= g) l = inr zs.
Proof. apply mapM_sum_compose. done. Qed.

Lemma mapM_sum_Forall_exists {E A B} (f : A -> E + B) (P : B -> Prop) (l : list A) :
  Forall (λ x, exists y, f x = inr y /\ P y) l -> exists ys, mapM f l = inr ys /\ Forall P ys.
Proof.
  induction 1 as [|x l (y & Hy & HP) _ (ys & Hys & HPs)]; [by exists []|].
  exists (y :: ys). simpl. rewrite Hy. simpl. rewrite Hys. split; [done | by constructor].
Qed.

Lemma Forall2_impl_Forall {A B} (P : A -> Prop) (R R' : A -> B -> Prop) (l : list A) (k : list B) :
  Forall P l -> Forall2 R l k -> (forall x y, P x -> R x y -> R' x y) -> Forall2 R' l k.
Proof. intros HP HR HPR. induction HR; inversion HP; subst; constructor; auto. Qed.

Lemma Forall2_Forall_r {A B} (P : A -> Prop) (R : A -> B -> Prop) (Q : B -> Prop) (l : list A) (k : list B) :
  Forall P l -> Forall2 R l k -> (forall x y, P x -> R x y -> Q y) -> Forall Q k.
Proof. intros HP HR HPR. induction HR; inversion HP; subst; constructor; eauto. Qed.

Create HintDb raster discriminated.
Create Rewrite HintDb raster.
#[export] Hint Resolve Qle_refl Qeq_refl Qmax_0_l_nonneg Qmax_0_r_nonneg : raster.
#[export] Hint Resolve Forall_zip_with Forall_map_intro : raster.
#[export] Hint Rewrite @length_map @length_zip_with @length_replicate : raster.
