(* ===== verification/Raster.v ===== *)
(** * Raster grids and raster datasets

    A GDAL raster band read with [ReadAsArray] is a 2-D array: here a list
    of rows, each a list of cells ([grid]).  A raster dataset pairs the
    cells with the band's no-data sentinel ([GetNoDataValue], [None] when
    unset) and the dataset's affine geotransform ([GetGeoTransform]).
    This file holds the cell-wise map and zip every stage is built from,
    the shape of a grid (the list of row lengths), cell lookup, and the
    lemmas that relate them; equality of grids of rationals is stdpp's
    [≡], that is [Forall2 (Forall2 Qeq)]. *)

From S2P Require Import Prelude.

Abbreviation grid A := (list (list A)).

(** ** Cell-wise operations (numpy's element-wise array expressions) *)

Section Cellwise.
Context {A B C : Type}.

Definition cellmap (f : A -> B) (g : grid A) : grid B := map (map f) g.

Definition cellzip (f : A -> B -> C) (g1 : grid A) (g2 : grid B) : grid C :=
    zip_with (zip_with f) g1 g2.

  (** The shape of a grid: the length of each of its rows. *)
Definition shape (g : grid A) : list nat := map length g.

  (** A raster band is rectangular: every row has the width of the band. *)
Definition rectangular (w : nat) (g : grid A) : Prop := Forall (λ r, length r = w) g.

Definition cell (g : grid A) (i j : nat) : option A := g !! i ≫= (λ row, row !! j).

  (** Every cell of the grid satisfies [P]. *)
Definition all_cells (P : A -> Prop) (g : grid A) : Prop := Forall (Forall P) g.
End Cellwise.

Section CellwiseFacts.
Context {A B C : Type}.

Lemma shape_cellmap (f : A -> B) (g : grid A) : shape (cellmap f g) = shape g.
  Proof. unfold shape, cellmap. rewrite map_map. apply map_ext. intros. apply length_map. Qed.

Lemma shape_cellzip (f : A -> B -> C) (g1 : grid A) (g2 : grid B) :
    shape g1 = shape g2 -> shape (cellzip f g1 g2) = shape g1.
  Proof.
    revert g2. induction g1 as [|r1 g1 IH]; intros [|r2 g2] H; simpl in *; try done.
    injection H as Hr Hg. unfold shape in *. simpl. f_equal; [|by apply IH].
    by apply length_zip_with_eq.
  Qed.

Lemma cell_cellmap (f : A -> B) (g : grid A) i j :
    cell (cellmap f g) i j = f <$> cell g i j.
  Proof.
    unfold cell, cellmap. rewrite list_lookup_fmap.
    destruct (g !! i) as [r|]; simpl; [|done]. by rewrite list_lookup_fmap.
  Qed.

Lemma cell_cellzip (f : A -> B -> C) (g1 : grid A) (g2 : grid B) i j :
    cell (cellzip f g1 g2) i j =
      x ← cell g1 i j; y ← cell g2 i j; Some (f x y).
  Proof.
    unfold cell, cellzip. rewrite lookup_zip_with.
    destruct (g1 !! i) as [r1|], (g2 !! i) as [r2|]; simpl; try done.
    - by rewrite lookup_zip_with.
    - by destruct (r1 !! j).
  Qed.

Lemma cellmap_compose (f : A -> B) (h : B -> C) (g : grid A) :
    cellmap h (cellmap f g) = cellmap (h ∘ f) g.
  Proof. unfold cellmap. rewrite map_map. apply map_ext. intros. apply map_map. Qed.

Lemma cellmap_ext (f f' : A -> B) (g : grid A) :
    (forall x, f x = f' x) -> cellmap f g = cellmap f' g.
  Proof. intros H. unfold cellmap. apply map_ext. intros. by apply map_ext. Qed.

Lemma all_cells_cellmap (P : B -> Prop) (f : A -> B) (g : grid A) :
    (forall x, P (f x)) -> all_cells P (cellmap f g).
  Proof. intros H. apply Forall_map_intro. intros. by apply Forall_map_intro. Qed.

Lemma all_cells_cellmap_in (P : A -> Prop) (Q : B -> Prop) (f : A -> B) (g : grid A) :
    (forall x, P x -> Q (f x)) -> all_cells P g -> all_cells Q (cellmap f g).
  Proof.
    intros H Hg. unfold all_cells, cellmap. apply Forall_map.
    eapply Forall_impl; [exact Hg|]. intros r Hr. apply Forall_map.
    eapply Forall_impl; [exact Hr|]. done.
  Qed.

Lemma all_cells_cellzip (P : C -> Prop) (f : A -> B -> C) g1 g2 :
    (forall x y, P (f x y)) -> all_cells P (cellzip f g1 g2).
  Proof. intros H. apply Forall_zip_with. intros. by apply Forall_zip_with. Qed.
End CellwiseFacts.

Lemma all_cells_cellzip2 {A B C} (P1 : A -> Prop) (P2 : B -> Prop) (P : C -> Prop)
    (f : A -> B -> C) (g1 : grid A) (g2 : grid B) :
  (forall x y, P1 x -> P2 y -> P (f x y)) ->
  all_cells P1 g1 -> all_cells P2 g2 -> all_cells P (cellzip f g1 g2).
Proof.
  intros Hf H1. revert g2. induction H1 as [|r1 g1 Hr1 _ IH]; intros [|r2 g2] H2; simpl; [constructor..|].
  inversion H2 as [|? ? Hr2 Hg2]; subst. constructor; [|by apply IH].
  clear -Hf Hr1 Hr2. revert r2 Hr2. induction Hr1; intros [|y r2] Hr2; simpl; [constructor..|].
  inversion Hr2; subst. constructor; auto.
Qed.

Lemma all_cells_impl {A} (P P' : A -> Prop) (g : grid A) :
  all_cells P g -> (forall x, P x -> P' x) -> all_cells P' g.
Proof. intros H HP. eapply Forall_impl; [exact H|]. intros r Hr. by eapply Forall_impl. Qed.

Lemma all_cells_replicate {A} (P : A -> Prop) (h w : nat) (v : A) :
  P v -> all_cells P (replicate h (replicate w v)).
Proof. intros Hv. apply Forall_replicate, Forall_replicate, Hv. Qed.

Lemma all_cells_lookup {A} (P : A -> Prop) (g : grid A) :
  all_cells P g <-> forall i j v, cell g i j = Some v -> P v.
Proof.
  unfold all_cells, cell. rewrite Forall_lookup. split.
  - intros H i j v Hv. destruct (g !! i) as [row|] eqn:E; simpl in Hv; [|done].
    specialize (H i row E). rewrite Forall_lookup in H. eauto.
  - intros H i row Hrow. apply Forall_lookup. intros j v Hv. apply (H i j). by rewrite Hrow.
Qed.

#[export] Hint Rewrite @shape_cellmap @cell_cellmap @cellmap_compose : raster.
#[export] Hint Resolve all_cells_cellmap all_cells_cellzip : raster.

(** ** Equivalence of grids of rationals and the [Proper] cell-wise maps *)

#[export] Instance cellmap_proper (f : Q -> Q) :
  Proper ((≡) ==> (≡)) f -> Proper ((≡) ==> (≡)) (cellmap f).
Proof.
  intros Hf g g' Hg. unfold cellmap. induction Hg as [|r r' g g' Hr _ IH]; constructor; [|done].
  induction Hr; constructor; auto.
Qed.

#[export] Instance cellzip_proper (f : Q -> Q -> Q) :
  Proper ((≡) ==> (≡) ==> (≡)) f -> Proper ((≡) ==> (≡) ==> (≡)) (cellzip f).
Proof.
  intros Hf g1 g1' H1 g2 g2' H2. unfold cellzip.
  rewrite list_equiv_Forall2 in H1, H2 |- *.
  eapply Forall2_zip_with; [|exact H1|exact H2].
  intros r1 r1' r2 r2' Hr1 Hr2. rewrite list_equiv_Forall2 in Hr1, Hr2 |- *.
  eapply Forall2_zip_with; [|exact Hr1|exact Hr2]. intros ? ? ? ? Hx Hy. by apply Hf.
Qed.

(** Two cell-wise combinations agree up to [≡] when their cell functions do. *)
Lemma cellzip_equiv_ext (f f' : Q -> Q -> Q) (g1 g2 : grid Q) :
  (forall x y, f x y ≡ f' x y) -> cellzip f g1 g2 ≡ cellzip f' g1 g2.
Proof.
  intros H. unfold cellzip. revert g2. induction g1 as [|r1 g1 IH]; intros [|r2 g2]; simpl;
    constructor; [|apply IH].
  revert r2. induction r1; intros [|y r2]; simpl; constructor; auto.
Qed.

Lemma cellzip_comm_equiv (f : Q -> Q -> Q) (g1 g2 : grid Q) :
  (forall x y, f x y ≡ f y x) -> cellzip f g1 g2 ≡ cellzip f g2 g1.
Proof.
  intros H. unfold cellzip. revert g2. induction g1 as [|r1 g1 IH]; intros [|r2 g2]; simpl;
    constructor; [|apply IH].
  revert r2. induction r1; intros [|y r2]; simpl; constructor; auto.
Qed.

(** ** Raster datasets *)

(** GDAL's six-term geotransform [(originX, pixelWidth, rowRotation,
    originY, columnRotation, pixelHeight)]; [pixelHeight] is negative for
    north-up rasters. *)
Record geotransform := mkGeo {
  gt_originX : Q; gt_pixelWidth : Q; gt_rotX : Q;
  gt_originY : Q; gt_rotY : Q; gt_pixelHeight : Q
}.

Record raster := mkRaster {
  cells : grid Q;
  nodata : option Q;
  geo : geotransform
}.

Definition raster_height (r : raster) : nat := length (cells r).
Definition raster_width (r : raster) : nat :=
  match cells r with [] => 0%nat | row :: _ => length row end.

(** The shape invariant of a raster band: a [RasterYSize] by
    [RasterXSize] rectangle. *)
Definition wf_raster (r : raster) : Prop := rectangular (raster_width r) (cells r).

(** numpy's [raster == nd] on one cell: never true when the band has no
    no-data value ([nd is None]). *)
Definition is_nodata (nd : option Q) (v : Q) : bool :=
  match nd with Some n => v =? n | None => false end.

#[export] Instance is_nodata_proper nd : Proper ((≡) ==> eq) (is_nodata nd).
Proof. intros x y H. destruct nd; simpl; [by rewrite H | done]. Qed.

Lemma is_nodata_refl (n : Q) : is_nodata (Some n) n = true.
Proof. simpl. apply Qeq_bool_refl. Qed.

Lemma is_nodata_None v : is_nodata None v = false.
Proof. done. Qed.
#[export] Hint Rewrite is_nodata_None : raster.

Lemma wf_raster_shape (r : raster) :
  wf_raster r <-> shape (cells r) = replicate (raster_height r) (raster_width r).
Proof.
  unfold wf_raster, rectangular, shape, raster_height.
  generalize (raster_width r). intros w. induction (cells r) as [|row g IH]; simpl.
  - split; constructor.
  - rewrite Forall_cons, IH. split; [intros [-> ->]; done | intros H; injection H; done].
Qed.

Lemma raster_width_shape (r : raster) : raster_width r = default 0%nat (head (shape (cells r))).
Proof. unfold raster_width, shape. by destruct (cells r). Qed.

Lemma raster_height_shape (r : raster) : raster_height r = length (shape (cells r)).
Proof. unfold raster_height, shape. by rewrite length_map. Qed.

(** Well-formedness depends on the shape only. *)
Lemma wf_raster_shape_eq (r r' : raster) :
  shape (cells r') = shape (cells r) -> wf_raster r -> wf_raster r'.
Proof.
  intros Hs. rewrite !wf_raster_shape, !raster_width_shape, !raster_height_shape, Hs. done.
Qed.

(** Two grids of the same shape whose cells agree up to [Qeq] are equivalent. *)
Lemma equiv_by_cells (g g' : grid Q) :
  shape g = shape g' -> (forall i j, cell g i j ≡ cell g' i j) -> g ≡ g'.
Proof.
  intros Hs Hc. apply list_equiv_lookup. intros i.
  assert (Hi : length <$> g !! i = length <$> g' !! i).
  { unfold shape in Hs. change (map length g) with (length <$> g) in Hs.
    change (map length g') with (length <$> g') in Hs. by rewrite <- !list_lookup_fmap, Hs. }
  destruct (g !! i) as [row|] eqn:E, (g' !! i) as [row'|] eqn:E'; simpl in Hi; try done.
  - constructor. apply list_equiv_lookup. intros j. specialize (Hc i j).
    unfold cell in Hc. by rewrite E, E' in Hc.
Qed.

(** ** numpy broadcasting *)

Section Broadcast.
Context {A : Type}.

(** The position an output index [k] reads along an input axis of length
    [n]: an axis of length 1 is stretched, every other axis is read as is. *)
Definition bidx (n k : nat) : nat := if decide (n = 1%nat) then 0%nat else k.

(** numpy's broadcasting rule along one axis: two axes are compatible when
    their lengths are equal or one of them is 1; the pairs of elements an
    element-wise operation combines, or [None] (numpy's [ValueError:
    operands could not be broadcast together]). *)
Definition bcast_pairs (xs ys : list A) : option (list (A * A)) :=
  if decide (length xs = length ys) then Some (zip xs ys)
  else match xs, ys with
       | [x], _ => Some (map (λ y, (x, y)) ys)
       | _, [y] => Some (map (λ x, (x, y)) xs)
       | _, _ => None
       end.

(** One broadcast element-wise step along the outer axis, with [op]
    combining the paired elements (itself a broadcast step for the rows of a
    2-D array). *)
Definition bstep (op : A -> A -> option A) (xs ys : list A) : option (list A) :=
  ps ← bcast_pairs xs ys; mapM (λ p, op p.1 p.2) ps.

(** A left fold of a fallible binary operation. *)
Fixpoint foldo (op : A -> A -> option A) (acc : A) (xs : list A) : option A :=
  match xs with
  | [] => Some acc
  | x :: xs' => a ← op acc x; foldo op a xs'
  end.

(** The length of the broadcast axis. *)
Definition bdim (m n : nat) : nat := if decide (m = 1%nat) then n else m.
End Broadcast.

(** A binary numpy ufunc applied to two 2-D arrays ([np.maximum(a, b)],
    [a - b]), broadcasting both axes. *)
Definition grid_bcast (f : Q -> Q -> Q) : grid Q -> grid Q -> option (grid Q) :=
  bstep (bstep (λ a b, Some (f a b))).

Section BroadcastFacts.
Context {A : Type}.
Implicit Types xs ys zs : list A.

Lemma bidx_lt (n k : nat) : (n = 1%nat \/ k < n)%nat -> (k < n)%nat -> bidx n k = k \/ n = 1%nat.
Proof. unfold bidx. case_decide; auto. Qed.

(** What a successful broadcast pairs. *)
Lemma bcast_pairs_Some xs ys ps :
  bcast_pairs xs ys = Some ps ->
  (length xs = length ys \/ length xs = 1 \/ length ys = 1)%nat /\
  length ps = bdim (length xs) (length ys) /\
  forall k, (k < length ps)%nat ->
    exists x y, xs !! bidx (length xs) k = Some x /\ ys !! bidx (length ys) k = Some y /\
      ps !! k = Some (x, y).
Proof.
  unfold bcast_pairs, bdim. case_decide as Heq.
  - intros [= <-]. rewrite length_zip_with, Heq, Nat.min_id. split; [auto|]. split.
    { case_decide; lia. }
    intros k Hk. unfold bidx.
    destruct (lookup_lt_is_Some_2 xs k) as [x Hx]; [lia|].
    destruct (lookup_lt_is_Some_2 ys k) as [y Hy]; [lia|].
    exists x, y. rewrite lookup_zip_with, Hx, Hy.
    case_decide; [assert (k = 0%nat) as -> by lia|]; rewrite ?Hx, ?Hy; done.
  - destruct xs as [|x [|x' xs]].
    + destruct ys as [|y [|]]; intros E; try discriminate E; injection E as <-. simpl. split; [lia|]. split; [done|]. intros k Hk; simpl in Hk; lia.
    + intros E; injection E as <-. simpl in Heq. rewrite length_map.
      split; [auto|]. split; [done|]. intros k Hk. unfold bidx. simpl.
      destruct (lookup_lt_is_Some_2 ys k) as [y Hy]; [lia|].
      case_decide; [lia|]. exists x, y. rewrite list_lookup_fmap, Hy. done.
    + destruct ys as [|y [|]]; intros E; try discriminate E; injection E as <-.
      set (l := x :: x' :: xs) in *. assert (Hl : length l <> 1%nat) by (subst l; simpl; lia).
      replace ((x, y) :: (x', y) :: map (λ x : A, (x, y)) xs) with (map (λ z, (z, y)) l) by done.
      rewrite length_map. split; [simpl; lia|]. split; [case_decide; [lia|done]|].
      intros k Hk. unfold bidx. rewrite (decide_False _ _ Hl), (decide_True _ _ (eq_refl : length [y] = 1%nat)).
      destruct (lookup_lt_is_Some_2 l k) as [z Hz]; [lia|].
      exists z, y. rewrite list_lookup_fmap, Hz. done.
Qed.

Lemma lookup_bidx xs k x : xs !! k = Some x -> xs !! bidx (length xs) k = Some x.
Proof.
  intros Hx. unfold bidx. case_decide as H1; [|done].
  assert (k < length xs)%nat by (apply lookup_lt_Some in Hx; done).
  by assert (k = 0%nat) as -> by lia.
Qed.

Lemma bdim_compat (m n : nat) :
  (m = n \/ m = 1 \/ n = 1)%nat -> (bdim m n = m \/ m = 1%nat) /\ (bdim m n = n \/ n = 1%nat).
Proof. unfold bdim. case_decide; lia. Qed.

Section Step.
Context (op : A -> A -> option A).

(** What a successful broadcast step computes at each output position. *)
Lemma bstep_Some xs ys zs :
  bstep op xs ys = Some zs ->
  (length xs = length ys \/ length xs = 1 \/ length ys = 1)%nat /\
  length zs = bdim (length xs) (length ys) /\
  forall k, (k < length zs)%nat ->
    exists x y z, xs !! bidx (length xs) k = Some x /\ ys !! bidx (length ys) k = Some y /\
      zs !! k = Some z /\ op x y = Some z.
Proof.
  unfold bstep. destruct (bcast_pairs xs ys) as [ps|] eqn:Hp; simpl; [|done].
  intros Hz%mapM_Some_1. destruct (bcast_pairs_Some _ _ _ Hp) as (Hc & Hl & Hk).
  rewrite <- (Forall2_length _ _ _ Hz). split; [done|]. split; [done|].
  intros k Hlt. destruct (Hk k Hlt) as (x & y & Hx & Hy & Hpk).
  destruct (Forall2_lookup_l _ _ _ _ _ Hz Hpk) as (z & Hzk & Hop). eauto 10.
Qed.

(** Where both operands have an element, the result has [op] of them. *)
Lemma bstep_lookup xs ys zs k x y :
  bstep op xs ys = Some zs -> xs !! k = Some x -> ys !! k = Some y ->
  exists z, zs !! k = Some z /\ op x y = Some z.
Proof.
  intros (Hc & Hl & Hk)%bstep_Some Hx Hy.
  assert (k < length zs)%nat.
  { apply lookup_lt_Some in Hx, Hy. rewrite Hl. unfold bdim. case_decide; lia. }
  destruct (Hk k) as (x' & y' & z & Hx' & Hy' & Hz & Hop); [done|].
  rewrite (lookup_bidx _ _ _ Hx) in Hx'. rewrite (lookup_bidx _ _ _ Hy) in Hy'.
  simplify_eq. eauto.
Qed.

(** A broadcast step keeps every property its operation keeps. *)
Lemma bstep_Forall (P : A -> Prop) xs ys zs :
  (forall x y z, P x -> P y -> op x y = Some z -> P z) ->
  Forall P xs -> Forall P ys -> bstep op xs ys = Some zs -> Forall P zs.
Proof.
  intros HP Hxs Hys (_ & _ & Hk)%bstep_Some. apply Forall_lookup. intros k z Hz.
  destruct (Hk k) as (x & y & z' & Hx & Hy & Hz' & Hop); [by eapply lookup_lt_Some|].
  rewrite Hz in Hz'. injection Hz' as <-.
  eapply HP; [eapply Forall_lookup_1; [exact Hxs|exact Hx]|eapply Forall_lookup_1; [exact Hys|exact Hy]|done].
Qed.

(** Operands of equal length are zipped, as without broadcasting. *)
Lemma bstep_zip (g : A -> A -> A) xs ys :
  Forall2 (λ x y, op x y = Some (g x y)) xs ys -> bstep op xs ys = Some (zip_with g xs ys).
Proof.
  intros H. unfold bstep, bcast_pairs. rewrite decide_True by exact (Forall2_length _ _ _ H).
  simpl. induction H as [|x y xs ys Hxy _ IH]; [done|]. simpl. by rewrite Hxy, IH.
Qed.

(** The element a broadcast operand contributes at output position [k]. *)
Definition sel (k : nat) (l : list A) : option A := l !! bidx (length l) k.

Lemma bidx_bidx (n m k : nat) : (n = 1 \/ n = m)%nat -> bidx n (bidx m k) = bidx n k.
Proof. unfold bidx. repeat case_decide; lia. Qed.

(** A successful fold of broadcast steps: its length is one of the operands'
    lengths, every operand has that length or length 1, and each position is
    the fold of [op] over the elements the operands contribute there. *)
Lemma foldo_bstep_Some (x0 : list A) (xs : list (list A)) (R : list A) :
  foldo (bstep op) x0 xs = Some R ->
  length R ∈ map length (x0 :: xs) /\
  Forall (λ l, length l = 1 \/ length l = length R)%nat (x0 :: xs) /\
  forall k, (k < length R)%nat ->
    exists s ss r, mapM (sel k) (x0 :: xs) = Some (s :: ss) /\ foldo op s ss = Some r /\ R !! k = Some r.
Proof.
  revert x0. induction xs as [|x xs IH]; intros x0; simpl.
  - intros [= <-]. split; [by left|]. split; [by repeat constructor; right|].
    intros k Hk. destruct (lookup_lt_is_Some_2 x0 k Hk) as [r Hr]. exists r, [], r.
    unfold sel. by rewrite (lookup_bidx _ _ _ Hr).
  - destruct (bstep op x0 x) as [a|] eqn:Ha; simpl; [|done]. intros HR.
    destruct (IH a HR) as (Hlen & Hall & Hk). clear IH.
    destruct (bstep_Some _ _ _ Ha) as (Hc & Hla & Hka).
    apply Forall_cons in Hall as [Ha1 Hall].
    assert (Hd : ((length x0 = 1 /\ length a = length x) \/ (length x0 <> 1 /\ length a = length x0))%nat)
      by (unfold bdim in Hla; case_decide; auto).
    split; [|split; [rewrite !Forall_cons; split; [|split; [|done]]; lia|]].
    { rewrite !elem_of_cons. apply elem_of_cons in Hlen as [->|Hlen]; [|auto].
      destruct Hd as [[_ ->]|[_ ->]]; auto. }
    intros k Hlt. destruct (Hk k Hlt) as (s & ss & r & Hm & Hf & Hr).
    simpl in Hm. destruct (sel k a) as [s'|] eqn:Hs; simpl in Hm; [|done].
    destruct (mapM (sel k) xs) as [ss'|] eqn:Hss; simpl in Hm; [|done].
    injection Hm as -> ->.
    destruct (Hka (bidx (length a) k)) as (s0 & s1 & z & H0 & H1 & Hz & Hop).
    { unfold bidx. destruct (decide (length a = 1%nat)); lia. }
    unfold sel in Hs. rewrite Hz in Hs. injection Hs as Hzs. subst.
    rewrite bidx_bidx in H0, H1 by lia.
    assert (Hs0 : sel k x0 = Some s0) by exact H0. assert (Hs1 : sel k x = Some s1) by exact H1.
    exists s0, (s1 :: ss), r. split; [|split; [simpl; rewrite Hop; simpl; done|done]].
    rewrite Hs0, Hs1. done.
Qed.

Section Perm.
Context (Rel : relation A).
Context (Hop : forall s ss t ts r r', s :: ss ≡ₚ t :: ts ->
  foldo op s ss = Some r -> foldo op t ts = Some r' -> Rel r r').

Lemma length_in_compat (L : list (list A)) (n m : nat) :
  n ∈ map length L -> Forall (λ l, length l = 1 \/ length l = m)%nat L -> (n = 1 \/ n = m)%nat.
Proof.
  intros Hn HL. apply list_elem_of_In, in_map_iff in Hn as (l & <- & Hl).
  rewrite Forall_forall in HL. by apply HL, list_elem_of_In.
Qed.

(** Broadcasting preserves the order-independence of the operation: two
    successful folds over permuted operands agree position by position. *)
Lemma foldo_bstep_perm (x0 y0 : list A) (xs ys : list (list A)) (R R' : list A) :
  x0 :: xs ≡ₚ y0 :: ys -> foldo (bstep op) x0 xs = Some R -> foldo (bstep op) y0 ys = Some R' ->
  Forall2 Rel R R'.
Proof.
  intros Hp (Hl & Ha & Hk)%foldo_bstep_Some (Hl' & Ha' & Hk')%foldo_bstep_Some.
  assert (Hpm : map length (x0 :: xs) ≡ₚ map length (y0 :: ys)) by (by apply Permutation_map).
  assert (length R = length R').
  { rewrite Hpm in Hl. rewrite <- Hpm in Hl'.
    pose proof (length_in_compat _ _ _ Hl Ha'). pose proof (length_in_compat _ _ _ Hl' Ha). lia. }
  apply Forall2_lookup. intros k. destruct (decide (k < length R)%nat) as [Hlt|Hge].
  - destruct (Hk k Hlt) as (s & ss & r & Hm & Hf & ->).
    destruct (Hk' k) as (t & ts & r' & Hm' & Hf' & ->); [lia|].
    destruct (mapM_Permutation _ _ _ _ Hp Hm) as (vs & Hvs & Hperm).
    rewrite Hm' in Hvs. injection Hvs as <-. constructor. by eapply Hop.
  - rewrite !lookup_ge_None_2 by lia. constructor.
Qed.
End Perm.
End Step.
End BroadcastFacts.

Section GridBroadcast.
Context (f : Q -> Q -> Q).

(** Where both operands have a cell, the broadcast result has [f] of them. *)
Lemma grid_bcast_cell g1 g2 g i j a b :
  grid_bcast f g1 g2 = Some g -> cell g1 i j = Some a -> cell g2 i j = Some b ->
  cell g i j = Some (f a b).
Proof.
  unfold cell. intros Hg H1 H2.
  destruct (g1 !! i) as [r1|] eqn:E1, (g2 !! i) as [r2|] eqn:E2; simpl in H1, H2; try done.
  destruct (bstep_lookup _ _ _ _ _ _ _ Hg E1 E2) as (r & -> & Hr). simpl.
  by destruct (bstep_lookup _ _ _ _ _ _ _ Hr H1 H2) as (z & -> & [= ->]).
Qed.

(** A property every cell of both operands has, and [f] keeps, holds of
    every cell of the result. *)
Lemma grid_bcast_all_cells (P : Q -> Prop) g1 g2 g :
  (forall a b, P a -> P b -> P (f a b)) ->
  all_cells P g1 -> all_cells P g2 -> grid_bcast f g1 g2 = Some g -> all_cells P g.
Proof.
  intros HP. unfold all_cells, grid_bcast. apply bstep_Forall.
  intros r1 r2 r H1 H2. apply bstep_Forall; [|done|done]. intros a b c Ha Hb [= <-]. auto.
Qed.

(** Operands of the same shape are combined cell by cell. *)
Lemma grid_bcast_same_shape g1 g2 :
  shape g1 = shape g2 -> grid_bcast f g1 g2 = Some (cellzip f g1 g2).
Proof.
  unfold shape, cellzip, grid_bcast. intros Hs. apply bstep_zip.
  revert g2 Hs. induction g1 as [|r1 g1 IH]; intros [|r2 g2] Hs; simpl in Hs; try done.
  injection Hs as Hl Hs. constructor; [|by apply IH].
  apply bstep_zip. revert r2 Hl. induction r1; intros [|y r2] Hl; simpl in Hl; try done.
  constructor; [done|]. auto.
Qed.
End GridBroadcast.

(** ** Cell-wise fallible maps *)

(** A cell-wise computation that can go wrong on a cell: the whole grid
    goes wrong when one cell does. *)
Definition cellmapM {A B} (h : A -> option B) (g : grid A) : option (grid B) := mapM (mapM h) g.

Section CellmapM.
Context {A B : Type} (h : A -> option B).

Lemma cellmapM_cell (g : grid A) (g' : grid B) (i j : nat) :
  cellmapM h g = Some g' ->
  (forall z, cell g' i j = Some z <-> exists v, cell g i j = Some v /\ h v = Some z) /\
  shape g' = shape g.
Proof.
  unfold cellmapM, cell, shape. intros Hg%mapM_Some_1. split.
  - intros z. destruct (g !! i) as [row|] eqn:Ei; simpl.
    + destruct (Forall2_lookup_l _ _ _ _ _ Hg Ei) as (row' & -> & Hr%mapM_Some_1). simpl.
      destruct (row !! j) as [v|] eqn:Ej.
      * destruct (Forall2_lookup_l _ _ _ _ _ Hr Ej) as (z' & -> & Hz). split; [intros [= <-]; eauto|].
        intros (v' & [= <-] & Hv'). congruence.
      * destruct (row' !! j) as [z'|] eqn:Ej'; simpl.
        { destruct (Forall2_lookup_r _ _ _ _ _ Hr Ej') as (? & ? & _). congruence. }
        split; [done|]. by intros (? & ? & _).
    + destruct (g' !! i) as [row'|] eqn:Ei'; simpl.
      { destruct (Forall2_lookup_r _ _ _ _ _ Hg Ei') as (? & ? & _). congruence. }
      split; [done|]. by intros (? & ? & _).
  - induction Hg as [|row row' g g' Hr _ IH]; [done|]. simpl. rewrite IH. f_equal.
    symmetry. by apply mapM_Some_1, Forall2_length in Hr.
Qed.

(** A property every cell's image has holds of every cell of the result. *)
Lemma all_cells_cellmapM (P : A -> Prop) (Qp : B -> Prop) (g : grid A) (g' : grid B) :
  (forall v z, P v -> h v = Some z -> Qp z) -> all_cells P g -> cellmapM h g = Some g' -> all_cells Qp g'.
Proof.
  intros HP Hg Hm. apply all_cells_lookup. intros i j z Hz.
  destruct (proj1 (cellmapM_cell g g' i j Hm) z) as [Hc _]. destruct (Hc Hz) as (v & Hv & Hhv).
  rewrite all_cells_lookup in Hg. eauto.
Qed.

Lemma Exists_lookup_iff {C} (P : C -> Prop) (l : list C) :
  Exists P l <-> exists i x, l !! i = Some x /\ P x.
Proof.
  rewrite Exists_exists. split.
  - intros (x & (i & Hi)%list_elem_of_lookup & Hx). eauto.
  - intros (i & x & Hi & Hx). exists x. split; [by eapply list_elem_of_lookup_2|done].
Qed.

(** The grid goes wrong exactly when one of its cells does. *)
Lemma cellmapM_None (g : grid A) :
  cellmapM h g = None <-> exists i j v, cell g i j = Some v /\ h v = None.
Proof.
  unfold cellmapM, cell. rewrite mapM_None, Exists_lookup_iff. split.
  - intros (i & row & Hi & Hrow). apply mapM_None, Exists_lookup_iff in Hrow as (j & v & Hj & Hv).
    exists i, j, v. by rewrite Hi.
  - intros (i & j & v & Hv & Hh). destruct (g !! i) as [row|] eqn:Hi; [|done]. simpl in Hv.
    exists i, row. split; [done|]. apply mapM_None, Exists_lookup_iff. eauto.
Qed.

(** A computation that goes right on every cell goes right on the grid. *)
Lemma cellmapM_total (f : A -> B) (g : grid A) :
  (forall v, h v = Some (f v)) -> cellmapM h g = Some (cellmap f g).
Proof.
  intros Hf. unfold cellmapM, cellmap. apply mapM_Some_2, Forall2_fmap_r, Forall_Forall2_diag.
  apply Forall_forall. intros row _. apply mapM_Some_2, Forall2_fmap_r, Forall_Forall2_diag.
  apply Forall_forall. intros v _. apply Hf.
Qed.
End CellmapM.
