(* ===== verification/Reclassify.v ===== *)
(** * Reclassification of raster values

    The script calls QGIS's [native:reclassifybytable] twelve times and
    GRASS's [r.reclass] once.  A call passes a flat [TABLE] of numbers read
    three at a time as [(minimum, maximum, value)], a [RANGE_BOUNDARIES]
    policy, a [NO_DATA] value for the output and [NODATA_FOR_MISSING].  A
    cell equal to the input band's no-data value becomes the output no-data
    value; any other cell is looked up in the classes in table order and
    the first class whose range contains it gives its value; a cell that no
    class contains becomes the output no-data value when
    [NODATA_FOR_MISSING] is set, and keeps its own value otherwise (every
    call of the script passes [False]).  An empty bound is an unbounded
    side of the range.  Each output value is written into a block of the
    [DATA_TYPE] the call asks for: an integer type holds the value
    truncated toward zero, and a value whose truncation the type cannot
    hold is an undefined C++ conversion, modelled as the run going wrong
    ([write_value]).

    This file models the algorithm ([reclassify_value], [reclassify_cell],
    [write_value], [reclassifybytable]), the [TABLE] parameter's validation
    ([classes_of_table]), the one-rule [r.reclass] call, and the tables of
    the script ([iuhdtable], [lctable], ...).  Its theorems give the
    first-match lookup, the unclassified values of the chained tables, and
    the exact condition under which the UInt32 IUHD call goes wrong. *)

From Stdlib Require Import Qround.
From S2P Require Import Prelude Raster.

(** ** Range boundaries and classes *)

(** [RANGE_BOUNDARIES]: 0 is [min < value <= max], 1 is [min <= value <
    max], 2 is [min <= value <= max], 3 is [min < value < max]. *)
Inductive range_boundaries := IncludeMax | IncludeMin | IncludeMinAndMax | Exclusive.

Definition range_boundaries_of (n : nat) : option range_boundaries :=
  match n with
  | 0 => Some IncludeMax
  | 1 => Some IncludeMin
  | 2 => Some IncludeMinAndMax
  | 3 => Some Exclusive
  | _ => None
  end%nat.

Definition includes_min (b : range_boundaries) : bool :=
  match b with IncludeMin | IncludeMinAndMax => true | _ => false end.
Definition includes_max (b : range_boundaries) : bool :=
  match b with IncludeMax | IncludeMinAndMax => true | _ => false end.

(** One row of the table; [None] is an empty bound (unbounded side). *)
Record raster_class := RasterClass {
  rc_min : option Q;
  rc_max : option Q;
  rc_value : Q
}.

Definition range_contains (b : range_boundaries) (c : raster_class) (v : Q) : bool :=
  match rc_min c with
  | None => true
  | Some lo => (lo <? v) || (includes_min b && (v =? lo))
  end &&
  match rc_max c with
  | None => true
  | Some hi => (v <? hi) || (includes_max b && (v =? hi))
  end.

(** The first class of the table that contains [v]; [None] when none does. *)
Fixpoint reclassify_value (b : range_boundaries) (classes : list raster_class) (v : Q)
    : option Q :=
  match classes with
  | [] => None
  | c :: cs => if range_contains b c v then Some (rc_value c) else reclassify_value b cs v
  end.

(** One cell: no-data in, no-data out; matched, the class value; unmatched,
    the output no-data value or the cell itself. *)
Definition reclassify_cell (b : range_boundaries) (classes : list raster_class)
    (in_nodata : option Q) (out_nodata : Q) (nodata_for_missing : bool) (v : Q) : Q :=
  if is_nodata in_nodata v then out_nodata
  else match reclassify_value b classes v with
       | Some k => k
       | None => if nodata_for_missing then out_nodata else v
       end.

(** ** The [TABLE] parameter *)

Inductive reclass_error :=
  | TableNotMultipleOf3 (n : nat)
  | InvalidOutputValue (row : nat)
  | InvalidRangeBoundaries (n : nat)
  | InvalidDataType (n : nat)
  | UndefinedConversion.

Fixpoint classes_of_rows (row : nat) (t : list (option Q)) : reclass_error + list raster_class :=
  match t with
  | lo :: hi :: v :: rest =>
      match v with
      | None => inl (InvalidOutputValue row)
      | Some k =>
          match classes_of_rows (S row) rest with
          | inl e => inl e
          | inr cs => inr (RasterClass lo hi k :: cs)
          end
      end
  | _ => inr []
  end.

(** The table must hold a multiple of three entries. *)
Definition classes_of_table (t : list (option Q)) : reclass_error + list raster_class :=
  if decide (length t mod 3 = 0)%nat then classes_of_rows 0 t
  else inl (TableNotMultipleOf3 (length t)).

(** The classes of a table of numbers, as the script writes its tables. *)
Fixpoint classes_of_numbers (t : list Q) : list raster_class :=
  match t with
  | lo :: hi :: v :: rest => RasterClass (Some lo) (Some hi) v :: classes_of_numbers rest
  | _ => []
  end.

(** ** The output data type *)

(** [DATA_TYPE]: 0 Byte, 1 Int16, 2 UInt16, 3 UInt32, 4 Int32, 5 Float32,
    6 Float64. *)
Inductive data_type := Byte | Int16 | UInt16 | UInt32 | Int32 | Float32 | Float64.

Definition data_type_of (n : nat) : option data_type :=
  match n with
  | 0 => Some Byte | 1 => Some Int16 | 2 => Some UInt16 | 3 => Some UInt32
  | 4 => Some Int32 | 5 => Some Float32 | 6 => Some Float64 | _ => None
  end%nat.

(** The values of an integer type; [None] for the floating-point types. *)
Definition int_range (dt : data_type) : option (Z * Z) :=
  match dt with
  | Byte => Some (0, 255)%Z
  | Int16 => Some (-32768, 32767)%Z
  | UInt16 => Some (0, 65535)%Z
  | UInt32 => Some (0, 4294967295)%Z
  | Int32 => Some (-2147483648, 2147483647)%Z
  | Float32 | Float64 => None
  end.

(** C++'s conversion of a [double] to an integer: the fractional part is
    discarded (truncation toward zero). *)
Definition qtrunc (x : Q) : Z := Z.quot (Qnum x) (Zpos (Qden x)).

(** Writing a cell value into the output block ([QgsRasterBlock::setValue],
    a [static_cast] to the block's type).  An integer type holds the
    truncated value; when that value is outside the type the conversion is
    undefined behaviour, modelled as [None] (the computation goes wrong).
    A floating-point type holds the value (the rounding to [float] is not
    modelled). *)
Definition write_value (dt : data_type) (v : Q) : option Q :=
  match int_range dt with
  | None => Some v
  | Some (lo, hi) =>
      let t := qtrunc v in
      if (lo <=? t)%Z && (t <=? hi)%Z then Some (inject_Z t) else None
  end.

(** ** The algorithm on a raster *)

Record reclass_params := ReclassParams {
  rp_table : list Q;
  rp_nodata : Q;
  rp_boundaries : nat;
  rp_nodata_for_missing : bool;
  rp_data_type : nat
}.

(** Every cell is reclassified and written into a block of the output
    type; a cell whose write is undefined makes the run go wrong. *)
Definition reclassifybytable (p : reclass_params) (r : raster) : reclass_error + raster :=
  match range_boundaries_of (rp_boundaries p) with
  | None => inl (InvalidRangeBoundaries (rp_boundaries p))
  | Some b =>
      match data_type_of (rp_data_type p) with
      | None => inl (InvalidDataType (rp_data_type p))
      | Some dt =>
          match classes_of_table (map Some (rp_table p)) with
          | inl e => inl e
          | inr cs =>
              match cellmapM (λ v, write_value dt (reclassify_cell b cs (nodata r) (rp_nodata p)
                                                   (rp_nodata_for_missing p) v)) (cells r) with
              | None => inl UndefinedConversion
              | Some g => inr (mkRaster g (Some (rp_nodata p)) (geo r))
              end
          end
      end
  end.

(** ** GRASS [r.reclass] with the single rule [lo thru hi = k]

    Categories the rule does not cover become NULL, the output's no-data. *)
Definition rreclass_rule (lo hi k : Q) (in_nodata : option Q) (v : Q) : option Q :=
  if is_nodata in_nodata v then None
  else if (lo <=? v) && (v <=? hi) then Some k else None.

(** ** The tables of the script *)

(** IUHD (lines 435-446). *)
Definition iuhdtable : list Q :=
    [ -3.0; -2.33; 1;
      -2.33; -1.66; 2;
      -1.66; -0.99; 3;
      -0.99; -0.33; 4;
      -0.33; 0.33; 5;
      0.33; 1.0; 6;
      1.0; 1.66; 7;
      1.66; 2.33; 8;
      2.33; 3.0; 9;
      3.0; 100.0; 10 ].

(** NMD land cover for the oviposition model (lines 701-728). *)
Definition lctable : list Q :=
    [ 1; 2; 7;  2; 3; 4;  40; 41; 2;  41; 42; 4;  50; 51; 1;  51; 52; 3;
      52; 53; 0;  60; 61; 0;  61; 62; 0;  110; 111; 4;  111; 112; 4;
      112; 113; 4;  113; 114; 5;  114; 115; 5;  115; 116; 6;  116; 117; 6;
      117; 118; 4;  120; 121; 6;  121; 122; 6;  122; 123; 6;  123; 124; 7;
      124; 125; 7;  125; 126; 9;  126; 127; 8;  127; 128; 6;  128; 129; 4 ].

(** Land use (lines 742-760). *)
Definition lutable : list Q :=
    [ -1; 0; 5;  0; 1; 2;  1; 2; 5;  2; 3; 6;  3; 4; 4;  4; 5; 5;  5; 6; 5;
      6; 7; 5;  7; 8; 9;  8; 9; 7;  9; 10; 6;  10; 11; 5;  11; 12; 2;
      12; 13; 3;  13; 14; 6;  14; 15; 9;  15; 16; 5 ].

(** NMD land cover for the adult model (lines 930-956). *)
Definition nmdgrundtable : list Q :=
    [ 1.9; 2.1; 6;  2.9; 3.1; 4;  40.9; 41.1; 3;  41.9; 42.1; 5;
      50.9; 51.1; 0;  51.9; 52.1; 0;  52.9; 53.1; 0;  60.9; 61.1; 0;
      61.9; 62.1; 0;  110.9; 111.1; 7;  111.9; 112.1; 7;  112.9; 113.1; 7;
      113.9; 114.1; 7;  114.9; 115.1; 8;  115.9; 116.1; 8;  116.9; 117.1; 8;
      117.9; 118.1; 5;  120.9; 121.1; 8;  121.9; 122.1; 8;  122.9; 123.1; 8;
      123.9; 124.1; 8;  124.9; 125.1; 10;  125.9; 126.1; 10;  126.9; 127.1; 10;
      127.9; 128.1; 6 ].

(** LAI (lines 1095-1104) and the LAI/FAI combination (lines 1434-1443). *)
Definition laitable : list Q :=
    [ 0.0; 0.05; 1;  0.05; 0.5; 4;  0.5; 1.0; 5;  1.0; 1.5; 6;  1.5; 2.0; 7;
      2.0; 2.5; 8;  2.5; 3.0; 9;  3.0; 100.0; 10 ].
Definition laifaitable : list Q :=
    [ 0.0; 0.05; 1;  0.05; 0.5; 4;  0.5; 1.0; 5;  1.0; 1.5; 6;  1.5; 2.0; 7;
      2.0; 2.5; 8;  2.5; 3.0; 9;  3.0; 100.0; 10 ].

(** Oviposition heatmap tiers (lines 1119-1130). *)
Definition costtable : list Q :=
    [ 0; 200; 1;  200; 400; 2;  400; 600; 3;  600; 800; 4;  800; 1000; 5;
      1000; 1200; 6;  1200; 1400; 7;  1400; 1600; 8;  1600; 1800; 9;  1800; 3000; 10 ].

(** Vegetation plan area index (lines 1161-1172). *)
Definition vegpaitable : list Q :=
    [ 0.0; 0.1; 1;  0.1; 0.2; 2;  0.2; 0.3; 3;  0.3; 0.4; 4;  0.4; 0.5; 5;
      0.5; 0.6; 6;  0.6; 0.7; 7;  0.7; 0.8; 8;  0.8; 0.9; 9;  0.9; 1.0; 10 ].

(** Wind speed from height (lines 1259-1270). *)
Definition windheighttable : list Q :=
    [ 0.0; 1.6482; 10;  1.6482; 2.1574; 9;  2.1574; 2.6666; 8;  2.6666; 3.1758; 7;
      3.1758; 3.685; 6;  3.685; 4.1942; 5;  4.1942; 4.7034; 4;  4.7034; 5.2126; 3;
      5.2126; 5.7218; 2;  5.7218; 100.0; 10 ].

(** Vegetation heights (lines 1360-1366). *)
Definition vegheighttable : list Q :=
    [ 0.0; 5.0; 10;  5.0; 10.0; 9;  10.0; 20.0; 8;  20.0; 30.0; 7;  30.0; 100.0; 6 ].

(** Wind reduction from the ocean (lines 1458-1470). *)
Definition windreduxoceantable : list Q :=
    [ -1.0; 0.01; 1;  0.01; 1.82; 10;  1.82; 1.90; 9;  1.90; 1.99; 8;  1.99; 2.08; 7;
      2.08; 2.16; 6;  2.16; 2.25; 5;  2.25; 2.34; 4;  2.34; 2.42; 3;  2.42; 2.51; 2;
      2.51; 5.00; 1 ].

(** "Reclass 0 to 1" (lines 1294-1296, 1401-1403, 1485-1487). *)
Definition nozerotable : list Q := [ -10.0; 0.1; 1 ].

(** Every call of the script passes [NO_DATA -9999], [RANGE_BOUNDARIES 0]
    and [NODATA_FOR_MISSING False]; the IUHD, land-cover and land-use calls
    (lines 454, 736, 768) pass [DATA_TYPE 3] (UInt32), the others
    [DATA_TYPE 5] (Float32). *)
Definition script_params (dt : nat) (t : list Q) : reclass_params :=
    ReclassParams t (-9999) 0 false dt.

(** ** The lookup: first match wins *)

Section Lookup.
Context (b : range_boundaries).

Lemma reclassify_value_skip (pre cs : list raster_class) (v : Q) :
    Forall (λ c, range_contains b c v = false) pre ->
    reclassify_value b (pre ++ cs) v = reclassify_value b cs v.
  Proof. induction 1 as [|c pre Hc _ IH]; simpl; [done|]. by rewrite Hc. Qed.



  (** The lookup fails exactly when no class of the table contains the value. *)
Theorem reclassify_value_None (cs : list raster_class) (v : Q) :
    reclassify_value b cs v = None <-> Forall (λ c, range_contains b c v = false) cs.
  Proof.
    induction cs as [|c cs IH]; simpl; [split; auto|].
    rewrite Forall_cons, <- IH. destruct (range_contains b c v).
    - split; [done | by intros [? _]].
    - split; [by intros H | by intros [_ H]].
  Qed.

  (** C1: a value the lookup returns is the value of a class that contains
      the cell, preceded only by classes that do not (and conversely). *)
Theorem reclassify_value_Some (cs : list raster_class) (v k : Q) :
    reclassify_value b cs v = Some k <->
    exists pre c post, cs = pre ++ c :: post /\
      Forall (λ c', range_contains b c' v = false) pre /\
      range_contains b c v = true /\ rc_value c = k.
  Proof.
    split.
    - induction cs as [|c cs IH]; simpl; [done|].
      destruct (range_contains b c v) eqn:Hc.
      + intros [= <-]. by exists [], c, cs.
      + intros H. destruct (IH H) as (pre & c' & post & -> & Hpre & Hc' & <-).
        exists (c :: pre), c', post. repeat split; auto.
    - intros (pre & c & post & -> & Hpre & Hc & <-). rewrite reclassify_value_skip by done. simpl. by rewrite Hc.
  Qed.

Lemma reclassify_value_in (cs : list raster_class) (v k : Q) :
    reclassify_value b cs v = Some k -> k ∈ map rc_value cs.
  Proof.
    induction cs as [|c cs IH]; simpl; [done|].
    destruct (range_contains b c v); [intros [= <-]; left | intros; right; auto].
  Qed.
End Lookup.

#[export] Instance range_contains_proper (b : range_boundaries) (c : raster_class) :
  Proper ((≡) ==> eq) (range_contains b c).
Proof.
  intros v v' Hv. unfold range_contains.
  assert (E1 : forall x, (x <? v) = (x <? v')) by (intros x; by apply qltb_proper).
  assert (E2 : forall x, (v <? x) = (v' <? x)) by (intros x; by apply qltb_proper).
  assert (E3 : forall x, (v =? x) = (v' =? x)) by (intros x; by apply Qeq_bool_proper).
  destruct (rc_min c), (rc_max c); by rewrite ?E1, ?E2, ?E3.
Qed.

(** The lookup depends on the value only, not on its representation. *)
#[export] Instance reclassify_value_proper (b : range_boundaries) (cs : list raster_class) :
  Proper ((≡) ==> eq) (reclassify_value b cs).
Proof.
  intros v v' Hv. induction cs as [|c cs IH]; simpl; [done|].
  by rewrite (range_contains_proper b c v v' Hv), IH.
Qed.

(** The upper-inclusive policy of every call of the script. *)
Lemma range_contains_IncludeMax (lo hi k v : Q) :
  range_contains IncludeMax (RasterClass (Some lo) (Some hi) k) v = true <-> lo < v /\ v <= hi.
Proof. unfold range_contains. simpl. qcmp; intuition (try lra; try done). Qed.

Lemma range_contains_IncludeMax_false (lo hi k v : Q) :
  range_contains IncludeMax (RasterClass (Some lo) (Some hi) k) v = false <-> v <= lo \/ hi < v.
Proof. unfold range_contains. simpl. qcmp; intuition (try lra; try done). Qed.

(** ** Chained tables: contiguous ascending ranges *)

(** Each class starts where the previous one ends, as in the IUHD, LAI,
    heatmap and wind tables. *)
Fixpoint is_chain (lo : Q) (cs : list raster_class) : bool :=
  match cs with
  | [] => true
  | c :: cs' =>
      match rc_min c, rc_max c with
      | Some l, Some h => (l =? lo) && (lo <? h) && is_chain h cs'
      | _, _ => false
      end
  end.

Fixpoint chain_top (lo : Q) (cs : list raster_class) : Q :=
  match cs with
  | [] => lo
  | c :: cs' => match rc_max c with Some h => chain_top h cs' | None => lo end
  end.

Lemma chain_top_ge (lo : Q) (cs : list raster_class) :
  is_chain lo cs = true -> lo <= chain_top lo cs.
Proof.
  revert lo. induction cs as [|[[l|] [h|] k] cs IH]; intros lo; simpl; try done; [lra|].
  intros Hc. apply andb_true_iff in Hc as [Hc Hrest]. apply andb_true_iff in Hc as [_ Hlt].
  destruct (qltb_spec lo h); [|done]. specialize (IH h Hrest). lra.
Qed.

Lemma range_contains_IncludeMax_chain (lo l h k v : Q) :
  l == lo -> range_contains IncludeMax (RasterClass (Some l) (Some h) k) v =
             range_contains IncludeMax (RasterClass (Some lo) (Some h) k) v.
Proof. intros Hl. unfold range_contains. simpl. by rewrite Hl. Qed.

(** Under the upper-inclusive policy a chained table leaves unmatched
    exactly the values outside [(lo, top]]. *)
Lemma chain_unmatched_iff (lo : Q) (cs : list raster_class) (v : Q) :
  is_chain lo cs = true ->
  reclassify_value IncludeMax cs v = None <-> v <= lo \/ chain_top lo cs < v.
Proof.
  revert lo. induction cs as [|[[l|] [h|] k] cs IH]; intros lo Hc; simpl in *; try done.
  - split; [|done]. intros _. destruct (Qlt_le_dec lo v); [right|left]; lra.
  - apply andb_true_iff in Hc as [Hc Hrest]. apply andb_true_iff in Hc as [Hl Hlt].
    destruct (qeqb_spec l lo) as [Hl'|]; [|done]. destruct (qltb_spec lo h); [|done].
    pose proof (chain_top_ge h cs Hrest).
    rewrite (range_contains_IncludeMax_chain lo l h k v Hl').
    destruct (range_contains IncludeMax _ v) eqn:E.
    + apply range_contains_IncludeMax in E. split; [done|lra].
    + apply range_contains_IncludeMax_false in E. rewrite IH by done. lra.
Qed.

(** A value inside a chained table's range gets one of the table's
    classes, so it satisfies what all the classes satisfy. *)
Lemma chain_class_range (lo : Q) (cs : list raster_class) (P : Q -> Prop) (v : Q) :
  is_chain lo cs = true -> Forall P (map rc_value cs) -> lo < v <= chain_top lo cs ->
  P (default v (reclassify_value IncludeMax cs v)).
Proof.
  intros Hc HP Hv. destruct (reclassify_value _ _ v) as [k|] eqn:E; cbn [default].
  - apply reclassify_value_in in E. by apply (proj1 (Forall_forall _ _) HP).
  - apply (chain_unmatched_iff lo) in E; [lra | done].
Qed.

(** Under the upper-inclusive policy a chained table from [lo] to its
    top classifies exactly the values of [(lo, top]], each into one of its
    classes: the cells it leaves unmatched are those at or below [lo] and
    those above the top. *)
Theorem chain_unmatched (lo : Q) (cs : list raster_class) (v : Q) :
  is_chain lo cs = true ->
  (reclassify_value IncludeMax cs v = None <-> v <= lo \/ chain_top lo cs < v) /\
  (lo < v <= chain_top lo cs ->
   exists k, reclassify_value IncludeMax cs v = Some k /\ k ∈ map rc_value cs).
Proof.
  intros Hc. split; [by apply chain_unmatched_iff|]. intros Hv.
  destruct (reclassify_value IncludeMax cs v) as [k|] eqn:E.
  - exists k. split; [done|]. by eapply reclassify_value_in.
  - apply (chain_unmatched_iff lo) in E; [lra | done].
Qed.

Lemma chain_unmatched_witness :
  is_chain 0.0 (classes_of_numbers laitable) = true /\
  ((reclassify_value IncludeMax (classes_of_numbers laitable) 0 = None <->
    0 <= 0.0 \/ chain_top 0.0 (classes_of_numbers laitable) < 0) /\
   (0.0 < 0 <= chain_top 0.0 (classes_of_numbers laitable) ->
    exists k, reclassify_value IncludeMax (classes_of_numbers laitable) 0 = Some k /\
      k ∈ map rc_value (classes_of_numbers laitable))).
Proof.
  assert (H : is_chain 0.0 (classes_of_numbers laitable) = true) by reflexivity.
  split; [exact H | exact (chain_unmatched 0.0 _ 0 H)].
Defined.

(** ** The [TABLE] parameter: validation *)

Lemma classes_of_rows_numbers (row : nat) (t : list Q) :
  (length t mod 3 = 0)%nat -> classes_of_rows row (map Some t) = inr (classes_of_numbers t).
Proof.
  revert row. induction t as [[|lo [|hi [|k t]]] IH] using (induction_ltof1 _ (@length _));
    intros row Hlen; try reflexivity.
  simpl. rewrite IH; [done | unfold ltof; simpl; lia |].
  replace (length (lo :: hi :: k :: t)) with (length t + 1 * 3)%nat in Hlen by (simpl; lia).
  by rewrite Nat.Div0.mod_add in Hlen.
Qed.

(** The [TABLE] parameter is rejected exactly when its length is not
    a multiple of three; a table of numbers of such a length yields its
    rows in order. *)
Theorem classes_of_table_numbers (t : list Q) :
  classes_of_table (map Some t) =
    if decide (length t mod 3 = 0)%nat then inr (classes_of_numbers t)
    else inl (TableNotMultipleOf3 (length t)).
Proof.
  unfold classes_of_table. rewrite length_map.
  case_decide; [by apply classes_of_rows_numbers | done].
Qed.

(** ** Writing into the output type *)

Lemma qtrunc_nonneg (x : Q) : 0 <= x -> qtrunc x = Qfloor x.
Proof.
  destruct x as [n d]. unfold qtrunc, Qfloor, Qle. simpl. intros H.
  apply Z.quot_div_nonneg; lia.
Qed.

Lemma qtrunc_neg (x : Q) : x < 0 -> qtrunc x = Qceiling x.
Proof.
  destruct x as [n d]. unfold qtrunc, Qceiling, Qfloor, Qlt. simpl. intros H.
  rewrite <- Z.quot_div_nonneg by lia. rewrite Z.quot_opp_l by lia. lia.
Qed.

(** Truncation keeps a value between two integers. *)
Lemma qtrunc_between (lo hi : Z) (x : Q) :
  inject_Z lo <= x <= inject_Z hi -> (lo <= qtrunc x <= hi)%Z.
Proof.
  intros [Hlo Hhi]. destruct (Qlt_le_dec x 0) as [Hx|Hx].
  - rewrite qtrunc_neg by done. split.
    + rewrite <- (Qceiling_Z lo). by apply Qceiling_resp_le.
    + rewrite <- (Qceiling_Z hi). by apply Qceiling_resp_le.
  - rewrite qtrunc_nonneg by done. split.
    + rewrite <- (Qfloor_Z lo). by apply Qfloor_resp_le.
    + rewrite <- (Qfloor_Z hi). by apply Qfloor_resp_le.
Qed.

(** The truncation is non-negative exactly above -1 ... *)
Lemma qtrunc_ge0 (x : Q) : (0 <= qtrunc x)%Z <-> -1 < x.
Proof.
  destruct (Qlt_le_dec x 0) as [Hx|Hx].
  - rewrite qtrunc_neg by done. split.
    + intros H. apply Qnot_le_lt. intros Hle. apply Qceiling_resp_le in Hle.
      change (Qceiling (-1)) with (-1)%Z in Hle. lia.
    + intros H. pose proof (Qle_ceiling x) as Hc.
      assert (Hgt : inject_Z (-1) < inject_Z (Qceiling x)) by (change (inject_Z (-1)) with (-1); lra).
      rewrite <- Zlt_Qlt in Hgt. lia.
  - rewrite qtrunc_nonneg by done. split; [intros _; lra|]. intros _.
    rewrite <- (Qfloor_Z 0). by apply Qfloor_resp_le.
Qed.

(** ... and at most [m >= 0] exactly below [m + 1]. *)
Lemma qtrunc_le (m : Z) (x : Q) : (0 <= m)%Z -> (qtrunc x <= m)%Z <-> x < inject_Z (m + 1).
Proof.
  intros Hm. rewrite inject_Z_plus. change (inject_Z 1) with 1.
  assert (H0 : 0 <= inject_Z m) by (change 0 with (inject_Z 0); by rewrite <- Zle_Qle).
  destruct (Qlt_le_dec x 0) as [Hx|Hx].
  - rewrite qtrunc_neg by done. split; [intros _; lra|]. intros _.
    assert (Hc : (Qceiling x <= Qceiling 0)%Z) by (apply Qceiling_resp_le; lra).
    change (Qceiling 0) with 0%Z in Hc. lia.
  - rewrite qtrunc_nonneg by done. split.
    + intros H. pose proof (Qlt_floor x) as Hf. rewrite inject_Z_plus in Hf.
      change (inject_Z 1) with 1 in Hf. rewrite Zle_Qle in H. lra.
    + intros H. pose proof (Qfloor_le x) as Hf.
      assert (Hlt : inject_Z (Qfloor x) < inject_Z (m + 1)) by (rewrite inject_Z_plus; change (inject_Z 1) with 1; lra).
      rewrite <- Zlt_Qlt in Hlt. lia.
Qed.

(** A written value stays between two integers the value lies between. *)
Lemma write_value_between (dt : data_type) (lo hi : Z) (v w : Q) :
  inject_Z lo <= v <= inject_Z hi -> write_value dt v = Some w -> inject_Z lo <= w <= inject_Z hi.
Proof.
  intros Hv. unfold write_value. destruct (int_range dt) as [[a b]|]; [|by intros [= <-]].
  destruct (_ && _); [|done]. intros [= <-]. rewrite <- !Zle_Qle. by apply qtrunc_between.
Qed.

(** A UInt32 write goes wrong exactly at or below -1 and from 2^32 on. *)
Lemma write_uint32_None (v : Q) : write_value UInt32 v = None <-> v <= -1 \/ 4294967296 <= v.
Proof.
  unfold write_value. cbn [int_range].
  pose proof (qtrunc_ge0 v) as H0. pose proof (qtrunc_le 4294967295 v ltac:(lia)) as H1.
  change (inject_Z (4294967295 + 1)) with 4294967296 in H1.
  destruct (Z.leb_spec 0 (qtrunc v)) as [Ha|Ha], (Z.leb_spec (qtrunc v) 4294967295) as [Hb|Hb]; simpl.
  - split; [done|]. intros [Hv|Hv]; [apply H0 in Ha | apply H1 in Hb]; lra.
  - split; [intros _; right|done]. destruct (Qlt_le_dec v 4294967296) as [Hv|]; [apply H1 in Hv; lia|done].
  - split; [intros _; left|done]. destruct (Qlt_le_dec (-1) v) as [Hv|]; [apply H0 in Hv; lia|done].
  - split; [intros _; left|done]. destruct (Qlt_le_dec (-1) v) as [Hv|]; [apply H0 in Hv; lia|done].
Qed.

(** The output no-data value, when it can be written, is written as itself. *)
Lemma write_value_nodata (dt : data_type) (w : Q) : write_value dt (-9999) = Some w -> w == -9999.
Proof. destruct dt; vm_compute; intros H; try discriminate H; injection H as <-; reflexivity. Qed.

(** ** The algorithm on a raster *)

Lemma reclassifybytable_script (n : nat) (dt : data_type) (t : list Q) (r : raster) :
  data_type_of n = Some dt -> (length t mod 3 = 0)%nat ->
  reclassifybytable (script_params n t) r =
    match cellmapM (λ v, write_value dt (reclassify_cell IncludeMax (classes_of_numbers t) (nodata r)
                                            (-9999) false v)) (cells r) with
    | None => inl UndefinedConversion
    | Some g => inr (mkRaster g (Some (-9999)) (geo r))
    end.
Proof.
  intros Hdt H. unfold reclassifybytable, classes_of_table. cbn [rp_boundaries rp_data_type rp_table
    script_params range_boundaries_of]. rewrite Hdt, length_map, decide_True by done.
  by rewrite classes_of_rows_numbers.
Qed.

(** With [DATA_TYPE 5] (Float32) every write goes right: the output holds
    the reclassified cells. *)
Lemma reclassifybytable_float (t : list Q) (r : raster) :
  (length t mod 3 = 0)%nat ->
  reclassifybytable (script_params 5 t) r =
    inr (mkRaster (cellmap (reclassify_cell IncludeMax (classes_of_numbers t) (nodata r) (-9999) false)
                           (cells r)) (Some (-9999)) (geo r)).
Proof.
  intros H. rewrite (reclassifybytable_script 5 Float32) by done.
  by rewrite (cellmapM_total _ (reclassify_cell IncludeMax (classes_of_numbers t) (nodata r) (-9999) false)).
Qed.

(** The script's reclassification on valid cells: a valid cell of the
    output is the written class of a valid input cell, or the written cell
    itself when no class contains it. *)
Lemma reclassify_script_valid (n : nat) (dt : data_type) (t : list Q) (r r' : raster) (P Qp : Q -> Prop) :
  data_type_of n = Some dt -> (length t mod 3 = 0)%nat ->
  reclassifybytable (script_params n t) r = inr r' ->
  all_cells (λ v, is_nodata (nodata r) v = false -> P v) (cells r) ->
  (forall v w, P v -> write_value dt (default v (reclassify_value IncludeMax (classes_of_numbers t) v)) = Some w ->
     Qp w) ->
  all_cells (λ z, is_nodata (nodata r') z = false -> Qp z) (cells r').
Proof.
  intros Hdt Hlen Hr HP HQ. rewrite (reclassifybytable_script n dt) in Hr by done.
  destruct (cellmapM _ _) as [g|] eqn:Hg; [|done]. injection Hr as <-.
  eapply all_cells_cellmapM; [|exact HP|exact Hg]. intros v z Hv Hw. cbn [nodata].
  unfold reclassify_cell in Hw. destruct (is_nodata (nodata r) v) eqn:E.
  - apply write_value_nodata in Hw. intros Hz. by rewrite Hw, is_nodata_refl in Hz.
  - intros _. apply (HQ v z (Hv E)). by destruct (reclassify_value _ _ v).
Qed.

(** C21: with the parameters of the script's Float32 calls
    ([NODATA_FOR_MISSING False], [DATA_TYPE 5]) a valid cell that no class
    contains is not turned into no-data: it keeps its own value in the
    output. *)
Theorem script_reclass_unmatched_keeps_value (t : list Q) (r : raster) (i j : nat) (v : Q) :
  (length t mod 3 = 0)%nat ->
  cell (cells r) i j = Some v -> is_nodata (nodata r) v = false ->
  reclassify_value IncludeMax (classes_of_numbers t) v = None ->
  exists r', reclassifybytable (script_params 5 t) r = inr r' /\
             cell (cells r') i j = Some v /\ nodata r' = Some (-9999).
Proof.
  intros Hlen Hv Hnd Hnone. eexists. split; [by apply reclassifybytable_float|].
  simpl. rewrite cell_cellmap, Hv. simpl. unfold reclassify_cell. by rewrite Hnd, Hnone.
Qed.

(** The heatmap tiers of line 1132 on a cell of density 0. *)
Lemma script_reclass_unmatched_keeps_value_witness :
  exists r', reclassifybytable (script_params 5 costtable)
               (mkRaster [[0; 250]] None (mkGeo 0 10 0 0 0 (-10))) = inr r' /\
             cell (cells r') 0 0 = Some 0 /\ nodata r' = Some (-9999).
Proof. apply script_reclass_unmatched_keeps_value; reflexivity. Defined.

(** ** The IUHD table *)

(** The upper-inclusive policy on the IUHD table: [1.0] is in class
    6 (its upper bound), [0.33] in class 5, not 6 (it is class 6's lower
    bound), and [0.0] in class 5. *)
Theorem iuhd_boundary_policy :
  reclassify_value IncludeMax (classes_of_numbers iuhdtable) 1.0 = Some 6 /\
  reclassify_value IncludeMax (classes_of_numbers iuhdtable) 0.33 = Some 5 /\
  reclassify_value IncludeMax (classes_of_numbers iuhdtable) 0.0 = Some 5.
Proof. split_and!; reflexivity. Qed.

(** C24: the IUHD table leaves unmatched exactly the values at or below
    [-3] and above [100]; in particular the lowest IUHD the field
    calculators can produce, [-3] (no warming, full vegetation cooling),
    is not classified. *)
Theorem iuhd_unmatched (v : Q) :
  reclassify_value IncludeMax (classes_of_numbers iuhdtable) v = None <->
  v <= -3 \/ 100 < v.
Proof.
  rewrite (chain_unmatched_iff (-3.0)) by reflexivity.
  change (chain_top (-3.0) _) with 100.0. split; intros [H|H]; lra.
Qed.

Lemma iuhdtable_writes :
  Forall (λ k, write_value UInt32 k = Some k) (map rc_value (classes_of_numbers iuhdtable)).
Proof. simpl. repeat constructor. Qed.

(** One cell of the IUHD reclassification of lines 434-457 (UInt32): the
    write goes wrong on a no-data cell (the output no-data -9999) and on an
    unclassified value at or below -3 or from 2^32 on. *)
Lemma iuhd_write_None (nd : option Q) (v : Q) :
  write_value UInt32 (reclassify_cell IncludeMax (classes_of_numbers iuhdtable) nd (-9999) false v) = None <->
  is_nodata nd v = true \/ v <= -3 \/ 4294967296 <= v.
Proof.
  unfold reclassify_cell. destruct (is_nodata nd v); [split; [auto|done]|].
  destruct (reclassify_value IncludeMax _ v) as [k|] eqn:E.
  - pose proof E as Hin. apply reclassify_value_in in Hin.
    rewrite (proj1 (Forall_forall _ _) iuhdtable_writes k Hin). split; [done|].
    intros [H|[H|H]]; [done| |]; assert (Hn : reclassify_value IncludeMax (classes_of_numbers iuhdtable) v = None)
      by (apply (chain_unmatched_iff (-3.0)); [reflexivity|change (chain_top (-3.0) _) with 100.0; lra]);
      congruence.
  - apply (chain_unmatched_iff (-3.0)) in E; [|reflexivity]. change (chain_top (-3.0) _) with 100.0 in E.
    rewrite write_uint32_None. split; [intros [H|H]; [right; left|right; right]; lra|].
    intros [H|[H|H]]; [done|left; lra|by right].
Qed.

(** C10: C?: the IUHD reclassification of lines 434-457 writes into a UInt32
    band ([DATA_TYPE 3]): the conversion of the cell's value is undefined,
    and the run goes wrong, exactly when some cell is no-data (written as
    the output no-data -9999) or holds an unclassified value at or below
    -3 (the lowest IUHD, kept because no class contains it) or from 2^32
    on. *)
Theorem iuhd_uint32_undefined (r : raster) :
  reclassifybytable (script_params 3 iuhdtable) r = inl UndefinedConversion <->
  exists i j v, cell (cells r) i j = Some v /\ (is_nodata (nodata r) v = true \/ v <= -3 \/ 4294967296 <= v).
Proof.
  rewrite (reclassifybytable_script 3 UInt32) by reflexivity.
  destruct (cellmapM _ (cells r)) as [g|] eqn:Hg.
  - split; [done|]. intros (i & j & v & Hv & Hc). apply (iuhd_write_None (nodata r)) in Hc.
    assert (Hn : cellmapM (λ v, write_value UInt32 (reclassify_cell IncludeMax (classes_of_numbers iuhdtable)
                   (nodata r) (-9999) false v)) (cells r) = None) by (apply cellmapM_None; eauto).
    congruence.
  - split; [|done]. intros _. apply cellmapM_None in Hg as (i & j & v & Hv & Hw).
    exists i, j, v. split; [done|]. by apply iuhd_write_None.
Qed.

(** A rasterized IUHD pixel of -3 next to one of 1.2. *)
Lemma iuhd_uint32_undefined_witness :
  reclassifybytable (script_params 3 iuhdtable) (mkRaster [[1.2; -3]] None (mkGeo 0 10 0 0 0 (-10))) =
    inl UndefinedConversion /\
  exists i j v, cell (cells (mkRaster [[1.2; -3]] None (mkGeo 0 10 0 0 0 (-10)))) i j = Some v /\
    (is_nodata None v = true \/ v <= -3 \/ 4294967296 <= v).
Proof.
  split; [reflexivity|]. apply iuhd_uint32_undefined. reflexivity.
Defined.

(** C25: the heatmap tiers (lines 1119-1130) leave unmatched exactly the
    values at or below [0] and above [3000]: a cell of the oviposition
    heatmap with no hotspot within the kernel's radius has density 0,
    and with [NODATA_FOR_MISSING False] it keeps 0 instead of getting one
    of the ten classes. *)
Theorem costtable_unmatched (v : Q) :
  reclassify_value IncludeMax (classes_of_numbers costtable) v = None <->
  v <= 0 \/ 3000 < v.
Proof.
  rewrite (chain_unmatched_iff 0) by reflexivity.
  change (chain_top 0 _) with 3000. split; intros [H|H]; lra.
Qed.

(** ** LAI followed by "Reclass 0 to 1" *)

Lemma laitable_values : Forall (λ k, 1 <= k <= 10) (map rc_value (classes_of_numbers laitable)).
Proof. simpl. repeat (constructor; [lra|]). constructor. Qed.

Lemma nozero_keeps_above (x : Q) :
  0.1 < x -> reclassify_cell IncludeMax (classes_of_numbers nozerotable) (Some (-9999)) (-9999) false x = x.
Proof.
  intros Hx. unfold reclassify_cell. simpl is_nodata.
  destruct (qeqb_spec x (-9999)); [lra|].
  rewrite (proj2 (chain_unmatched_iff (-10.0) (classes_of_numbers nozerotable) x eq_refl));
    [done|]. right. simpl. lra.
Qed.

Lemma nozero_zero (x : Q) :
  x == 0 -> reclassify_cell IncludeMax (classes_of_numbers nozerotable) (Some (-9999)) (-9999) false x = 1.
Proof.
  intros Hx. unfold reclassify_cell. simpl is_nodata.
  destruct (qeqb_spec x (-9999)); [lra|].
  cbn [reclassify_value classes_of_numbers nozerotable].
  by rewrite (proj2 (range_contains_IncludeMax (-10.0) 0.1 1 x)) by lra.
Qed.

(** The LAI reclassification followed by the "Reclass 0 to 1" table
    gives every LAI value in [[0, 100]] a class between 1 and 10: a value
    of 0 (a filled no-data cell), which the LAI table leaves unmatched and
    keeps, is caught by the second table and becomes 1. *)
Theorem lai_then_nozero_range (nd : option Q) (v : Q) :
  0 <= v <= 100 -> is_nodata nd v = false ->
  1 <= reclassify_cell IncludeMax (classes_of_numbers nozerotable) (Some (-9999)) (-9999) false
         (reclassify_cell IncludeMax (classes_of_numbers laitable) nd (-9999) false v) <= 10.
Proof.
  intros Hv Hnd.
  remember (reclassify_cell IncludeMax _ nd _ false v) as w eqn:Hw.
  unfold reclassify_cell in Hw. rewrite Hnd in Hw.
  destruct (reclassify_value IncludeMax _ v) as [k|] eqn:E; subst w.
  - apply reclassify_value_in in E.
    pose proof (proj1 (Forall_forall _ _) laitable_values k E) as Hk. cbv beta in Hk.
    rewrite nozero_keeps_above by lra. exact Hk.
  - apply (chain_unmatched_iff 0.0) in E; [|reflexivity].
    change (chain_top 0.0 _) with 100.0 in E.
    rewrite nozero_zero by lra. split; lra.
Qed.

Lemma lai_then_nozero_range_witness :
  (0 <= 0 <= 100 /\ is_nodata None 0 = false) /\
  1 <= reclassify_cell IncludeMax (classes_of_numbers nozerotable) (Some (-9999)) (-9999) false
         (reclassify_cell IncludeMax (classes_of_numbers laitable) None (-9999) false 0) <= 10.
Proof. split; [split; [lra | reflexivity] | apply lai_then_nozero_range; [lra | reflexivity]]. Defined.
