(* ===== verification/RasterCalc.v ===== *)
(** * The raster calculator ([gdal:rastercalculator], gdal_calc)

    The script evaluates sixteen formulas with [gdal:rastercalculator]:
    the inputs [INPUT_A] .. [INPUT_F] (band 1 of each) are read as arrays
    [A] .. [F], the [FORMULA] is evaluated element-wise, and the result is
    written as the [RTYPE] type (5, Float32, in every call).  gdal_calc
    refuses inputs whose dimensions differ from the first one's; it gives
    the output the geotransform of the first input and the no-data value
    [NO_DATA], or, when [NO_DATA] is [None], the default of the output type
    (3.402823466E+38 for Float32); a cell where any input holds its band's
    no-data value is written as the output no-data value.

    This file models the calculator ([gdal_calc]) over a list of inputs in
    the order [A], [B], ..., and every formula of the script as a function
    of the list of cell values ([Formulas]). *)

From S2P Require Import Prelude Raster.

(** ** Output types and their default no-data values *)

(** [RTYPE]: the output types offered by QGIS, in order. *)
Inductive rtype := RByte | RInt16 | RUInt16 | RUInt32 | RInt32 | RFloat32 | RFloat64.

Definition rtype_of (n : nat) : option rtype :=
  match n with
  | 0 => Some RByte | 1 => Some RInt16 | 2 => Some RUInt16 | 3 => Some RUInt32
  | 4 => Some RInt32 | 5 => Some RFloat32 | 6 => Some RFloat64 | _ => None
  end%nat.

(** gdal_calc's [DefaultNDVLookup]. *)
Definition default_nodata (t : rtype) : Q :=
  match t with
  | RByte => 255
  | RUInt16 => 65535
  | RInt16 => -32768
  | RUInt32 => 4294967293
  | RInt32 => -2147483647
  | RFloat32 => 3.402823466e38
  | RFloat64 => 1.7976931348623158e308
  end.

(** ** Stacking the inputs cell by cell *)

(** The values [A], [B], ... of one cell, as a list. *)
Fixpoint stack (gs : list (grid Q)) : grid (list Q) :=
  match gs with
  | [] => []
  | [g] => cellmap (λ x, [x]) g
  | g :: gs' => cellzip cons g (stack gs')
  end.

(** One output cell: the output no-data value when some input is no-data
    there, the formula's value otherwise. *)
Definition calc_cell (f : list Q -> Q) (ndvs : list (option Q)) (out_nd : Q) (vs : list Q) : Q :=
  if existsb id (zip_with is_nodata ndvs vs) then out_nd else f vs.

Record calc_params := CalcParams {
  cp_formula : list Q -> Q;
  cp_nodata : option Q;
  cp_rtype : nat
}.

Inductive calc_error := NoInput | DimensionMismatch | InvalidRtype (n : nat).

(** [RasterXSize, RasterYSize] as gdal_calc compares them. *)
Definition dims (r : raster) : nat * nat := (raster_width r, raster_height r).

Definition out_nodata (p : calc_params) (t : rtype) : Q :=
  match cp_nodata p with Some v => v | None => default_nodata t end.

Definition gdal_calc (p : calc_params) (inputs : list raster) : calc_error + raster :=
  match inputs with
  | [] => inl NoInput
  | r0 :: _ =>
      match rtype_of (cp_rtype p) with
      | None => inl (InvalidRtype (cp_rtype p))
      | Some t =>
          if forallb (λ r, bool_decide (dims r = dims r0)) inputs then
            inr (mkRaster
                   (cellmap (calc_cell (cp_formula p) (map nodata inputs) (out_nodata p t))
                            (stack (map cells inputs)))
                   (Some (out_nodata p t)) (geo r0))
          else inl DimensionMismatch
      end
  end.

(** ** The formulas of the script *)

(** The operands [A] .. [F] of a formula. *)
Definition band_A (v : list Q) : Q := nth 0 v 0.
Definition band_B (v : list Q) : Q := nth 1 v 0.
Definition band_C (v : list Q) : Q := nth 2 v 0.
Definition band_D (v : list Q) : Q := nth 3 v 0.
Definition band_E (v : list Q) : Q := nth 4 v 0.
Definition band_F (v : list Q) : Q := nth 5 v 0.

(** A numpy boolean array used as a number. *)
Definition b2q (b : bool) : Q := if b then 1 else 0.

(** [(A == 0) * 100 + + (A == 1) * B] (line 556). *)
Definition mask_roof_slopes (v : list Q) : Q :=
  b2q (band_A v =? 0) * 100 + b2q (band_A v =? 1) * band_B v.

(** [(A < 8) * A + (A >= 8) * 130] (line 601). *)
Definition slopes_over_8_to_nodata (v : list Q) : Q :=
  b2q (band_A v <? 8) * band_A v + b2q (8 <=? band_A v) * 130.

(** [(A + B) / 2] (lines 783 and 1507). *)
Definition mean_AB (v : list Q) : Q := (band_A v + band_B v) / 2.

(** [A * 0.9 + B * 0.1] (line 809). *)
Definition wmca_oviposition (v : list Q) : Q := band_A v * 0.9 + band_B v * 0.1.

(** [(A + B + C + D + E + F) / 6] (line 857). *)
Definition heatmaps_mean (v : list Q) : Q :=
  (band_A v + band_B v + band_C v + band_D v + band_E v + band_F v) / 6.

(** The NMD vegetation codes of line 1149. *)
Definition nmd_vegetation_codes : list Q :=
  [2; 42; 111; 112; 113; 114; 115; 116; 117; 118; 121; 122; 123; 124; 125; 126; 127; 128].

(** [((A == 2) + (A == 42) + ... + (A == 128))] (line 1149). *)
Definition vegetation_from_nmd (v : list Q) : Q :=
  foldr (λ k acc, b2q (band_A v =? k) + acc) 0 nmd_vegetation_codes.

(** [A * B] (line 1320). *)
Definition vegetation_heights (v : list Q) : Q := band_A v * band_B v.

(** [A / 1000.0] (line 1344). *)
Definition ocean_distance_km (v : list Q) : Q := band_A v / 1000.0.

(** [(((A * 0.6) * B) + C) / 2] (line 1387). *)
Definition laifai_combo (v : list Q) : Q := (((band_A v * 0.6) * band_B v) + band_C v) / 2.

(** [A * 0.18 + B * 0.18 + C * 0.13 + D * 0.13 + E * 0.13 + F * 0.1] (line 1536). *)
Definition adults_mca1 (v : list Q) : Q :=
  band_A v * 0.18 + band_B v * 0.18 + band_C v * 0.13 + band_D v * 0.13 +
  band_E v * 0.13 + band_F v * 0.1.

(** [A * 0.1 + B * 0.05 + C] (line 1558). *)
Definition adults_mca2 (v : list Q) : Q := band_A v * 0.1 + band_B v * 0.05 + band_C v.

(** The parameters of every call: [NO_DATA None], [RTYPE 5]. *)
Definition script_calc (f : list Q -> Q) : calc_params := CalcParams f None 5.

(** ** The stacked operands *)

Lemma cell_stack (gs : list (grid Q)) (i j : nat) :
  gs <> [] -> cell (stack gs) i j = mapM (λ g, cell g i j) gs.
Proof.
  induction gs as [|g [|g' gs] IH]; intros Hne; [done| |].
  - simpl. rewrite cell_cellmap. by destruct (cell g i j).
  - change (cell (cellzip cons g (stack (g' :: gs))) i j = mapM (λ g, cell g i j) (g :: g' :: gs)).
    rewrite cell_cellzip, IH by done. simpl. by destruct (cell g i j).
Qed.

Lemma all_cells_stack (Ps : list (Q -> Prop)) (gs : list (grid Q)) :
  gs <> [] -> Forall2 all_cells Ps gs ->
  all_cells (λ vs, Forall2 (λ P v, P v) Ps vs) (stack gs).
Proof.
  intros Hne H. induction H as [|P g Ps gs Hg Hgs IH]; [done|].
  destruct gs as [|g' gs].
  - inversion Hgs; subst. simpl. eapply all_cells_cellmap_in; [|exact Hg]. by repeat constructor.
  - change (all_cells (λ vs, Forall2 (λ P v, P v) (P :: Ps) vs) (cellzip cons g (stack (g' :: gs)))).
    eapply all_cells_cellzip2; [|exact Hg|by apply IH]. intros. by constructor.
Qed.

(** ** The calculator's contract *)

Section Contract.
Context (p : calc_params) (rs : list raster) (r : raster).
Hypothesis Hcalc : gdal_calc p rs = inr r.

Lemma gdal_calc_inv :
    exists r0 rs' t, rs = r0 :: rs' /\ rtype_of (cp_rtype p) = Some t /\
      Forall (λ r', dims r' = dims r0) rs /\
      r = mkRaster (cellmap (calc_cell (cp_formula p) (map nodata rs) (out_nodata p t))
                            (stack (map cells rs))) (Some (out_nodata p t)) (geo r0).
  Proof.
    revert Hcalc. unfold gdal_calc. destruct rs as [|r0 rs']; [done|].
    destruct (rtype_of _) as [t|]; [|done].
    destruct (forallb _ _) eqn:Hall; [|done]. intros [= <-].
    exists r0, rs', t. split_and!; try done.
    apply Forall_forall. intros r' Hr'. apply list_elem_of_In in Hr'.
    rewrite forallb_forall in Hall. specialize (Hall r' Hr'). by apply bool_decide_eq_true in Hall.
  Qed.

Lemma gdal_calc_cell_raw (i j : nat) :
    exists t, rtype_of (cp_rtype p) = Some t /\
      cell (cells r) i j = calc_cell (cp_formula p) (map nodata rs) (out_nodata p t) <$>
                             mapM (λ ri, cell (cells ri) i j) rs.
  Proof.
    destruct gdal_calc_inv as (r0 & rs' & t & -> & Ht & _ & ->). exists t. split; [done|].
    change (cell (cells (mkRaster ?c _ _)) i j) with (cell c i j).
    rewrite cell_cellmap, cell_stack by done. by rewrite mapM_map.
  Qed.

Lemma calc_cell_valid (f : list Q -> Q) (ndvs : list (option Q)) (out_nd : Q) (vs : list Q) :
    Forall2 (λ nd v, is_nodata nd v = false) ndvs vs -> calc_cell f ndvs out_nd vs = f vs.
  Proof.
    unfold calc_cell. intros H. enough (existsb id (zip_with is_nodata ndvs vs) = false) as -> by done.
    induction H; simpl; [done|]. by rewrite H.
  Qed.

End Contract.

(** Every cell of the output is the calculator's value of the inputs'
    cells at the same place. *)
Lemma gdal_calc_cell_some (p : calc_params) (rs : list raster) (r : raster) (i j : nat) (z : Q) :
  gdal_calc p rs = inr r -> cell (cells r) i j = Some z ->
  exists t vs, rtype_of (cp_rtype p) = Some t /\ Forall2 (λ ri v, cell (cells ri) i j = Some v) rs vs /\
    z = calc_cell (cp_formula p) (map nodata rs) (out_nodata p t) vs.
Proof.
  intros Hc Hz. destruct (gdal_calc_cell_raw p rs r Hc i j) as (t & Ht & Hr). rewrite Hr in Hz.
  destruct (mapM _ rs) as [vs|] eqn:Hvs; [|done]. injection Hz as <-.
  exists t, vs. split_and!; [done | by apply mapM_Some | done].
Qed.

(** The calculator's contract on valid cells: where the valid cells of
    each input satisfy [P_k], the valid cells of the output satisfy the
    formula's postcondition [Qp]. *)
Lemma gdal_calc_valid_cells (p : calc_params) (rs : list raster) (r : raster)
    (Ps : list (Q -> Prop)) (Qp : Q -> Prop) :
  gdal_calc p rs = inr r ->
  Forall2 (λ P ri, all_cells (λ v, is_nodata (nodata ri) v = false -> P v) (cells ri)) Ps rs ->
  (forall vs, Forall2 (λ P v, P v) Ps vs -> Qp (cp_formula p vs)) ->
  all_cells (λ z, is_nodata (nodata r) z = false -> Qp z) (cells r).
Proof.
  intros Hc HPs Hf. apply all_cells_lookup. intros i j z Hz Hnd.
  destruct (gdal_calc_cell_some p rs r i j z Hc Hz) as (t & vs & Ht & Hvs & ->).
  destruct (gdal_calc_inv p rs r Hc) as (? & ? & t' & _ & Ht' & _ & Hr).
  rewrite Ht in Ht'. injection Ht' as <-. rewrite Hr in Hnd. cbn [nodata] in Hnd. unfold calc_cell in *.
  destruct (existsb id _) eqn:E; [by rewrite is_nodata_refl in Hnd|]. apply Hf.
  clear -HPs Hvs E. revert vs Hvs E. induction HPs as [|P ri Ps rs' Hri _ IH]; intros vs Hvs E;
    inversion Hvs as [|? v ? vs' Hv Hvs']; subst; constructor.
  - simpl in E. apply orb_false_iff in E as [E _]. rewrite all_cells_lookup in Hri. by apply (Hri i j).
  - simpl in E. apply orb_false_iff in E as [_ E]. by apply IH.
Qed.

(** A calculator call succeeds when the output type is valid and every
    input has the first input's dimensions. *)
Lemma gdal_calc_ok (p : calc_params) (r0 : raster) (rs : list raster) (t : rtype) :
  rtype_of (cp_rtype p) = Some t -> Forall (λ r, dims r = dims r0) (r0 :: rs) ->
  exists r, gdal_calc p (r0 :: rs) = inr r.
Proof.
  intros Ht Hd. unfold gdal_calc. rewrite Ht.
  replace (forallb _ _) with true; [by eexists|]. symmetry. apply forallb_forall.
  intros r Hr. apply list_elem_of_In in Hr. apply bool_decide_eq_true.
  rewrite Forall_forall in Hd. by apply Hd.
Qed.

(** A calculator call on one input always succeeds. *)
Lemma gdal_calc_single (p : calc_params) (r : raster) (t : rtype) :
  rtype_of (cp_rtype p) = Some t ->
  gdal_calc p [r] = inr (mkRaster (cellmap (calc_cell (cp_formula p) [nodata r] (out_nodata p t))
                                           (stack [cells r])) (Some (out_nodata p t)) (geo r)).
Proof. intros Ht. unfold gdal_calc. rewrite Ht. simpl. by rewrite bool_decide_true. Qed.

(** Inputs of one shape stack into a grid of that shape. *)
Lemma shape_stack (gs : list (grid Q)) (s : list nat) :
  gs <> [] -> Forall (λ g, shape g = s) gs -> shape (stack gs) = s.
Proof.
  induction gs as [|g [|g' gs] IH]; intros Hne Hs; [done| |].
  - inversion Hs; subst. simpl. by rewrite shape_cellmap.
  - inversion Hs as [|? ? Hg Hs']; subst.
    change (shape (cellzip cons g (stack (g' :: gs))) = shape g).
    apply shape_cellzip. by rewrite IH.
Qed.

(** The calculator's output has the shape of its inputs. *)
Lemma gdal_calc_shape (p : calc_params) (rs : list raster) (r : raster) (s : list nat) :
  gdal_calc p rs = inr r -> Forall (λ ri, shape (cells ri) = s) rs -> shape (cells r) = s.
Proof.
  intros Hc Hs. destruct (gdal_calc_inv p rs r Hc) as (r0 & rs' & t & -> & _ & _ & ->).
  cbn [cells]. rewrite shape_cellmap. apply shape_stack; [done|]. by apply Forall_map.
Qed.

Lemma dims_of_shape (r r' : raster) : shape (cells r) = shape (cells r') -> dims r = dims r'.
Proof. intros Hs. unfold dims. by rewrite !raster_width_shape, !raster_height_shape, Hs. Qed.

(** A call on inputs of one shape succeeds, with an output of that shape. *)
Lemma gdal_calc_ok_shape (f : list Q -> Q) (rs : list raster) (s : list nat) :
  rs <> [] -> Forall (λ ri, shape (cells ri) = s) rs ->
  exists r, gdal_calc (script_calc f) rs = inr r /\ shape (cells r) = s.
Proof.
  intros Hne Hs. destruct rs as [|r0 rs']; [done|].
  destruct (gdal_calc_ok (script_calc f) r0 rs' RFloat32) as [r Hr]; [done| |].
  - eapply Forall_impl; [exact Hs|]. intros ri Hri. apply dims_of_shape.
    rewrite Hri. symmetry. by inversion Hs.
  - exists r. split; [done|]. by apply (gdal_calc_shape _ _ _ _ Hr).
Qed.

(** Operands read from inputs whose valid cells satisfy [P_k] satisfy [P_k]
    and are not no-data. *)
Lemma operands_valid (Ps : list (Q -> Prop)) (rs : list raster) (i j : nat) (vs : list Q) :
  Forall2 (λ P ri, all_cells (λ v, P v /\ is_nodata (nodata ri) v = false) (cells ri)) Ps rs ->
  Forall2 (λ ri v, cell (cells ri) i j = Some v) rs vs ->
  Forall2 (λ P v, P v) Ps vs /\ Forall2 (λ nd v, is_nodata nd v = false) (map nodata rs) vs.
Proof.
  intros HPs. revert vs. induction HPs as [|P ri Ps rs' Hri _ IH]; intros vs Hvs;
    inversion Hvs as [|? v ? vs' Hv Hvs']; subst; [split; constructor|].
  rewrite all_cells_lookup in Hri. destruct (Hri i j v Hv) as [HPv Hndv].
  destruct (IH vs' Hvs'). split; constructor; auto.
Qed.

(** C3: the calculator's cell semantics: where the inputs hold the
    values [vs], the output holds the formula's value of [vs], unless one
    input is no-data there, and then the output's no-data value. *)
Theorem gdal_calc_cell (p : calc_params) (rs : list raster) (r : raster) :
  gdal_calc p rs = inr r -> forall (i j : nat) (vs : list Q),
  mapM (λ ri, cell (cells ri) i j) rs = Some vs ->
  exists t, rtype_of (cp_rtype p) = Some t /\
    cell (cells r) i j =
      Some (if existsb id (zip_with is_nodata (map nodata rs) vs) then out_nodata p t
            else cp_formula p vs).
Proof.
  intros Hcalc i j vs Hvs. destruct (gdal_calc_cell_raw p rs r Hcalc i j) as (t & Ht & Hc).
  exists t. by rewrite Hc, Hvs.
Qed.

(** C4: no-data propagates: a cell where the [k]-th input holds its
    band's no-data value is no-data in the output. *)
Theorem gdal_calc_nodata_propagates (p : calc_params) (rs : list raster) (r : raster) :
  gdal_calc p rs = inr r -> forall (i j k : nat) (vs : list Q) (rk : raster) (v : Q),
  mapM (λ ri, cell (cells ri) i j) rs = Some vs ->
  rs !! k = Some rk -> vs !! k = Some v -> is_nodata (nodata rk) v = true ->
  exists t, rtype_of (cp_rtype p) = Some t /\
    cell (cells r) i j = Some (out_nodata p t) /\ nodata r = Some (out_nodata p t).
Proof.
  intros Hcalc i j k vs rk v Hvs Hk Hv Hnd.
  destruct (gdal_calc_inv p rs r Hcalc) as (r0 & rs' & t & _ & Ht & _ & Hr).
  exists t. split_and!; [done| |by rewrite Hr].
  destruct (gdal_calc_cell_raw p rs r Hcalc i j) as (t' & Ht' & ->). rewrite Ht in Ht'.
  injection Ht' as <-. rewrite Hvs. simpl. unfold calc_cell.
  enough (existsb id (zip_with is_nodata (map nodata rs) vs) = true) as -> by done.
  apply existsb_exists. exists true. split; [|done]. rewrite <- list_elem_of_In, list_elem_of_lookup.
  exists k. rewrite lookup_zip_with, list_lookup_fmap, Hk. simpl. rewrite Hv. simpl. by rewrite Hnd.
Qed.

(** C2: the calculator's contract on valid cells, as a refinement of the
    formula: when the valid cells of the [k]-th input satisfy [P_k] and the
    formula maps operands satisfying [P_1 .. P_n] into [Qp], every cell of
    the output that is not its no-data value satisfies [Qp] (a cell with a
    no-data operand is written as the output's no-data value). *)
Theorem gdal_calc_valid_contract (p : calc_params) (rs : list raster) (r : raster)
    (Ps : list (Q -> Prop)) (Qp : Q -> Prop) :
  gdal_calc p rs = inr r ->
  Forall2 (λ P ri, all_cells (λ v, is_nodata (nodata ri) v = false -> P v) (cells ri)) Ps rs ->
  (forall vs, Forall2 (λ P v, P v) Ps vs -> Qp (cp_formula p vs)) ->
  all_cells (λ z, is_nodata (nodata r) z = false -> Qp z) (cells r).
Proof. apply gdal_calc_valid_cells. Qed.


(** ** The weighted overlays of the script *)


Lemma Forall2_two {A B} (R : A -> B -> Prop) (x1 x2 : A) (vs : list B) :
  Forall2 R [x1; x2] vs -> exists y1 y2, vs = [y1; y2] /\ R x1 y1 /\ R x2 y2.
Proof. intros H. inversion H as [|? y1 ? ? H1 H']; subst. inversion H'; subst. inversion H5; subst. eauto. Qed.

(** The oviposition overlay [A * 0.9 + B * 0.1] of a constant-5
    raster and a constant-3 raster without no-data is 4.8 in every cell. *)
Theorem wmca_oviposition_scenario (a b r : raster) :
  gdal_calc (script_calc wmca_oviposition) [a; b] = inr r ->
  all_cells (λ v, v == 5) (cells a) -> all_cells (λ v, v == 3) (cells b) ->
  nodata a = None -> nodata b = None ->
  all_cells (λ z, z == 4.8) (cells r).
Proof.
  intros Hr Ha Hb Hna Hnb. apply all_cells_lookup. intros i j z Hz.
  destruct (gdal_calc_cell_some _ _ _ i j z Hr Hz) as (t & vs & _ & Hvs & ->).
  destruct (operands_valid [λ v, v == 5; λ v, v == 3] [a; b] i j vs) as [HP Hnd]; [|done|].
  { constructor; [|constructor; [|constructor]].
    - rewrite Hna. eapply all_cells_impl; [exact Ha|]. by split.
    - rewrite Hnb. eapply all_cells_impl; [exact Hb|]. by split. }
  rewrite calc_cell_valid by done. apply Forall2_two in HP as (x & y & -> & Hx & Hy).
  unfold wmca_oviposition, band_A, band_B. simpl. rewrite Hx, Hy. reflexivity.
Qed.

Definition const_raster (w h : nat) (v : Q) : raster :=
  mkRaster (replicate h (replicate w v)) None (mkGeo 0 10 0 0 0 (-10)).

Lemma wmca_oviposition_scenario_witness :
  exists r, gdal_calc (script_calc wmca_oviposition) [const_raster 3 3 5; const_raster 3 3 3] = inr r /\
    all_cells (λ v, v == 5) (cells (const_raster 3 3 5)) /\
    all_cells (λ v, v == 3) (cells (const_raster 3 3 3)) /\
    all_cells (λ z, z == 4.8) (cells r).
Proof.
  eexists. split; [reflexivity|].
  assert (Ha : all_cells (λ v, v == 5) (cells (const_raster 3 3 5))) by (repeat constructor).
  assert (Hb : all_cells (λ v, v == 3) (cells (const_raster 3 3 3))) by (repeat constructor).
  split_and!; [exact Ha | exact Hb |].
  eapply (wmca_oviposition_scenario (const_raster 3 3 5) (const_raster 3 3 3));
    [reflexivity | exact Ha | exact Hb | reflexivity | reflexivity].
Defined.

(** ** Witnesses of the calculator's contract *)

Lemma gdal_calc_cell_witness :
  exists r, gdal_calc (script_calc wmca_oviposition) [const_raster 2 2 5; const_raster 2 2 3] = inr r /\
    mapM (λ ri, cell (cells ri) 1 1) [const_raster 2 2 5; const_raster 2 2 3] = Some [5; 3] /\
    exists t, rtype_of 5 = Some t /\
      cell (cells r) 1 1 =
        Some (if existsb id (zip_with is_nodata (map nodata [const_raster 2 2 5; const_raster 2 2 3]) [5; 3])
              then out_nodata (script_calc wmca_oviposition) t else wmca_oviposition [5; 3]).
Proof.
  eexists. split; [reflexivity|]. split; [reflexivity|].
  exact (gdal_calc_cell (script_calc wmca_oviposition) [const_raster 2 2 5; const_raster 2 2 3] _
           eq_refl 1 1 [5; 3] eq_refl).
Defined.

(** The raster [B] of the slope stage with its no-data value 130 in one cell. *)
Definition slope_with_nodata : raster := mkRaster [[3; 130]] (Some 130) (mkGeo 0 10 0 0 0 (-10)).
Definition roof_mask : raster := mkRaster [[1; 1]] None (mkGeo 0 10 0 0 0 (-10)).

Lemma gdal_calc_nodata_propagates_witness :
  exists r, gdal_calc (CalcParams mask_roof_slopes (Some 130) 5) [roof_mask; slope_with_nodata] = inr r /\
    mapM (λ ri, cell (cells ri) 0 1) [roof_mask; slope_with_nodata] = Some [1; 130] /\
    exists t, rtype_of 5 = Some t /\
      cell (cells r) 0 1 = Some (out_nodata (CalcParams mask_roof_slopes (Some 130) 5) t) /\
      nodata r = Some (out_nodata (CalcParams mask_roof_slopes (Some 130) 5) t).
Proof.
  eexists. split; [reflexivity|]. split; [reflexivity|].
  exact (gdal_calc_nodata_propagates (CalcParams mask_roof_slopes (Some 130) 5)
           [roof_mask; slope_with_nodata] _ eq_refl 0 1 1 [1; 130] slope_with_nodata 130
           eq_refl eq_refl eq_refl eq_refl).
Defined.

(** The mean of a constant-4 raster and a raster of a 6 and a no-data
    cell: the valid output cell lies in [[4, 6]]. *)
Definition six_and_nodata : raster := mkRaster [[6; -9999]] (Some (-9999)) (mkGeo 0 10 0 0 0 (-10)).

Lemma gdal_calc_valid_contract_witness :
  exists r, gdal_calc (script_calc mean_AB) [const_raster 2 1 4; six_and_nodata] = inr r /\
    all_cells (λ z, is_nodata (nodata r) z = false -> 4 <= z <= 6) (cells r).
Proof.
  eexists. split; [reflexivity|].
  apply (gdal_calc_valid_contract (script_calc mean_AB) [const_raster 2 1 4; six_and_nodata] _
           [λ v, 4 <= v <= 6; λ v, 4 <= v <= 6] _ eq_refl).
  - constructor; [|constructor; [|constructor]].
    + apply all_cells_replicate. intros _. cbv beta. split; lra.
    + apply (bool_decide_unpack _). vm_compute. exact I.
  - intros vs Hvs. apply Forall2_two in Hvs as (x & y & -> & Hx & Hy).
    unfold mean_AB, band_A, band_B. cbn [cp_formula script_calc nth]. cbv beta in Hx, Hy. destruct Hx, Hy.
    unfold Qdiv. change (Qinv 2) with (1 # 2). split; lra.
Defined.

(** ** The output is a raster band *)

(** Two well-formed rasters with the same [RasterXSize] and
    [RasterYSize] have the same shape. *)
Lemma wf_dims_shape (r r' : raster) :
  wf_raster r -> wf_raster r' -> dims r = dims r' -> shape (cells r) = shape (cells r').
Proof.
  rewrite !wf_raster_shape. intros -> -> Hd. unfold dims in Hd. by injection Hd as -> ->.
Qed.

(** C5: the calculator's output is a raster band: on well-formed inputs
    (rectangles) it writes a rectangle of the first input's shape on the
    first input's grid.  The dimension check (RasterXSize and
    RasterYSize) is what makes the inputs' cells line up. *)
Theorem gdal_calc_wf (p : calc_params) (r0 : raster) (rs : list raster) (r : raster) :
  gdal_calc p (r0 :: rs) = inr r -> Forall wf_raster (r0 :: rs) ->
  wf_raster r /\ shape (cells r) = shape (cells r0) /\ geo r = geo r0.
Proof.
  intros Hc Hwf. destruct (gdal_calc_inv p (r0 :: rs) r Hc) as (r0' & rs' & t & [= <- <-] & _ & Hd & Hr).
  assert (Hs : shape (cells r) = shape (cells r0)).
  { apply (gdal_calc_shape p (r0 :: rs) r _ Hc). apply Forall_forall. intros ri Hri.
    rewrite Forall_forall in Hd, Hwf. apply wf_dims_shape; [by apply Hwf | by apply Hwf; left |].
    by apply Hd. }
  split_and!; [eapply wf_raster_shape_eq; [exact Hs | by inversion Hwf] | done | by rewrite Hr].
Qed.

Lemma gdal_calc_wf_witness :
  exists r, gdal_calc (script_calc mean_AB) [const_raster 3 2 4; const_raster 3 2 8] = inr r /\
    Forall wf_raster [const_raster 3 2 4; const_raster 3 2 8] /\
    (wf_raster r /\ shape (cells r) = shape (cells (const_raster 3 2 4)) /\ geo r = geo (const_raster 3 2 4)).
Proof.
  assert (Hwf : Forall wf_raster [const_raster 3 2 4; const_raster 3 2 8]) by (repeat constructor).
  eexists. split; [reflexivity|]. split; [exact Hwf|].
  apply (gdal_calc_wf (script_calc mean_AB) (const_raster 3 2 4) [const_raster 3 2 8]);
    [reflexivity | exact Hwf].
Defined.
