(* ===== verification/Mosaic.v ===== *)
(** * The script's mosaic: [mosaicrasters]

    [mosaicrasters(textfile, outfile)] (lines 51-65) reads a list of raster
    paths, one per line; the first raster, with its no-data cells set to 0,
    starts the accumulator ([i == 0]); each later raster, with its no-data
    cells set to 0, is combined with the accumulator by [np.maximum]; the
    result is written with [saveraster] using the last raster opened as the
    template.  An empty list leaves [raster] and [baseraster] unbound, so
    the final [saveraster] call fails; rasters whose shapes numpy cannot
    broadcast together make [np.maximum] fail.

    [mosaic_step] is one iteration of the loop on an explicit state (the
    counter [i], [raster] and [baseraster]), [mosaicrasters] runs the loop
    and the final write, and [mosaic_ref] is the reference definition (the
    cell-wise maximum of the zeroed rasters) the loop is proved to compute. *)

From S2P Require Import Prelude Raster.

(** [raster[raster == nd] = 0] *)
Definition zeroed (nd : option Q) (v : Q) : Q := if is_nodata nd v then 0 else v.

Definition zero_nodata (r : raster) : grid Q := cellmap (zeroed (nodata r)) (cells r).

(** [np.maximum(raster, newraster)] (line 63), with numpy's broadcasting;
    [None] is numpy's [ValueError] on shapes that do not broadcast. *)
Definition grid_maximum (g1 g2 : grid Q) : option (grid Q) := grid_bcast Qmax g1 g2.

(** [misc.saveraster(template, path, array)] (module [misc], not under
    [src/]): the array written on the template's grid, with no-data -9999. *)
Definition saveraster (template : raster) (arr : grid Q) : raster :=
  mkRaster arr (Some (-9999)) (geo template).

Inductive mosaic_error := NameError | ShapeMismatch.

(** The loop's variables: [i], [raster], [baseraster]. *)
Record mosaic_state := MosaicState {
  ms_i : nat;
  ms_raster : option (grid Q);
  ms_base : option raster
}.

Definition mosaic_init : mosaic_state := MosaicState 0 None None.

(** One iteration: [baseraster] is the raster of the current line. *)
Definition mosaic_step (st : mosaic_state) (r : raster) : mosaic_error + mosaic_state :=
  let z := zero_nodata r in
  match ms_i st with
  | 0%nat => inr (MosaicState 1 (Some z) (Some r))
  | S _ =>
      match ms_raster st with
      | None => inl NameError
      | Some acc =>
          match grid_maximum acc z with
          | None => inl ShapeMismatch
          | Some m => inr (MosaicState (S (ms_i st)) (Some m) (Some r))
          end
      end
  end.

Fixpoint mosaic_loop (st : mosaic_state) (rs : list raster) : mosaic_error + mosaic_state :=
  match rs with
  | [] => inr st
  | r :: rs' =>
      match mosaic_step st r with
      | inl e => inl e
      | inr st' => mosaic_loop st' rs'
      end
  end.

Definition mosaicrasters (rs : list raster) : mosaic_error + raster :=
  match mosaic_loop mosaic_init rs with
  | inl e => inl e
  | inr st =>
      match ms_base st, ms_raster st with
      | Some b, Some acc => inr (saveraster b acc)
      | _, _ => inl NameError
      end
  end.

(** ** Reference definition *)

Definition mosaic_ref (r0 : raster) (rs : list raster) : grid Q :=
  foldl (λ acc r, cellzip Qmax acc (zero_nodata r)) (zero_nodata r0) rs.

(** ** The loop computes the reference definition *)

Lemma shape_zero_nodata (r : raster) : shape (zero_nodata r) = shape (cells r).
Proof. apply shape_cellmap. Qed.

Lemma shape_mosaic_fold (acc : grid Q) (rs : list raster) :
  Forall (λ r, shape (cells r) = shape acc) rs ->
  shape (foldl (λ acc r, cellzip Qmax acc (zero_nodata r)) acc rs) = shape acc.
Proof.
  revert acc. induction rs as [|r rs IH]; intros acc H; [done|]. inversion H as [|? ? Hr Hrs]; subst.
  simpl. assert (Hs : shape (cellzip Qmax acc (zero_nodata r)) = shape acc)
    by (apply shape_cellzip; by rewrite shape_zero_nodata).
  rewrite IH; [done|]. rewrite Hs. done.
Qed.

(** The loop after its first iteration is a fold of the broadcast maximum. *)
Lemma mosaic_loop_fold (n : nat) (acc : grid Q) (b : raster) (rs : list raster) :
  mosaic_loop (MosaicState (S n) (Some acc) (Some b)) rs =
    match foldo grid_maximum acc (map zero_nodata rs) with
    | Some m => inr (MosaicState (S n + length rs) (Some m) (Some (List.last rs b)))
    | None => inl ShapeMismatch
    end.
Proof.
  revert n acc b. induction rs as [|r rs IH]; intros n acc b; simpl.
  - by rewrite Nat.add_0_r.
  - unfold mosaic_step. simpl. destruct (grid_maximum acc (zero_nodata r)) as [m|]; simpl; [|done].
    rewrite IH. destruct (foldo _ m _); [|done].
    do 3 f_equal; [lia|]. f_equal. symmetry. apply (last_cons_default r rs b).
Qed.

(** The mosaic of a non-empty list: the fold, written on the last raster's grid. *)
Lemma mosaicrasters_cons (r0 : raster) (rs : list raster) :
  mosaicrasters (r0 :: rs) =
    match foldo grid_maximum (zero_nodata r0) (map zero_nodata rs) with
    | Some m => inr (saveraster (List.last rs r0) m)
    | None => inl ShapeMismatch
    end.
Proof. unfold mosaicrasters. simpl. rewrite mosaic_loop_fold. by destruct (foldo _ _ _). Qed.

Lemma mosaicrasters_ok_inv (r0 : raster) (rs : list raster) (r : raster) :
  mosaicrasters (r0 :: rs) = inr r ->
  exists m, foldo grid_maximum (zero_nodata r0) (map zero_nodata rs) = Some m /\
    r = saveraster (List.last rs r0) m.
Proof. rewrite mosaicrasters_cons. destruct (foldo _ _ _) as [m|]; [|done]. intros [= <-]. eauto. Qed.

(** On rasters of one shape the broadcast fold is the cell-wise fold. *)
Lemma foldo_same_shape (acc : grid Q) (rs : list raster) :
  Forall (λ r, shape (cells r) = shape acc) rs ->
  foldo grid_maximum acc (map zero_nodata rs) =
    Some (foldl (λ acc r, cellzip Qmax acc (zero_nodata r)) acc rs).
Proof.
  revert acc. induction rs as [|r rs IH]; intros acc H; [done|].
  inversion H as [|? ? Hr Hrs]; subst. simpl. unfold grid_maximum.
  rewrite grid_bcast_same_shape by (by rewrite shape_zero_nodata). simpl. apply IH.
  eapply Forall_impl; [exact Hrs|]. intros r' ->. symmetry. apply shape_cellzip.
  by rewrite shape_zero_nodata.
Qed.

(** C6: the script's loop with its counter and its two variables computes
    the reference mosaic: for rasters of one shape, the output is the
    cell-wise maximum of the zeroed rasters, written on the last raster's
    grid. *)
Theorem mosaicrasters_ref (r0 : raster) (rs : list raster) :
  Forall (λ r, shape (cells r) = shape (cells r0)) rs ->
  mosaicrasters (r0 :: rs) = inr (saveraster (List.last rs r0) (mosaic_ref r0 rs)).
Proof.
  intros H. rewrite mosaicrasters_cons, foldo_same_shape; [done|].
  by rewrite shape_zero_nodata.
Qed.

(** ** Cell semantics: the maximum of the zeroed cells *)

Definition max_of (zs : list Q) : Q :=
  match zs with [] => 0 | z :: zs' => foldl Qmax z zs' end.

Lemma cell_mosaic_fold (acc : grid Q) (rs : list raster) (i j : nat) :
  cell (foldl (λ acc r, cellzip Qmax acc (zero_nodata r)) acc rs) i j =
    z ← cell acc i j; zs ← mapM (λ r, cell (zero_nodata r) i j) rs; Some (foldl Qmax z zs).
Proof.
  revert acc. induction rs as [|r rs IH]; intros acc; simpl.
  - by destruct (cell acc i j).
  - rewrite IH, cell_cellzip. destruct (cell acc i j); simpl; [|done].
    destruct (cell (zero_nodata r) i j); simpl; [|done]. by destruct (mapM _ rs).
Qed.

Lemma cell_mosaic_ref (r0 : raster) (rs : list raster) (i j : nat) :
  cell (mosaic_ref r0 rs) i j = max_of <$> mapM (λ r, cell (zero_nodata r) i j) (r0 :: rs).
Proof.
  unfold mosaic_ref. rewrite cell_mosaic_fold. simpl.
  destruct (cell (zero_nodata r0) i j); simpl; [|done]. by destruct (mapM _ rs).
Qed.

(** Where every operand has the cell, the broadcast fold has their maximum. *)
Lemma cell_foldo_maximum (acc : grid Q) (gs : list (grid Q)) (m : grid Q) (i j : nat) (z : Q) (zs : list Q) :
  foldo grid_maximum acc gs = Some m -> cell acc i j = Some z ->
  mapM (λ g, cell g i j) gs = Some zs -> cell m i j = Some (foldl Qmax z zs).
Proof.
  revert acc z zs. induction gs as [|g gs IH]; intros acc z zs; simpl.
  - intros [= <-] Hz [= <-]. done.
  - destruct (grid_maximum acc g) as [a|] eqn:Ha; simpl; [|done]. intros Hm Hz Hzs.
    destruct (cell g i j) as [b|] eqn:Hb; simpl in Hzs; [|done].
    destruct (mapM _ gs) as [zs'|] eqn:Hzs'; simpl in Hzs; [|done]. injection Hzs as <-.
    simpl. apply (IH a); [done| |done]. by apply (grid_bcast_cell _ _ _ _ _ _ _ _ Ha Hz Hb).
Qed.

(** [foldl Qmax] returns one of its elements, and the greatest. *)
Lemma foldl_Qmax_spec (z : Q) (zs : list Q) :
  (forall y, y ∈ z :: zs -> y <= foldl Qmax z zs) /\ foldl Qmax z zs ∈ z :: zs.
Proof.
  revert z. induction zs as [|z' zs IH]; intros z; simpl.
  - split; [intros y Hy; apply list_elem_of_singleton in Hy; subst; lra | left].
  - destruct (IH (Qmax z z')) as [Hge Hin]. split.
    + intros y Hy. apply elem_of_cons in Hy as [->|Hy]; [|apply elem_of_cons in Hy as [->|Hy]].
      * eapply Qle_trans; [apply Q.le_max_l | apply Hge; left].
      * eapply Qle_trans; [apply Q.le_max_r | apply Hge; left].
      * apply Hge. by right.
    + apply elem_of_cons in Hin as [Hm|Hin]; [|by right; right]. rewrite Hm.
      unfold Qmax, GenericMinMax.gmax. destruct (z ?= z'); [left | right; left | left].
Qed.

Lemma max_of_Permutation (zs zs' : list Q) : zs ≡ₚ zs' -> max_of zs == max_of zs'.
Proof.
  intros Hp. destruct zs as [|z zs], zs' as [|z' zs'].
  - done.
  - by apply Permutation_nil_cons in Hp.
  - symmetry in Hp. by apply Permutation_nil_cons in Hp.
  - simpl. destruct (foldl_Qmax_spec z zs) as [H1 H2], (foldl_Qmax_spec z' zs') as [H1' H2'].
    apply Qle_antisym; [apply H1'; by rewrite <- Hp | apply H1; by rewrite Hp].
Qed.

Lemma shape_mosaic_ref (r0 : raster) (rs : list raster) :
  Forall (λ x, shape (cells x) = shape (cells r0)) rs -> shape (mosaic_ref r0 rs) = shape (cells r0).
Proof.
  intros H. unfold mosaic_ref. rewrite shape_mosaic_fold, shape_zero_nodata; [done|].
  eapply Forall_impl; [exact H|]. intros x ->. by rewrite shape_zero_nodata.
Qed.

(** The fold of the maximum of single cells. *)
Lemma foldo_max (z : Q) (zs : list Q) : foldo (λ a b, Some (Qmax a b)) z zs = Some (foldl Qmax z zs).
Proof. revert z. induction zs as [|z' zs IH]; intros z; [done|]. apply IH. Qed.

(** C7: the mosaic does not depend on the order of the list: two
    orderings of the same rasters give mosaics whose cells are equal up to
    [Qeq] (only the output's georeferencing, taken from the last raster,
    depends on the order). *)
Theorem mosaic_permutation (rs rs' : list raster) (r r' : raster) :
  rs ≡ₚ rs' -> mosaicrasters rs = inr r -> mosaicrasters rs' = inr r' -> cells r ≡ cells r'.
Proof.
  intros Hp Hr Hr'.
  destruct rs as [|r0 t]; [done|]. destruct rs' as [|r0' t']; [done|].
  destruct (mosaicrasters_ok_inv _ _ _ Hr) as (m & Hm & ->).
  destruct (mosaicrasters_ok_inv _ _ _ Hr') as (m' & Hm' & ->).
  cbn [cells saveraster]. rewrite list_equiv_Forall2.
  eapply Forall2_impl; [|intros x y Hxy; rewrite list_equiv_Forall2; exact Hxy].
  eapply (foldo_bstep_perm (bstep (λ a b, Some (Qmax a b))) (Forall2 Qeq)); [| |exact Hm|exact Hm'].
  - intros s ss u us a a' Hsu Ha Ha'.
    eapply (foldo_bstep_perm (λ a b, Some (Qmax a b)) Qeq); [|exact Hsu|exact Ha|exact Ha'].
    intros q qs w ws c c' Hq Hc Hc'. rewrite foldo_max in Hc, Hc'. injection Hc as <-. injection Hc' as <-.
    exact (max_of_Permutation (q :: qs) (w :: ws) Hq).
  - change (map zero_nodata (r0 :: t) ≡ₚ map zero_nodata (r0' :: t')). by apply Permutation_map.
Qed.

(** ** Disjoint footprints *)

(** The number of non-zero cells among [zs]. *)
Definition nonzero_count (zs : list Q) : nat := length (List.filter (λ z, negb (z =? 0)) zs).

Lemma Qmax_disjoint (a b : Q) :
  0 <= a -> 0 <= b -> a == 0 \/ b == 0 -> Qmax a b == a + b.
Proof. intros. destruct (Q.max_spec a b) as [[? ->]|[? ->]]; lra. Qed.

Lemma foldl_Qmax_disjoint (z : Q) (zs : list Q) :
  Forall (λ x, 0 <= x) (z :: zs) -> (nonzero_count (z :: zs) <= 1)%nat ->
  foldl Qmax z zs == z + foldr Qplus 0 zs.
Proof.
  revert z. induction zs as [|z1 zs IH]; intros z Hpos Hcnt; simpl; [lra|].
  inversion Hpos as [|? ? Hz Hpos']; inversion Hpos' as [|? ? Hz1 Hzs]; subst.
  unfold nonzero_count in Hcnt. simpl in Hcnt.
  assert (Hm : Qmax z z1 == z + z1).
  { apply Qmax_disjoint; [done..|]. revert Hcnt.
    destruct (qeqb_spec z 0), (qeqb_spec z1 0); simpl; intros; auto; lia. }
  rewrite IH.
  - rewrite Hm. ring.
  - constructor; [|done]. rewrite Hm. lra.
  - unfold nonzero_count. simpl. rewrite Hm. revert Hcnt.
    destruct (qeqb_spec z 0), (qeqb_spec z1 0), (qeqb_spec (z + z1) 0); simpl; intros; lia || lra.
Qed.

(** C22: where the zeroed inputs are non-negative and at most one of them
    is non-zero (disjoint land-use footprints), the mosaic's cell is the
    value of the raster that marks the cell, or 0 when none does: the sum
    of the zeroed cells. *)
Theorem mosaic_disjoint_footprints (rs : list raster) (r : raster) (i j : nat) (zs : list Q) :
  mosaicrasters rs = inr r ->
  mapM (λ x, cell (zero_nodata x) i j) rs = Some zs ->
  Forall (λ z, 0 <= z) zs -> (nonzero_count zs <= 1)%nat ->
  exists z, cell (cells r) i j = Some z /\ z == foldr Qplus 0 zs.
Proof.
  intros Hr Hzs Hpos Hcnt. destruct rs as [|r0 t]; [done|].
  destruct (mosaicrasters_ok_inv _ _ _ Hr) as (m & Hm & ->). cbn [cells saveraster].
  simpl in Hzs. destruct (cell (zero_nodata r0) i j) as [z|] eqn:Hz; simpl in Hzs; [|done].
  destruct (mapM _ t) as [zs'|] eqn:Hzs'; simpl in Hzs; [|done]. injection Hzs as <-.
  assert (Hg : mapM (λ g, cell g i j) (map zero_nodata t) = Some zs') by (rewrite mapM_map; exact Hzs').
  exists (foldl Qmax z zs'). split; [exact (cell_foldo_maximum _ _ _ _ _ _ _ Hm Hz Hg)|].
  by apply foldl_Qmax_disjoint.
Qed.

(** The land-use rasters are burnt with [NODATA 0]: a garden (15) raster
    and an industry (16) raster on one 1 x 2 grid. *)
Definition garden_raster : raster := mkRaster [[15; 0]] (Some 0) (mkGeo 0 10 0 0 0 (-10)).
Definition industry_raster : raster := mkRaster [[0; 16]] (Some 0) (mkGeo 0 10 0 0 0 (-10)).

Lemma mosaic_disjoint_footprints_witness :
  exists r, mosaicrasters [garden_raster; industry_raster] = inr r /\
    mapM (λ x, cell (zero_nodata x) 0 1) [garden_raster; industry_raster] = Some [0; 16] /\
    exists z, cell (cells r) 0 1 = Some z /\ z == foldr Qplus 0 [0; 16].
Proof.
  eexists. split; [reflexivity|]. split; [reflexivity|].
  eapply (mosaic_disjoint_footprints [garden_raster; industry_raster]);
    [reflexivity | reflexivity | repeat constructor; lra | ].
  unfold nonzero_count. simpl. lia.
Defined.

(** ** Witnesses *)

Definition gracing_raster : raster := mkRaster [[7; 0]] None (mkGeo 0 10 0 0 0 (-10)).

Lemma mosaicrasters_ref_witness :
  Forall (λ r, shape (cells r) = shape (cells garden_raster)) [industry_raster; gracing_raster] /\
  mosaicrasters [garden_raster; industry_raster; gracing_raster] =
    inr (saveraster (List.last [industry_raster; gracing_raster] garden_raster)
                    (mosaic_ref garden_raster [industry_raster; gracing_raster])).
Proof.
  assert (H : Forall (λ r, shape (cells r) = shape (cells garden_raster)) [industry_raster; gracing_raster])
    by (repeat constructor).
  split; [exact H | exact (mosaicrasters_ref _ _ H)].
Defined.

Lemma mosaic_permutation_witness :
  exists r r', mosaicrasters [garden_raster; industry_raster] = inr r /\
    mosaicrasters [industry_raster; garden_raster] = inr r' /\ cells r ≡ cells r'.
Proof.
  do 2 eexists. split; [reflexivity|]. split; [reflexivity|].
  eapply (mosaic_permutation [garden_raster; industry_raster] [industry_raster; garden_raster]);
    [apply perm_swap | reflexivity | reflexivity].
Defined.

(** The mosaic keeps any property of the valid cells that 0 has. *)
Lemma mosaicrasters_valid (rs : list raster) (r : raster) (P : Q -> Prop) :
  mosaicrasters rs = inr r -> P 0 ->
  Forall (λ ri, all_cells (λ v, is_nodata (nodata ri) v = false -> P v) (cells ri)) rs ->
  all_cells P (cells r).
Proof.
  destruct rs as [|r0 rs]; [done|]. intros (m & Hm & ->)%mosaicrasters_ok_inv H0 Hall.
  cbn [cells saveraster].
  assert (Hz : Forall (all_cells P) (zero_nodata r0 :: map zero_nodata rs)).
  { rewrite <- (map_cons zero_nodata). apply Forall_map. eapply Forall_impl; [exact Hall|].
    intros ri Hri. unfold zero_nodata. eapply all_cells_cellmap_in; [|exact Hri].
    intros v Hv. unfold zeroed. destruct (is_nodata (nodata ri) v) eqn:E; [done|by apply Hv]. }
  revert Hm Hz. generalize (zero_nodata r0) (map zero_nodata rs). intros acc gs.
  revert acc. induction gs as [|g gs IH]; intros acc; simpl; [by intros [= <-] Hacc%Forall_inv|].
  destruct (grid_maximum acc g) as [a|] eqn:Ha; simpl; [|done]. intros Hm Hacc.
  apply (IH a Hm). inversion Hacc as [|? ? Hc1 Hg]; inversion Hg as [|? ? Hc2 Hgs]; subst.
  constructor; [|done]. eapply grid_bcast_all_cells; [|exact Hc1|exact Hc2|exact Ha].
  intros x y Hx Hy. unfold Qmax, GenericMinMax.gmax. by destruct (x ?= y).
Qed.
