(* ===== verification/FillNoData.v ===== *)
(** * Filling no-data cells ([native:fillnodata])

    The script calls [native:fillnodata] with [FILL_VALUE 0] seven times
    (after the heatmap's scaling, on the land-use mosaic, on the LAI, on
    the two object-height rasters, on the rasterized FAI and land-cover
    vectors).  Each cell equal to the input band's no-data value becomes the
    fill value and the other cells are copied; the output band has no
    no-data value. *)

From S2P Require Import Prelude Raster.

Definition fill_cell (nd : option Q) (fill : Q) (v : Q) : Q :=
  if is_nodata nd v then fill else v.

Definition fillnodata (fill : Q) (r : raster) : raster :=
  mkRaster (cellmap (fill_cell (nodata r) fill) (cells r)) None (geo r).

(** After filling, the raster has no no-data value, keeps its shape
    and grid, and each cell is the fill value where the input was no-data
    and the input's value elsewhere. *)
Theorem fillnodata_spec (fill : Q) (r : raster) (i j : nat) :
  nodata (fillnodata fill r) = None /\ shape (cells (fillnodata fill r)) = shape (cells r) /\
  geo (fillnodata fill r) = geo r /\
  cell (cells (fillnodata fill r)) i j =
    (λ v, if is_nodata (nodata r) v then fill else v) <$> cell (cells r) i j.
Proof. split_and!; [done | apply shape_cellmap | done | apply cell_cellmap]. Qed.

(** Filling a second time changes nothing. *)
Lemma fillnodata_idem (fill : Q) (r : raster) :
  fillnodata fill (fillnodata fill r) = fillnodata fill r.
Proof.
  unfold fillnodata. simpl. f_equal. rewrite cellmap_compose. apply cellmap_ext. done.
Qed.

Lemma all_cells_fillnodata (P : Q -> Prop) (fill : Q) (r : raster) :
  P fill -> all_cells (λ v, is_nodata (nodata r) v = false -> P v) (cells r) ->
  all_cells P (cells (fillnodata fill r)).
Proof.
  intros Hf H. eapply all_cells_cellmap_in; [|exact H]. intros v Hv. unfold fill_cell.
  destruct (is_nodata (nodata r) v) eqn:E; [done | by apply Hv].
Qed.
