(* ===== verification/GridAligner.v ===== *)
(** * The study-area window ([projwin])

    After clipping the land cover to the study area (lines 111-114), the
    script reads the clip's geotransform and size (lines 116-121) and
    builds the window string [projwin] (line 123) that every later clip,
    rasterization and warp receives, so that all rasters land on the clip's
    extent:
    [minx = gt[0]], [maxy = gt[3]], [maxx = minx + gt[1] * RasterXSize],
    [miny = maxy + gt[5] * RasterYSize], written as
    ["minx,maxx,miny,maxy [EPSG:3006]"]. *)

From S2P Require Import Prelude Raster.
From Stdlib Require Import String.

Record window := Window {
  win_minx : Q; win_maxx : Q; win_miny : Q; win_maxy : Q;
  win_crs : string
}.

Definition projwin_of (r : raster) : window :=
  let gt := geo r in
  let minx := gt_originX gt in
  let maxy := gt_originY gt in
  let maxx := minx + gt_pixelWidth gt * inject_Z (Z.of_nat (raster_width r)) in
  let miny := maxy + gt_pixelHeight gt * inject_Z (Z.of_nat (raster_height r)) in
  Window minx maxx miny maxy "EPSG:3006".

(** The four numbers of the [PROJWIN] string, in its order. *)
Definition projwin_fields (w : window) : list Q :=
  [win_minx w; win_maxx w; win_miny w; win_maxy w].

(** The centre of the pixel in row [i], column [j]. *)
Definition pixel_center (r : raster) (i j : nat) : Q * Q :=
  let gt := geo r in
  (gt_originX gt + gt_pixelWidth gt * (inject_Z (Z.of_nat j) + (1 # 2)),
   gt_originY gt + gt_pixelHeight gt * (inject_Z (Z.of_nat i) + (1 # 2))).

(** A north-up raster: positive pixel width, negative pixel height. *)
Definition north_up (r : raster) : Prop :=
  0 < gt_pixelWidth (geo r) /\ gt_pixelHeight (geo r) < 0.

(** C26: for a north-up raster the window computed by the script contains
    the centre of every pixel of the raster: [minx < x < maxx] and
    [miny < y < maxy]. *)
Theorem projwin_contains_pixels (r : raster) (i j : nat) :
  north_up r -> (i < raster_height r)%nat -> (j < raster_width r)%nat ->
  let w := projwin_of r in
  let '(x, y) := pixel_center r i j in
  win_minx w < x < win_maxx w /\ win_miny w < y < win_maxy w.
Proof.
  intros [Hpw Hph] Hi Hj. unfold projwin_of, pixel_center. simpl.
  assert (Hj' : inject_Z (Z.of_nat j + 1) <= inject_Z (Z.of_nat (raster_width r)))
    by (rewrite <- Zle_Qle; lia).
  assert (Hi' : inject_Z (Z.of_nat i + 1) <= inject_Z (Z.of_nat (raster_height r)))
    by (rewrite <- Zle_Qle; lia).
  rewrite inject_Z_plus in Hj', Hi'. change (inject_Z 1) with 1 in Hj', Hi'.
  assert (Hj0 : inject_Z 0 <= inject_Z (Z.of_nat j)) by (rewrite <- Zle_Qle; lia).
  assert (Hi0 : inject_Z 0 <= inject_Z (Z.of_nat i)) by (rewrite <- Zle_Qle; lia).
  change (inject_Z 0) with 0 in Hj0, Hi0.
  set (pw := gt_pixelWidth (geo r)) in *. set (ph := gt_pixelHeight (geo r)) in *.
  set (J := inject_Z (Z.of_nat j)) in *. set (I := inject_Z (Z.of_nat i)) in *.
  set (W := inject_Z (Z.of_nat (raster_width r))) in *.
  set (H := inject_Z (Z.of_nat (raster_height r))) in *.
  assert (0 < pw * (J + (1 # 2))) by (apply Qmult_lt_0_compat; lra).
  assert (0 < pw * (W - (J + (1 # 2)))) by (apply Qmult_lt_0_compat; lra).
  assert (0 < - ph * (I + (1 # 2))) by (apply Qmult_lt_0_compat; lra).
  assert (0 < - ph * (H - (I + (1 # 2)))) by (apply Qmult_lt_0_compat; lra).
  split_and!; lra.
Qed.

(** A 2 x 2 clip on the SWEREF 99 TM grid with 10 m pixels. *)
Definition sample_clip : raster := mkRaster [[1; 2]; [3; 4]] None (mkGeo 650000 10 0 6640000 0 (-10)).

Lemma projwin_contains_pixels_witness :
  (north_up sample_clip /\ (1 < raster_height sample_clip)%nat /\ (0 < raster_width sample_clip)%nat) /\
  let w := projwin_of sample_clip in
  let '(x, y) := pixel_center sample_clip 1 0 in
  win_minx w < x < win_maxx w /\ win_miny w < y < win_maxy w.
Proof.
  assert (Hn : north_up sample_clip) by (split; reflexivity).
  split; [split_and!; [exact Hn | unfold raster_height, raster_width, sample_clip; simpl; lia ..]|].
  apply projwin_contains_pixels; [exact Hn | unfold raster_height, raster_width, sample_clip; simpl; lia ..].
Defined.

