(* ===== verification/Heatmap.v ===== *)
(** * The oviposition hotspot heatmap ([heatmappart] and its synthesis)

    [heatmappart(inRaster, value, tempfolder, projwin)]
    ([src/heatmappart.py]) builds the heatmap of one exposure band:
    - a raster calculator call marks the cells of the band: [A >= 6] for
      band 6, [logical_and(A < value + 1, A >= value)] for the others;
    - [native:pixelstopoints] turns every valid pixel of the mask into a
      point at the pixel's centre carrying the pixel's value ([VALUE]);
    - [native:extractbyexpression] keeps the points with [VALUE = 1];
    - [qgis:heatmapkerneldensityestimation] estimates their density
      (kernel 3, radius 400, pixel size 10, raw output, no decay);
    - the raster calculator multiplies the density by [value];
    - [native:fillnodata] sets its no-data cells to 0;
    - [gdal:warpreproject] resamples it to the window [projwin] at 10 m by
      nearest neighbour.
    The main script (lines 823-869) runs it for the bands 1 to 6 on the
    oviposition composite and averages the six heatmaps with the raster
    calculator ([(A + B + C + D + E + F) / 6]).

    The kernel density estimation and the warp are external algorithms:
    they are the two operations of the class [HeatmapServices], and the
    properties of them the synthesis relies on are the class
    [HeatmapServiceLaws]. *)

From S2P Require Import Prelude Raster RasterCalc FillNoData GridAligner.

(** ** The band mask *)

(** The formula string of lines 14-17, for an integer [value]. *)
Definition band_formula (value : Z) (v : list Q) : Q :=
  if Z.eqb value 6 then b2q (inject_Z value <=? band_A v)
  else b2q ((band_A v <? inject_Z (value + 1)) && (inject_Z value <=? band_A v)).

(** The calculator call of lines 20-40: [NO_DATA None], [RTYPE 5]. *)
Definition threshold_params (value : Z) : calc_params := CalcParams (band_formula value) None 5.

(** ** Pixels to points, and the [VALUE = 1] filter *)

Record point := Point { pt_x : Q; pt_y : Q; pt_value : Q }.

Definition pixel_point (r : raster) (i j : nat) (v : Q) : point :=
  Point (fst (pixel_center r i j)) (snd (pixel_center r i j)) v.

Fixpoint row_points (r : raster) (i j : nat) (row : list Q) : list point :=
  match row with
  | [] => []
  | v :: row' =>
      (if is_nodata (nodata r) v then [] else [pixel_point r i j v]) ++ row_points r i (S j) row'
  end.

Fixpoint grid_points (r : raster) (i : nat) (g : grid Q) : list point :=
  match g with
  | [] => []
  | row :: g' => row_points r i 0 row ++ grid_points r (S i) g'
  end.

(** [native:pixelstopoints]: one point per valid pixel, row by row. *)
Definition pixels_to_points (r : raster) : list point := grid_points r 0 (cells r).

(** [native:extractbyexpression] with ['VALUE = 1']. *)
Definition extract_value_1 (pts : list point) : list point :=
  List.filter (λ p, pt_value p =? 1) pts.

(** ** The external algorithms *)

(** The parameters of the kernel density call (lines 60-70). *)
Record kde_params := KdeParams {
  kde_decay : Q; kde_kernel : nat; kde_output_value : nat;
  kde_pixel_size : Q; kde_radius : Q
}.
Definition heatmap_kde_params : kde_params := KdeParams 0 3 0 10 400.

(** The parameters of the warp (lines 110-124): nearest neighbour
    ([RESAMPLING 0]) at a 10 m target resolution. *)
Record warp_params := WarpParams { warp_resampling : nat; warp_resolution : Q }.
Definition heatmap_warp_params : warp_params := WarpParams 0 10.

Class HeatmapServices := {
  kde : kde_params -> list point -> raster;
  warp : warp_params -> window -> raster -> raster
}.

(** ** [heatmappart] *)

(** The calculator call of lines 75-98: [A * value]. *)
Definition scale_formula (value : Z) (v : list Q) : Q := band_A v * inject_Z value.
Definition scale_params (value : Z) : calc_params := CalcParams (scale_formula value) None 5.

Section Heatmappart.
Context `{HeatmapServices}.

Definition heatmappart (inRaster : raster) (value : Z) (projwin : window) : calc_error + raster :=
    match gdal_calc (threshold_params value) [inRaster] with
    | inl e => inl e
    | inr hot =>
        let pts := extract_value_1 (pixels_to_points hot) in
        let dens := kde heatmap_kde_params pts in
        match gdal_calc (scale_params value) [dens] with
        | inl e => inl e
        | inr scaled => inr (warp heatmap_warp_params projwin (fillnodata 0 scaled))
        end
    end.

Fixpoint heatmap_bands (inRaster : raster) (projwin : window) (bands : list Z)
      : calc_error + list raster :=
    match bands with
    | [] => inr []
    | b :: bs =>
        match heatmappart inRaster b projwin with
        | inl e => inl e
        | inr h => match heatmap_bands inRaster projwin bs with
                   | inl e => inl e
                   | inr hs => inr (h :: hs)
                   end
        end
    end.

  (** Lines 823-869: the six heatmaps and their mean. *)
Definition heatmap_ovi (wmca : raster) (projwin : window) : calc_error + raster :=
    match heatmap_bands wmca projwin [1; 2; 3; 4; 5; 6]%Z with
    | inl e => inl e
    | inr hs => gdal_calc (script_calc heatmaps_mean) hs
    end.
End Heatmappart.

(** ** What the synthesis needs of the external algorithms *)

(** The kernel density estimation writes no negative density; the warp by
    nearest neighbour copies source values and fills the rest of the
    window with 0, keeps a source without no-data free of no-data, and
    writes a grid that depends on the window only. *)
Class HeatmapServiceLaws `{HeatmapServices} := {
  kde_nonneg : forall p pts,
    all_cells (λ v, is_nodata (nodata (kde p pts)) v = false -> 0 <= v) (cells (kde p pts));
  warp_values : forall p w r (P : Q -> Prop), P 0 -> all_cells P (cells r) -> all_cells P (cells (warp p w r));
  warp_nodata : forall p w r, nodata r = None -> nodata (warp p w r) = None;
  warp_dims : forall p w r r', dims (warp p w r) = dims (warp p w r')
}.

(** ** The band masks partition the values *)

Lemma band_formula_01 (b : Z) (v : Q) : band_formula b [v] = 0 \/ band_formula b [v] = 1.
Proof.
  unfold band_formula, band_A, b2q. simpl nth.
  destruct (Z.eqb b 6); [destruct (_ <=? v) | destruct (_ && _)]; auto.
Qed.

(** The mask of band [b] is 1 exactly on the values of the band:
    [[b, b + 1)] for the bands 1 to 5, and the open-ended [[6, ∞)] for
    band 6; it is 0 elsewhere. *)
Theorem band_formula_selects (b : Z) (v : Q) :
  (band_formula b [v] = 1 <-> inject_Z b <= v /\ (b = 6%Z \/ v < inject_Z (b + 1))) /\
  (band_formula b [v] = 0 \/ band_formula b [v] = 1).
Proof.
  unfold band_formula, band_A, b2q. simpl nth.
  destruct (Z.eqb_spec b 6) as [->|Hb]; qcmp;
    intuition (try discriminate; try lra; try done; try (right; lra)).
Qed.

(** C18: on every value the six band masks add up to 1 when the value is at
    least 1 and to 0 below: bands 1 to 5 partition [[1, 6)], band 6 covers
    [[6, ∞)], and no value is in two bands. *)
Theorem band_partition (v : Q) :
  foldr Qplus 0 (map (λ b, band_formula b [v]) [1; 2; 3; 4; 5; 6]%Z) == b2q (1 <=? v).
Proof.
  unfold band_formula, band_A.
  cbn [map foldr nth Z.eqb Pos.eqb]. rewrite !inject_Z_plus. unfold inject_Z.
  destruct (Qlt_le_dec v 1); [|destruct (Qlt_le_dec v 2); [|destruct (Qlt_le_dec v 3);
    [|destruct (Qlt_le_dec v 4); [|destruct (Qlt_le_dec v 5); [|destruct (Qlt_le_dec v 6)]]]]];
    qdecide; cbn [b2q andb]; reflexivity.
Qed.

(** ** The hotspot points *)

Lemma row_points_elem (r : raster) (i j : nat) (row : list Q) (p : point) :
  p ∈ row_points r i j row <->
  exists k v, row !! k = Some v /\ is_nodata (nodata r) v = false /\ p = pixel_point r i (j + k) v.
Proof.
  revert j. induction row as [|v row IH]; intros j; simpl.
  - split; [by intros ?%elem_of_nil | by intros (? & ? & ? & _)].
  - rewrite elem_of_app, IH. split.
    + intros [Hp|(k & w & Hk & Hw & ->)].
      * destruct (is_nodata (nodata r) v) eqn:E; [by apply elem_of_nil in Hp|].
        apply list_elem_of_singleton in Hp as ->. exists 0%nat, v. by rewrite Nat.add_0_r.
      * exists (S k), w. by rewrite Nat.add_succ_r.
    + intros ([|k] & w & Hk & Hw & ->); simpl in Hk.
      * injection Hk as <-. left. rewrite Hw, Nat.add_0_r. by left.
      * right. exists k, w. by rewrite Nat.add_succ_r.
Qed.

Lemma grid_points_elem (r : raster) (i : nat) (g : grid Q) (p : point) :
  p ∈ grid_points r i g <->
  exists k j v, cell g k j = Some v /\ is_nodata (nodata r) v = false /\ p = pixel_point r (i + k) j v.
Proof.
  revert i. induction g as [|row g IH]; intros i; simpl.
  - split; [by intros ?%elem_of_nil | by intros (? & ? & ? & ? & _)].
  - rewrite elem_of_app, IH, row_points_elem. unfold cell. split.
    + intros [(j & v & Hj & Hv & ->)|(k & j & v & Hc & Hv & ->)].
      * exists 0%nat, j, v. simpl. by rewrite Nat.add_0_r.
      * exists (S k), j, v. by rewrite Nat.add_succ_r.
    + intros ([|k] & j & v & Hc & Hv & ->); simpl in Hc.
      * left. exists j, v. by rewrite Nat.add_0_r.
      * right. exists k, j, v. by rewrite Nat.add_succ_r.
Qed.

Lemma pixels_to_points_elem (r : raster) (p : point) :
  p ∈ pixels_to_points r <->
  exists i j v, cell (cells r) i j = Some v /\ is_nodata (nodata r) v = false /\ p = pixel_point r i j v.
Proof. apply grid_points_elem. Qed.

Lemma threshold_cell (b : Z) (r hot : raster) (i j : nat) :
  gdal_calc (threshold_params b) [r] = inr hot ->
  geo hot = geo r /\ nodata hot = Some (default_nodata RFloat32) /\
  cell (cells hot) i j =
    (λ v, if is_nodata (nodata r) v then default_nodata RFloat32 else band_formula b [v]) <$>
      cell (cells r) i j.
Proof.
  intros Hc. destruct (gdal_calc_inv _ _ _ Hc) as (r0 & rs' & t & [= <- <-] & Ht & _ & ->).
  injection Ht as <-. split_and!; [done..|]. simpl. rewrite cell_cellmap, cell_cellmap.
  destruct (cell (cells r) i j); simpl; [|done]. unfold calc_cell. simpl. by rewrite orb_false_r.
Qed.

Lemma band_formula_not_float32_nodata (b : Z) (v : Q) :
  is_nodata (Some (default_nodata RFloat32)) (band_formula b [v]) = false.
Proof.
  destruct (band_formula_01 b v) as [->| ->]; reflexivity.
Qed.

(** C20: the threshold, pixels-to-points and [VALUE = 1] steps select
    exactly the centres of the valid cells of the input whose value lies
    in the band; cells that are no-data in the input produce no point. *)
Theorem hotspot_points (r hot : raster) (b : Z) (p : point) :
  gdal_calc (threshold_params b) [r] = inr hot ->
  p ∈ extract_value_1 (pixels_to_points hot) <->
  exists i j v, cell (cells r) i j = Some v /\ is_nodata (nodata r) v = false /\
    band_formula b [v] = 1 /\ p = pixel_point r i j 1.
Proof.
  intros Hc. unfold extract_value_1. rewrite list_elem_of_In, filter_In, <- list_elem_of_In.
  rewrite pixels_to_points_elem. split.
  - intros [(i & j & w & Hw & Hnd & ->) Hv].
    destruct (threshold_cell b r hot i j Hc) as (Hgeo & Hnd' & Hcell).
    rewrite Hw in Hcell. destruct (cell (cells r) i j) as [v|] eqn:Ev; [|done].
    simpl in Hcell. injection Hcell as Hcell. rewrite Hnd' in Hnd.
    destruct (is_nodata (nodata r) v) eqn:Evn.
    + subst w. by rewrite is_nodata_refl in Hnd.
    + subst w. simpl in Hv. destruct (band_formula_01 b v) as [H0|H1].
      * by rewrite H0 in Hv.
      * exists i, j, v. split_and!; [done..|]. unfold pixel_point, pixel_center. by rewrite Hgeo, H1.
  - intros (i & j & v & Hv & Hnd & Hb & ->).
    destruct (threshold_cell b r hot i j Hc) as (Hgeo & Hnd' & Hcell).
    rewrite Hv in Hcell. simpl in Hcell. rewrite Hnd in Hcell. split.
    + exists i, j, 1. split_and!; [by rewrite Hcell, Hb | by rewrite Hnd'; reflexivity |].
      unfold pixel_point, pixel_center. by rewrite Hgeo.
    + reflexivity.
Qed.

(** A 2 x 2 oviposition composite whose cells are all 2. *)
Definition wmca_all_2 : raster := mkRaster [[2; 2]; [2; 2]] None (mkGeo 650000 10 0 6640000 0 (-10)).

Lemma hotspot_points_witness :
  exists hot, gdal_calc (threshold_params 2) [wmca_all_2] = inr hot /\
    (pixel_point wmca_all_2 1 0 1 ∈ extract_value_1 (pixels_to_points hot) <->
     exists i j v, cell (cells wmca_all_2) i j = Some v /\ is_nodata (nodata wmca_all_2) v = false /\
       band_formula 2 [v] = 1 /\ pixel_point wmca_all_2 1 0 1 = pixel_point wmca_all_2 i j 1).
Proof.
  eexists. split; [reflexivity|]. exact (hotspot_points wmca_all_2 _ 2 _ eq_refl).
Defined.

(** ** The synthesized heatmap *)

Lemma heatmaps_mean_nonneg (vs : list Q) : Forall (λ v, 0 <= v) vs -> 0 <= heatmaps_mean vs.
Proof.
  intros Hvs. assert (Hn : forall k, 0 <= nth k vs 0).
  { intros k. destruct (nth_in_or_default k vs 0) as [Hin| ->]; [|apply Qle_refl].
    rewrite Forall_forall in Hvs. apply Hvs. by apply list_elem_of_In. }
  unfold heatmaps_mean, band_A, band_B, band_C, band_D, band_E, band_F.
  apply Qle_shift_div_l; [reflexivity|]. pose proof (Hn 0%nat). pose proof (Hn 1%nat).
  pose proof (Hn 2%nat). pose proof (Hn 3%nat). pose proof (Hn 4%nat). pose proof (Hn 5%nat). lra.
Qed.

Section Synthesis.
Context `{HeatmapServiceLaws}.

(** One band's heatmap exists, has no no-data value, no negative cell, and
    the warp's grid. *)
Lemma heatmappart_ok (inRaster : raster) (value : Z) (w : window) :
  (0 <= value)%Z ->
  exists h, heatmappart inRaster value w = inr h /\ nodata h = None /\
    all_cells (λ v, 0 <= v) (cells h) /\ dims h = dims (warp heatmap_warp_params w inRaster).
Proof.
  intros Hv. unfold heatmappart. rewrite (gdal_calc_single _ _ RFloat32) by reflexivity. cbv zeta.
  set (dens := kde heatmap_kde_params _).
  destruct (gdal_calc_ok (scale_params value) dens [] RFloat32) as [scaled Hs]; [done|by repeat constructor|].
  rewrite Hs. eexists. split_and!; [reflexivity | by apply warp_nodata | | apply warp_dims].
  apply warp_values; [apply Qle_refl|]. apply all_cells_fillnodata; [apply Qle_refl|].
  apply all_cells_lookup. intros i j z Hz Hnd.
  destruct (gdal_calc_cell_some _ _ _ i j z Hs Hz) as (t & vs & [= <-] & Hvs & ->).
  apply Forall2_cons_inv_l in Hvs as (d & ? & Hd & ->%Forall2_nil_inv_l & ->).
  destruct (gdal_calc_inv _ _ _ Hs) as (? & ? & ? & _ & [= <-] & _ & Hr). rewrite Hr in Hnd.
  cbn [nodata] in Hnd. unfold calc_cell in *. cbn [map zip_with existsb] in *.
  destruct (is_nodata (nodata dens) d) eqn:Ed; cbn [orb] in Hnd |- *; [by rewrite is_nodata_refl in Hnd|].
  assert (Hk : all_cells (λ v, is_nodata (nodata dens) v = false -> 0 <= v) (cells dens))
    by apply kde_nonneg.
  rewrite all_cells_lookup in Hk. specialize (Hk i j d Hd Ed).
  unfold scale_formula, band_A. cbn [cp_formula scale_params nth].
  apply Qmult_le_0_compat; [done|]. change 0 with (inject_Z 0). by rewrite <- Zle_Qle.
Qed.

Lemma heatmap_bands_ok (r : raster) (w : window) (bs : list Z) :
  Forall (λ b, 0 <= b)%Z bs ->
  exists hs, heatmap_bands r w bs = inr hs /\ length hs = length bs /\
    Forall (λ h, nodata h = None /\ all_cells (λ v, 0 <= v) (cells h) /\
                 dims h = dims (warp heatmap_warp_params w r)) hs.
Proof.
  induction 1 as [|b bs Hb _ (hs & Hhs & Hlen & Hall)]; [by exists []|].
  destruct (heatmappart_ok r b w Hb) as (h & Hh & Hprops). exists (h :: hs). simpl.
  rewrite Hh, Hhs. split_and!; [done | by f_equal | by constructor].
Qed.

End Synthesis.

(** A one-pixel stand-in for the two services: the density is the number
    of points, the warp keeps the first pixel. *)
#[local] Instance point_count_services : HeatmapServices := {
  kde p pts := mkRaster [[inject_Z (Z.of_nat (length pts))]] None (mkGeo 650000 10 0 6640000 0 (-10));
  warp p w r := mkRaster [[default 0 (cell (cells r) 0 0)]] None (mkGeo 650000 10 0 6640000 0 (-10))
}.

#[local] Instance point_count_laws : HeatmapServiceLaws.
Proof.
  split.
  - intros p pts. repeat constructor. intros _. change 0 with (inject_Z 0). rewrite <- Zle_Qle. lia.
  - intros p w r P H0 Hr. repeat constructor. cbn [default].
    destruct (cell (cells r) 0 0) eqn:E; [|done]. rewrite all_cells_lookup in Hr. by apply (Hr 0%nat 0%nat).
  - done.
  - done.
Qed.

