(* ===== verification/IUHD.v ===== *)
(** * The IUHD model (lines 200-411)

    The intra-urban heat difference (IUHD) is computed on a 100 m grid of
    polygons.  The script first builds three rasters with numpy (lines
    200-214): the building heights [DSM - (DEM - demOffset)] with heights
    below 0.5 set to 0, and the boolean rasters [buildraster > 0] and
    [cdsmraster > 0].  Then zonal statistics on the grid add the sum of the
    wall heights and the sums and counts of the two boolean rasters, and
    ten [native:fieldcalculator] calls each add one field computed by a
    QGIS expression from the fields before it, writing a new shapefile
    whose numeric fields have 3 decimals.

    The expressions are modelled as a small syntax [expr] with the QGIS
    evaluation rules the formulas use: NULL propagates through arithmetic
    and comparisons, division by zero and [ln] of a non-positive number
    give NULL, [CASE WHEN] takes the [ELSE] branch on a false or NULL
    condition, and a reference to a missing field is an evaluation error.
    [ln] itself is a parameter (the rationals have no logarithm); the
    theorems assume only that it is monotone on the positive numbers.  The
    zonal statistics are an external algorithm: a class of services. *)

From stdpp Require Import strings gmap.
From Stdlib Require Import Qround.
From S2P Require Import Prelude Raster Reclassify RasterCalc Mosaic GridAligner Heatmap.

(** ** The building and vegetation rasters (lines 200-214) *)

(** numpy's element-wise operation on two arrays, with broadcasting: a
    [ValueError] ([None]) when the shapes do not broadcast together. *)
Definition np_binop (f : Q -> Q -> Q) (g1 g2 : grid Q) : option (grid Q) := grid_bcast f g1 g2.

(** Line 90. *)
Definition demOffset : Q := 0.0.

(** Lines 207-208: [buildraster = dsmraster - (demraster - demOffset)] and
    [buildraster[buildraster < 0.5] = 0]. *)
Definition build_heights (dem dsm : grid Q) (offset : Q) : option (grid Q) :=
  h ← np_binop (λ s d, s - (d - offset)) dsm dem;
  Some (cellmap (λ x, if x <? 0.5 then 0 else x) h).

(** The array [a > 0], saved as 1 and 0. *)
Definition np_gt0 (g : grid Q) : grid Q := cellmap (λ x, b2q (0 <? x)) g.

(** Lines 201-213: the building heights and the building raster on the
    DSM's grid, the vegetation raster on the CDSM's grid. *)
Definition building_veg_rasters (dem dsm cdsm : raster) : option (raster * raster * raster) :=
  b ← build_heights (cells dem) (cells dsm) demOffset;
  Some (saveraster dsm b, saveraster dsm (np_gt0 b), saveraster cdsm (np_gt0 (cells cdsm))).

(** ** QGIS expressions *)

Inductive expr :=
  | ENum (q : Q)
  | EField (name : string)
  | EAdd (e1 e2 : expr)
  | ESub (e1 e2 : expr)
  | EMul (e1 e2 : expr)
  | EDiv (e1 e2 : expr)
  | ELn (e : expr)
  | EGt (e1 e2 : expr)
  | ELt (e1 e2 : expr)
  | EIsNull (e : expr)
  | ECase (c e1 e2 : expr).

Inductive eval_error := UnknownField (name : string).

(** A feature's attributes; [None] is NULL. *)
Abbreviation attrs := (gmap string (option Q)).

Definition null_lift2 (f : Q -> Q -> option Q) (v1 v2 : option Q) : option Q :=
  match v1, v2 with Some x, Some y => f x y | _, _ => None end.

Definition qgis_div (x y : Q) : option Q := if y =? 0 then None else Some (x / y).

Definition qgis_ln (ln : Q -> Q) (v : option Q) : option Q :=
  match v with Some x => if 0 <? x then Some (ln x) else None | None => None end.

(** A condition holds when it is neither NULL nor 0. *)
Definition truthy (v : option Q) : bool :=
  match v with Some x => negb (x =? 0) | None => false end.

Fixpoint eval (ln : Q -> Q) (a : attrs) (e : expr) : eval_error + option Q :=
  match e with
  | ENum q => inr (Some q)
  | EField n => match a !! n with Some v => inr v | None => inl (UnknownField n) end
  | EAdd e1 e2 => v1 ← eval ln a e1; v2 ← eval ln a e2; inr (null_lift2 (λ x y, Some (x + y)) v1 v2)
  | ESub e1 e2 => v1 ← eval ln a e1; v2 ← eval ln a e2; inr (null_lift2 (λ x y, Some (x - y)) v1 v2)
  | EMul e1 e2 => v1 ← eval ln a e1; v2 ← eval ln a e2; inr (null_lift2 (λ x y, Some (x * y)) v1 v2)
  | EDiv e1 e2 => v1 ← eval ln a e1; v2 ← eval ln a e2; inr (null_lift2 qgis_div v1 v2)
  | ELn e1 => v ← eval ln a e1; inr (qgis_ln ln v)
  | EGt e1 e2 => v1 ← eval ln a e1; v2 ← eval ln a e2; inr (null_lift2 (λ x y, Some (b2q (y <? x))) v1 v2)
  | ELt e1 e2 => v1 ← eval ln a e1; v2 ← eval ln a e2; inr (null_lift2 (λ x y, Some (b2q (x <? y))) v1 v2)
  | EIsNull e1 => v ← eval ln a e1; inr (Some (b2q (bool_decide (v = None))))
  | ECase c e1 e2 => vc ← eval ln a c; if truthy vc then eval ln a e1 else eval ln a e2
  end.

(** A numeric field of precision 3 as the shapefile stores it: rounded to
    the nearest multiple of 0.001. *)
Definition round3 (x : Q) : Q := inject_Z (Qfloor (x * 1000 + (1 # 2))) / 1000.

(** ** Features, zonal statistics and the field calculator *)

(** A polygon of the 100 m grid ([native:creategrid], [TYPE 2]) is a
    rectangle: a window. *)
Record feature := Feature { f_geom : window; f_attrs : attrs }.

Inductive zstat := ZCount | ZSum.

(** The column suffixes of [native:zonalstatistics] ([STATISTICS] 0 and 1). *)
Definition zstat_name (s : zstat) : string :=
  match s with ZCount => "count" | ZSum => "sum" end.

(** The zonal statistics algorithm aggregates the raster's pixels over a
    polygon; the aggregation is the service, the columns it adds are
    [COLUMN_PREFIX] followed by the statistic's name. *)
Class ZonalStatistics := { zonal_stat : zstat -> raster -> window -> option Q }.

Definition zonal_feature `{ZonalStatistics} (prefix : string) (stats : list zstat) (r : raster)
    (f : feature) : feature :=
  Feature (f_geom f)
    (foldr (λ s a, <[prefix +:+ zstat_name s := zonal_stat s r (f_geom f)]> a) (f_attrs f) stats).

(** Lines 253-260, 278-285, 326-333: the columns are added to every
    feature of the layer. *)
Definition zonal_statistics `{ZonalStatistics} (prefix : string) (stats : list zstat)
    (r : raster) (layer : list feature) : list feature :=
  map (zonal_feature prefix stats r) layer.

Record field_calc := FieldCalc { fc_name : string; fc_formula : expr }.

(** [native:fieldcalculator] with [FIELD_TYPE 0], [FIELD_PRECISION 3] on one
    feature: the new field holds the formula's value, rounded. *)
Definition fc_feature (ln : Q -> Q) (p : field_calc) (f : feature) : eval_error + feature :=
  v ← eval ln (f_attrs f) (fc_formula p);
  inr (Feature (f_geom f) (<[fc_name p := option_map round3 v]> (f_attrs f))).

(** On a layer: every feature gets the field; an evaluation error stops
    the algorithm. *)
Definition field_calculator (ln : Q -> Q) (p : field_calc) (layer : list feature)
    : eval_error + list feature :=
  mapM (fc_feature ln p) layer.

(** ** The ten field calculators of the IUHD model *)

(** Lines 264-274, with [cellsize = geotransform[1]] of the DSM (line 205). *)
Definition wai (cellsize : Q) : field_calc :=
  FieldCalc "wai" (EDiv (EMul (EField "_wasum") (ENum cellsize)) (EField "area")).
(** Lines 289-298. *)
Definition pai : field_calc := FieldCalc "pai" (EDiv (EField "_paisum") (EField "_paicount")).
(** Lines 301-310. *)
Definition HW : field_calc :=
  FieldCalc "HW" (EDiv (EMul (EField "wai") (EField "pai"))
                       (EMul (EMul (ENum 2) (EField "pai")) (ESub (ENum 1) (EField "pai")))).
(** Lines 313-322. *)
Definition HWDecr : field_calc :=
  FieldCalc "HWDecr" (ECase (EGt (EField "HW") (ENum 3)) (ENum 3) (EField "HW")).
(** Lines 337-346. *)
Definition paiveg : field_calc :=
  FieldCalc "paiveg" (EDiv (EField "_paivsum") (EField "_paivcount")).
(** Lines 350-359. *)
Definition VegCooling : field_calc :=
  FieldCalc "VegCooling" (EMul (EDiv (EField "paiveg") (ENum 0.1)) (ENum 0.3)).
(** Lines 363-372. *)
Definition UHIMaxHW : field_calc :=
  FieldCalc "UHIMaxHW" (EAdd (ENum 7.54) (EMul (ENum 3.97) (ELn (EField "HWDecr")))).
(** Lines 376-385. *)
Definition UHIMaxHWNN : field_calc :=
  FieldCalc "UHIMaxHWNN" (ECase (EIsNull (EField "UHIMaxHW")) (ENum 0) (EField "UHIMaxHW")).
(** Lines 389-398. *)
Definition UHIMaxNoNe : field_calc :=
  FieldCalc "UHIMaxNoNe" (ECase (ELt (EField "UHIMaxHWNN") (ENum 0)) (ENum 0) (EField "UHIMaxHWNN")).
(** Lines 402-411. *)
Definition IUHD : field_calc :=
  FieldCalc "IUHD" (ESub (EField "UHIMaxNoNe") (EField "VegCooling")).

(** ** The chain (lines 252-411) *)

Section Chain.
Context `{ZonalStatistics} (ln : Q -> Q).

(** From the grid with its [area] column to the layer with the [IUHD]
    field, in the script's order: each stage consumes the layer the one
    before it wrote. *)
Definition iuhd_chain (cellsize : Q) (wallheight buildbool vegbool : raster)
    (grid : list feature) : eval_error + list feature :=
  let l1 := zonal_statistics "_wa" [ZSum] wallheight grid in
  l2 ← field_calculator ln (wai cellsize) l1;
  let l3 := zonal_statistics "_pai" [ZCount; ZSum] buildbool l2 in
  l4 ← field_calculator ln pai l3;
  l5 ← field_calculator ln HW l4;
  l6 ← field_calculator ln HWDecr l5;
  let l7 := zonal_statistics "_paiv" [ZCount; ZSum] vegbool l6 in
  l8 ← field_calculator ln paiveg l7;
  l9 ← field_calculator ln VegCooling l8;
  l10 ← field_calculator ln UHIMaxHW l9;
  l11 ← field_calculator ln UHIMaxHWNN l10;
  l12 ← field_calculator ln UHIMaxNoNe l11;
  field_calculator ln IUHD l12.

(** The same stages on one feature. *)
Definition iuhd_feature (cellsize : Q) (wallheight buildbool vegbool : raster) (f : feature)
    : eval_error + feature :=
  f2 ← fc_feature ln (wai cellsize) (zonal_feature "_wa" [ZSum] wallheight f);
  f4 ← fc_feature ln pai (zonal_feature "_pai" [ZCount; ZSum] buildbool f2);
  f5 ← fc_feature ln HW f4;
  f6 ← fc_feature ln HWDecr f5;
  f8 ← fc_feature ln paiveg (zonal_feature "_paiv" [ZCount; ZSum] vegbool f6);
  f9 ← fc_feature ln VegCooling f8;
  f10 ← fc_feature ln UHIMaxHW f9;
  f11 ← fc_feature ln UHIMaxHWNN f10;
  f12 ← fc_feature ln UHIMaxNoNe f11;
  fc_feature ln IUHD f12.
End Chain.

(** The fields an expression reads. *)
Fixpoint fields_of (e : expr) : list string :=
  match e with
  | ENum _ => []
  | EField n => [n]
  | EAdd e1 e2 | ESub e1 e2 | EMul e1 e2 | EDiv e1 e2 | EGt e1 e2 | ELt e1 e2 =>
      fields_of e1 ++ fields_of e2
  | ELn e1 | EIsNull e1 => fields_of e1
  | ECase c e1 e2 => fields_of c ++ fields_of e1 ++ fields_of e2
  end.

(** The largest warming the chain can store: [HWDecr] is at most 3. *)
Definition uhi_max (ln : Q -> Q) : Q := round3 (7.54 + 3.97 * ln 3).

(** ** The layer and the feature views of the chain *)

Section ChainFacts.
Context `{ZonalStatistics} (ln : Q -> Q).

Lemma iuhd_chain_mapM (cellsize : Q) (w b v : raster) (grid l' : list feature) :
  iuhd_chain ln cellsize w b v grid = inr l' <-> mapM (iuhd_feature ln cellsize w b v) grid = inr l'.
Proof.
  unfold iuhd_chain, field_calculator, zonal_statistics.
  rewrite mapM_sum_map, mapM_sum_cont_map, !mapM_sum_cont, mapM_sum_cont_map, !mapM_sum_cont.
  rewrite mapM_sum_last. erewrite mapM_sum_ext; [reflexivity|]. intros f.
  unfold iuhd_feature. cbn [compose]. rewrite !sum_bind_assoc. reflexivity.
Qed.

Lemma fc_feature_geom (p : field_calc) (f f' : feature) : fc_feature ln p f = inr f' -> f_geom f' = f_geom f.
Proof. unfold fc_feature. intros (v & _ & [= <-])%sum_bind_inr. done. Qed.

(** The stages add fields: every feature keeps its polygon. *)
Lemma iuhd_feature_geom (cellsize : Q) (w b v : raster) (f f' : feature) :
  iuhd_feature ln cellsize w b v f = inr f' -> f_geom f' = f_geom f.
Proof.
  unfold iuhd_feature. intros Hf.
  repeat match goal with
  | H : mbind _ _ = inr _ |- _ => apply sum_bind_inr in H as (? & ?%fc_feature_geom & H)
  end.
  apply fc_feature_geom in Hf. cbn [zonal_feature f_geom] in *. congruence.
Qed.

Lemma iuhd_chain_geom (cellsize : Q) (w b v : raster) (grid out : list feature) :
  iuhd_chain ln cellsize w b v grid = inr out -> Forall2 (λ g f, f_geom f = f_geom g) grid out.
Proof.
  intros Hc%iuhd_chain_mapM%mapM_sum_inr. eapply Forall2_impl; [exact Hc|]. apply iuhd_feature_geom.
Qed.
End ChainFacts.

(** ** Rounding to 3 decimals *)

Lemma Qfloor_unique (z : Z) (x : Q) : inject_Z z <= x < inject_Z z + 1 -> Qfloor x = z.
Proof.
  intros [H1 H2]. pose proof (Qfloor_le x). pose proof (Qlt_floor x).
  rewrite inject_Z_plus in *. change (inject_Z 1) with 1 in *.
  assert (inject_Z (Qfloor x) < inject_Z (z + 1)) by (rewrite inject_Z_plus; change (inject_Z 1) with 1; lra).
  assert (inject_Z z < inject_Z (Qfloor x + 1)) by (rewrite inject_Z_plus; change (inject_Z 1) with 1; lra).
  rewrite <- Zlt_Qlt in *. lia.
Qed.

#[export] Instance round3_proper : Proper ((≡) ==> (≡)) round3.
Proof. intros x y Hxy. unfold round3. unfold base.equiv, Q_equiv in *. by rewrite Hxy. Qed.

Lemma round3_mono (x y : Q) : x <= y -> round3 x <= round3 y.
Proof.
  intros H. unfold round3, Qdiv. apply Qmult_le_compat_r; [|discriminate].
  rewrite <- Zle_Qle. apply Qfloor_resp_le. lra.
Qed.

Lemma round3_thousandths (k : Z) : round3 (inject_Z k / 1000) == inject_Z k / 1000.
Proof.
  unfold round3. rewrite (Qfloor_unique k); [reflexivity|].
  assert (E : inject_Z k / 1000 * 1000 == inject_Z k) by field. rewrite E. lra.
Qed.

Lemma round3_idem (x : Q) : round3 (round3 x) == round3 x.
Proof. apply round3_thousandths. Qed.

Lemma round3_Z (z : Z) : round3 (inject_Z z) == inject_Z z.
Proof.
  assert (E : inject_Z z == inject_Z (z * 1000) / 1000) by (rewrite inject_Z_mult; field).
  rewrite E. apply round3_thousandths.
Qed.

(** ** Evaluation *)

Lemma truthy_b2q (c : bool) : truthy (Some (b2q c)) = c.
Proof. by destruct c. Qed.

(** An expression whose fields are all present evaluates without error. *)
Lemma eval_total (ln : Q -> Q) (a : attrs) (e : expr) :
  Forall (λ k, is_Some (a !! k)) (fields_of e) -> exists v, eval ln a e = inr v.
Proof.
  induction e; cbn [fields_of eval]; rewrite ?Forall_app;
    try (intros [[v1 ->]%IHe1 [v2 ->]%IHe2]; by eexists); try (intros [v ->]%IHe; by eexists).
  - by eexists.
  - intros [[v Hv] _]%Forall_cons. rewrite Hv. by eexists.
  - intros ([vc ->]%IHe1 & [v1 Hv1]%IHe2 & [v2 Hv2]%IHe3). cbn [mbind sum_mbind].
    destruct (truthy vc); eauto.
Qed.

Lemma fc_feature_inr (ln : Q -> Q) (p : field_calc) (f : feature) (v : option Q) :
  eval ln (f_attrs f) (fc_formula p) = inr v ->
  fc_feature ln p f = inr (Feature (f_geom f) (<[fc_name p := option_map round3 v]> (f_attrs f))).
Proof. unfold fc_feature. intros ->. done. Qed.

(** ** The clamps of the chain *)

Section Clamps.
Context (ln : Q -> Q).
Hypothesis ln_mono : forall x y, 0 < x -> x <= y -> ln x <= ln y.
Hypothesis ln_1 : ln 1 == 0.

Lemma round3_0 : round3 0 == 0.
Proof. apply (round3_Z 0). Qed.

Lemma round3_3 : round3 3 == 3.
Proof. apply (round3_Z 3). Qed.

Lemma uhi_max_nonneg : 0 <= uhi_max ln.
Proof.
  unfold uhi_max. rewrite <- round3_0. apply round3_mono.
  pose proof (ln_mono 1 3 ltac:(lra) ltac:(lra)). lra.
Qed.

Lemma eval_HWDecr (a : attrs) (hw : option Q) :
  a !! "HW" = Some hw ->
  exists v, eval ln a (fc_formula HWDecr) = inr v /\
    forall h, option_map round3 v = Some h -> h <= 3.
Proof.
  intros Ha. cbn [eval fc_formula HWDecr]. rewrite Ha. cbn [mbind sum_mbind].
  destruct hw as [x|]; cbn [null_lift2]; [rewrite truthy_b2q|by exists None].
  destruct (qltb_spec 3 x); eexists; (split; [reflexivity|]); intros h [= <-].
  - rewrite round3_3. lra.
  - rewrite <- round3_3. by apply round3_mono.
Qed.

Lemma eval_UHIMaxHW (a : attrs) (hd : option Q) :
  a !! "HWDecr" = Some hd -> (forall h, hd = Some h -> h <= 3) ->
  exists v, eval ln a (fc_formula UHIMaxHW) = inr v /\
    forall u, option_map round3 v = Some u -> u <= uhi_max ln.
Proof.
  intros Ha Hhd. cbn [eval fc_formula UHIMaxHW]. rewrite Ha. cbn [mbind sum_mbind].
  eexists. split; [reflexivity|]. intros u Hu.
  destruct hd as [h|]; [|done]. cbn [qgis_ln] in Hu. destruct (qltb_spec 0 h); [|done].
  injection Hu as <-. apply round3_mono. specialize (ln_mono h 3 ltac:(done) (Hhd h eq_refl)). lra.
Qed.

Lemma eval_UHIMaxHWNN (a : attrs) (uh : option Q) :
  a !! "UHIMaxHW" = Some uh -> (forall u, uh = Some u -> u <= uhi_max ln) ->
  exists n, eval ln a (fc_formula UHIMaxHWNN) = inr (Some n) /\ round3 n <= uhi_max ln.
Proof.
  intros Ha Huh. cbn [eval fc_formula UHIMaxHWNN]. rewrite Ha. cbn [mbind sum_mbind].
  rewrite truthy_b2q. destruct uh as [u|]; simpl.
  - exists u. split; [done|]. unfold uhi_max in *. rewrite <- (round3_idem (7.54 + 3.97 * ln 3)).
    apply round3_mono. by apply Huh.
  - exists 0. split; [done|]. rewrite round3_0. apply uhi_max_nonneg.
Qed.

Lemma eval_UHIMaxNoNe (a : attrs) (n : Q) :
  a !! "UHIMaxHWNN" = Some (Some n) -> n <= uhi_max ln ->
  exists x, eval ln a (fc_formula UHIMaxNoNe) = inr (Some x) /\ 0 <= round3 x <= uhi_max ln.
Proof.
  intros Ha Hn. cbn [eval fc_formula UHIMaxNoNe]. rewrite Ha. cbn [mbind sum_mbind null_lift2].
  rewrite truthy_b2q. pose proof uhi_max_nonneg. destruct (qltb_spec n 0).
  - exists 0. split; [done|]. rewrite round3_0. lra.
  - exists n. split; [done|]. split.
    + rewrite <- round3_0. by apply round3_mono.
    + unfold uhi_max in *. rewrite <- (round3_idem (7.54 + 3.97 * ln 3)). by apply round3_mono.
Qed.

Lemma eval_paiveg (a : attrs) (s c : option Q) :
  a !! "_paivsum" = Some s -> a !! "_paivcount" = Some c ->
  (forall s' c', s = Some s' -> c = Some c' -> 0 <= s' <= c') ->
  exists v, eval ln a (fc_formula paiveg) = inr v /\
    forall p, option_map round3 v = Some p -> 0 <= p <= 1.
Proof.
  intros Hs Hc Hsc. cbn [eval fc_formula paiveg]. rewrite Hs, Hc. cbn [mbind sum_mbind].
  eexists. split; [reflexivity|]. intros p Hp.
  destruct s as [s'|], c as [c'|]; try done. cbn [null_lift2] in Hp. unfold qgis_div in Hp.
  revert Hp. destruct (qeqb_spec c' 0); [done|]. intros [= <-].
  destruct (Hsc s' c' eq_refl eq_refl) as [H0 H1]. assert (0 < c') by lra.
  rewrite <- round3_0, <- (round3_Z 1). change (inject_Z 1) with 1.
  split; apply round3_mono.
  - apply Qle_shift_div_l; lra.
  - apply Qle_shift_div_r; lra.
Qed.

Lemma eval_VegCooling (a : attrs) (pv : option Q) :
  a !! "paiveg" = Some pv -> (forall p, pv = Some p -> 0 <= p <= 1) ->
  exists v, eval ln a (fc_formula VegCooling) = inr v /\
    forall c, option_map round3 v = Some c -> 0 <= c <= 3.
Proof.
  intros Ha Hpv. cbn [eval fc_formula VegCooling]. rewrite Ha. cbn [mbind sum_mbind].
  eexists. split; [reflexivity|]. intros c Hc. destruct pv as [p|]; [|done].
  cbn [null_lift2] in Hc. unfold qgis_div in Hc. rewrite qeqb_false in Hc by (compute; discriminate).
  injection Hc as <-. destruct (Hpv p eq_refl). unfold Qdiv. change (Qinv 0.1) with (10 # 1).
  rewrite <- round3_0, <- round3_3. split; apply round3_mono; lra.
Qed.

Lemma eval_IUHD (a : attrs) (x : Q) (vc : option Q) :
  a !! "UHIMaxNoNe" = Some (Some x) -> 0 <= x <= uhi_max ln ->
  a !! "VegCooling" = Some vc -> (forall c, vc = Some c -> 0 <= c <= 3) ->
  exists v, eval ln a (fc_formula IUHD) = inr v /\
    forall i, option_map round3 v = Some i -> -3 <= i <= uhi_max ln.
Proof.
  intros Hx Hxb Hv Hvc. cbn [eval fc_formula IUHD]. rewrite Hx, Hv. cbn [mbind sum_mbind].
  eexists. split; [reflexivity|]. intros i Hi. destruct vc as [c|]; [|done].
  injection Hi as <-. destruct (Hvc c eq_refl). unfold uhi_max in *.
  rewrite <- (round3_idem (7.54 + 3.97 * ln 3)), <- (round3_Z (-3)). change (inject_Z (-3)) with (-3).
  split; apply round3_mono; lra.
Qed.
End Clamps.

(** ** The IUHD of a grid cell is bounded *)

Ltac fields_present :=
  cbn [fields_of fc_formula f_attrs wai pai HW app];
  repeat (apply List.Forall_cons; [simpl_map; by eexists|]); apply List.Forall_nil.

Ltac next_stage Hv :=
  lazymatch goal with
  | |- context [fc_feature ?ln ?p ?f] =>
      rewrite (fc_feature_inr ln p f _ Hv);
      cbn [mbind sum_mbind f_geom f_attrs zonal_feature foldr zstat_name String.append option_map fc_name
        wai pai HW HWDecr paiveg VegCooling UHIMaxHW
        UHIMaxHWNN UHIMaxNoNe IUHD]
  end.

Ltac prop_stage lem H :=
  lazymatch goal with
  | |- context [fc_feature ?ln ?p ?f] =>
      let Hv := fresh "Hv" in
      edestruct (lem (f_attrs f)) as (? & Hv & H);
      [try (cbn [f_attrs]; simpl_map; reflexivity) .. | next_stage Hv]
  end.

Ltac total_stage :=
  lazymatch goal with
  | |- context [fc_feature ?ln ?p ?f] =>
      let v := fresh "v" in let Hv := fresh "Hv" in
      destruct (eval_total ln (f_attrs f) (fc_formula p)) as [v Hv]; [fields_present | next_stage Hv]
  end.

Section Bounds.
Context `{ZonalStatistics} (ln : Q -> Q).
Hypothesis ln_mono : forall x y, 0 < x -> x <= y -> ln x <= ln y.
Hypothesis ln_1 : ln 1 == 0.

Lemma iuhd_feature_valid (cellsize : Q) (w bb vb : raster) (f : feature) :
  is_Some (f_attrs f !! "area") ->
  (forall s c, zonal_stat ZSum vb (f_geom f) = Some s -> zonal_stat ZCount vb (f_geom f) = Some c ->
   0 <= s <= c) ->
  exists f', iuhd_feature ln cellsize w bb vb f = inr f' /\
    (exists u, f_attrs f' !! "UHIMaxNoNe" = Some (Some u) /\ 0 <= u <= uhi_max ln) /\
    forall x, f_attrs f' !! "IUHD" = Some (Some x) -> -3 <= x <= uhi_max ln.
Proof.
  intros [area Ha] Hz. destruct f as [g a]. cbn [f_attrs f_geom] in *.
  unfold iuhd_feature, zonal_feature. cbn [foldr f_geom f_attrs zstat_name String.append].
  do 3 total_stage.
  prop_stage (eval_HWDecr ln) Hhd.
  prop_stage (eval_paiveg ln) Hpv; [done|].
  prop_stage (eval_VegCooling ln) Hvc; [exact Hpv|].
  prop_stage (eval_UHIMaxHW ln ln_mono) Huh; [exact Hhd|].
  prop_stage (eval_UHIMaxHWNN ln ln_mono ln_1) Hnn; [exact Huh|].
  prop_stage (eval_UHIMaxNoNe ln ln_mono ln_1) Hnone; [exact Hnn|].
  prop_stage (eval_IUHD ln) Hiuhd; [exact Hnone | exact Hvc |].
  eexists. split; [reflexivity|]. cbn [f_attrs]. split.
  - eexists. split; [simpl_map; reflexivity | exact Hnone].
  - intros i Hi. simpl_map. injection Hi as Hi. by apply Hiuhd.
Qed.

(** On one grid cell with its [area], the ten field calculators succeed;
    the clamps leave a non-NULL, non-negative [UHIMaxNoNe] of at most
    [uhi_max], and when the vegetation sum is at most its count the [IUHD]
    is NULL or in [[-3, uhi_max]]. *)
Theorem iuhd_feature_range (cellsize : Q) (w bb vb : raster) (f : feature) :
  is_Some (f_attrs f !! "area") ->
  (forall s c, zonal_stat ZSum vb (f_geom f) = Some s -> zonal_stat ZCount vb (f_geom f) = Some c ->
   0 <= s <= c) ->
  exists f', iuhd_feature ln cellsize w bb vb f = inr f' /\
    (exists u, f_attrs f' !! "UHIMaxNoNe" = Some (Some u) /\ 0 <= u <= uhi_max ln) /\
    forall x, f_attrs f' !! "IUHD" = Some (Some x) -> -3 <= x <= uhi_max ln.
Proof. apply iuhd_feature_valid. Qed.
End Bounds.

(** ** Zonal statistics by pixel centres *)

(** What the chain needs of the zonal statistics: over a raster whose cells
    lie in [[0, 1]] (the boolean rasters), the sum is at most the count. *)
Class ZonalStatisticsLaws `{ZonalStatistics} := {
  zonal_fraction : forall r w s c, all_cells (λ v, 0 <= v <= 1) (cells r) ->
    zonal_stat ZSum r w = Some s -> zonal_stat ZCount r w = Some c -> 0 <= s <= c
}.

(** The aggregation of QGIS's zonal statistics for polygons larger than a
    pixel: the valid pixels whose centre lies in the polygon. *)
Definition in_window (w : window) (p : point) : bool :=
  (win_minx w <=? pt_x p) && (pt_x p <? win_maxx w) && (win_miny w <=? pt_y p) && (pt_y p <? win_maxy w).

Definition zonal_values (r : raster) (w : window) : list Q :=
  map pt_value (List.filter (in_window w) (pixels_to_points r)).

#[export] Instance centre_zonal : ZonalStatistics := {
  zonal_stat s r w :=
    Some (match s with
          | ZCount => inject_Z (Z.of_nat (length (zonal_values r w)))
          | ZSum => foldr Qplus 0 (zonal_values r w)
          end)
}.

Lemma sum_fractions (vs : list Q) :
  Forall (λ v, 0 <= v <= 1) vs -> 0 <= foldr Qplus 0 vs <= inject_Z (Z.of_nat (length vs)).
Proof.
  induction 1 as [|v vs Hv _ IH]; [split; vm_compute; intros ?; discriminate|].
  cbn [foldr length]. rewrite Nat2Z.inj_succ. unfold Z.succ. rewrite inject_Z_plus.
  change (inject_Z 1) with 1. split; lra.
Qed.

Lemma zonal_values_cells (r : raster) (w : window) :
  Forall (λ v, exists i j, cell (cells r) i j = Some v) (zonal_values r w).
Proof.
  unfold zonal_values. apply Forall_forall. intros v Hv.
  apply list_elem_of_In, in_map_iff in Hv as (p & <- & Hp).
  apply filter_In in Hp as [Hp _]. apply list_elem_of_In, pixels_to_points_elem in Hp.
  destruct Hp as (i & j & v & Hc & _ & ->). by exists i, j.
Qed.

#[export] Instance centre_zonal_laws : ZonalStatisticsLaws.
Proof.
  constructor. intros r w s c Hr [= <-] [= <-]. apply sum_fractions.
  eapply Forall_impl; [apply zonal_values_cells|]. intros v (i & j & Hv).
  rewrite all_cells_lookup in Hr. by apply (Hr i j).
Qed.

(** ** The building and vegetation rasters are boolean *)

Lemma np_gt0_01 (g : grid Q) : all_cells (λ v, 0 <= v <= 1) (np_gt0 g).
Proof.
  apply all_cells_cellmap. intros x. unfold b2q. destruct (0 <? x); split; discriminate.
Qed.

Lemma building_veg_rasters_valid (dem dsm cdsm b bb vb : raster) :
  building_veg_rasters dem dsm cdsm = Some (b, bb, vb) ->
  all_cells (λ x, x == 0 \/ 0.5 <= x) (cells b) /\
  all_cells (λ v, 0 <= v <= 1) (cells bb) /\ all_cells (λ v, 0 <= v <= 1) (cells vb).
Proof.
  unfold building_veg_rasters, build_heights.
  destruct (np_binop _ _ _); [|done]. cbn [mbind option_bind]. intros [= <- <- <-].
  cbn [cells saveraster]. split_and!; [|apply np_gt0_01..].
  apply all_cells_cellmap. intros x. destruct (qltb_spec x 0.5); [left | right]; lra.
Qed.

(** ** The chain on the whole grid *)

Section ChainRange.
Context `{ZonalStatisticsLaws} (ln : Q -> Q).
Hypothesis ln_mono : forall x y, 0 < x -> x <= y -> ln x <= ln y.
Hypothesis ln_1 : ln 1 == 0.

Lemma iuhd_chain_valid (cellsize : Q) (wall dem dsm cdsm b bb vb : raster) (grid : list feature) :
  building_veg_rasters dem dsm cdsm = Some (b, bb, vb) ->
  Forall (λ f, is_Some (f_attrs f !! "area")) grid ->
  exists out, iuhd_chain ln cellsize wall bb vb grid = inr out /\
    Forall (λ f', (exists u, f_attrs f' !! "UHIMaxNoNe" = Some (Some u) /\ 0 <= u <= uhi_max ln) /\
                  forall x, f_attrs f' !! "IUHD" = Some (Some x) -> -3 <= x <= uhi_max ln) out.
Proof.
  intros Hbv Harea. destruct (building_veg_rasters_valid _ _ _ _ _ _ Hbv) as (_ & _ & Hvb).
  destruct (mapM_sum_Forall_exists (iuhd_feature ln cellsize wall bb vb)
    (λ f', (exists u, f_attrs f' !! "UHIMaxNoNe" = Some (Some u) /\ 0 <= u <= uhi_max ln) /\
           forall x, f_attrs f' !! "IUHD" = Some (Some x) -> -3 <= x <= uhi_max ln) grid)
    as (out & Hout & Hall).
  - eapply Forall_impl; [exact Harea|]. intros f Hf.
    apply (iuhd_feature_valid ln ln_mono ln_1); [done|]. intros s c Hs Hc.
    by apply (zonal_fraction vb (f_geom f)).
  - exists out. split; [by apply iuhd_chain_mapM | done].
Qed.

(** C13: On a grid whose cells have their [area], with the vegetation raster of
    lines 211-213, the chain succeeds, every cell gets a non-NULL,
    non-negative [UHIMaxNoNe] of at most [uhi_max], and its [IUHD] is NULL
    or in [[-3, uhi_max]]. *)
Theorem iuhd_chain_range (cellsize : Q) (wall dem dsm cdsm b bb vb : raster) (grid : list feature) :
  building_veg_rasters dem dsm cdsm = Some (b, bb, vb) ->
  Forall (λ f, is_Some (f_attrs f !! "area")) grid ->
  exists out, iuhd_chain ln cellsize wall bb vb grid = inr out /\
    Forall (λ f', (exists u, f_attrs f' !! "UHIMaxNoNe" = Some (Some u) /\ 0 <= u <= uhi_max ln) /\
                  forall x, f_attrs f' !! "IUHD" = Some (Some x) -> -3 <= x <= uhi_max ln) out.
Proof. apply iuhd_chain_valid. Qed.
End ChainRange.

(** ** A grid cell of the SWEREF 99 TM grid *)

(** Runs a fallible computation on concrete data and names its result. *)
Ltac run_feature :=
  match goal with
  | |- exists f', ?c = inr f' /\ _ =>
      let E := fresh "E" in
      destruct c as [?e|?f'] eqn:E; vm_compute in E; [discriminate|]; injection E as <-;
      eexists; split; [reflexivity|]
  end.

(** A 20 m cell over four 10 m pixels, standing in for the 100 m grid. *)
Definition sample_cell : window := Window 650000 650020 6639980 6640000 "EPSG:3006".

Definition sample_raster (g : grid Q) : raster :=
  mkRaster g (Some (-9999)) (mkGeo 650000 10 0 6640000 0 (-10)).

Definition sample_feature : feature := Feature sample_cell (<["area" := Some 400]> ∅).

(** The tangent of [ln] at 1: monotone, and 0 at 1, as the theorems ask. *)
Definition ln_tangent (x : Q) : Q := x - 1.

Lemma ln_tangent_mono (x y : Q) : 0 < x -> x <= y -> ln_tangent x <= ln_tangent y.
Proof. unfold ln_tangent. lra. Qed.

Lemma ln_tangent_1 : ln_tangent 1 == 0.
Proof. reflexivity. Qed.

Lemma iuhd_feature_range_witness :
  exists f', iuhd_feature ln_tangent 0.5 (sample_raster [[0; 0]; [0; 0]])
                (sample_raster [[1; 0]; [1; 0]]) (sample_raster [[1; 0]; [0; 0]]) sample_feature = inr f' /\
    (exists u, f_attrs f' !! "UHIMaxNoNe" = Some (Some u) /\ 0 <= u <= uhi_max ln_tangent) /\
    forall x, f_attrs f' !! "IUHD" = Some (Some x) -> -3 <= x <= uhi_max ln_tangent.
Proof.
  apply (iuhd_feature_range ln_tangent ln_tangent_mono ln_tangent_1); [by eexists|].
  intros s c Hs Hc. apply (zonal_fraction (sample_raster [[1; 0]; [0; 0]]) sample_cell); [|done..].
  repeat (apply List.Forall_cons || apply List.Forall_nil); cbv beta; split;
    apply Qle_bool_imp_le; reflexivity.
Defined.

Lemma iuhd_chain_range_witness :
  exists out, iuhd_chain ln_tangent 0.5 (sample_raster [[0; 0]; [0; 0]])
                (sample_raster [[1; 0]; [1; 0]]) (sample_raster [[1; 1]; [0; 0]]) [sample_feature] = inr out /\
    Forall (λ f', (exists u, f_attrs f' !! "UHIMaxNoNe" = Some (Some u) /\ 0 <= u <= uhi_max ln_tangent) /\
                  forall x, f_attrs f' !! "IUHD" = Some (Some x) -> -3 <= x <= uhi_max ln_tangent) out.
Proof.
  eapply (iuhd_chain_range ln_tangent ln_tangent_mono ln_tangent_1 0.5 _
           (sample_raster [[0; 0]; [0; 0]]) (sample_raster [[2; 0]; [2; 0]])
           (sample_raster [[5; 5]; [0; 0]])).
  - reflexivity.
  - repeat constructor. by eexists.
Defined.

