(* ===== verification/Grid.v ===== *)
(** * The 100 m grid of the IUHD model (lines 229-250)

    The IUHD model aggregates the building, wall and vegetation rasters
    over a grid of 100 m cells covering the study area:
    - [native:creategrid] with [TYPE 2] (rectangles), spacing 100, no
      overlay, over [projwin] (lines 229-239, [creategrid]): the algorithm
      raises when a spacing is not positive or the extent is narrower or
      lower than one spacing; otherwise ([create_grid]) the cells are
      generated column by column from the window's top-left corner,
      [ceil(width / spacing)] columns of [ceil(height / spacing)] cells,
      each with the columns [id], [left], [top], [right], [bottom];
    - [qgis:exportaddgeometrycolumns] with [CALC_METHOD 0] (lines 242-250,
      [add_geometry_attributes]): every polygon gets its [area] and
      [perimeter] in the layer's units.
    The zonal statistics of [IUHD] then read the grid, and the field
    calculator [wai] divides by its [area]: the theorems of this file show
    that the grid covers the study area, that the grid stage fails exactly
    on a window smaller than one cell, and that otherwise the IUHD chain
    never meets a missing [area]. *)

From stdpp Require Import strings gmap.
From Stdlib Require Import Qround.
From S2P Require Import Prelude Raster GridAligner IUHD.

(** ** [native:creategrid] *)

(** The number of columns (or rows): [ceil(extent / (spacing - overlay))]
    with no overlay. *)
Definition grid_count (len spacing : Q) : nat := Z.to_nat (Qceiling (len / spacing)).

(** The attributes of a cell: [id], [left], [top], [right], [bottom]. *)
Definition grid_cell_attrs (id : nat) (x1 y1 x2 y2 : Q) : attrs :=
  <["id" := Some (inject_Z (Z.of_nat id))]> (<["left" := Some x1]> (<["top" := Some y1]>
    (<["right" := Some x2]> (<["bottom" := Some y2]> ∅)))).

(** The cell of column [col] and row [row]: its left edge is [col]
    spacings right of the extent's left edge, its top edge [row] spacings
    below the extent's top edge; [id] counts from 1 in the order of
    generation. *)
Definition grid_cell (ext : window) (hs vs : Q) (rows col row : nat) : feature :=
  let x1 := win_minx ext + inject_Z (Z.of_nat col) * hs in
  let x2 := x1 + hs in
  let y1 := win_maxy ext - inject_Z (Z.of_nat row) * vs in
  let y2 := y1 - vs in
  Feature (Window x1 x2 y2 y1 (win_crs ext)) (grid_cell_attrs (1 + col * rows + row) x1 y1 x2 y2).

(** The two loops: columns outside, rows inside. *)
Definition create_grid (ext : window) (hs vs : Q) : list feature :=
  let cols := grid_count (win_maxx ext - win_minx ext) hs in
  let rows := grid_count (win_maxy ext - win_miny ext) vs in
  flat_map (λ col, map (grid_cell ext hs vs rows col) (seq 0 rows)) (seq 0 cols).

(** ** [qgis:exportaddgeometrycolumns] *)

Definition window_area (w : window) : Q := (win_maxx w - win_minx w) * (win_maxy w - win_miny w).
Definition window_perimeter (w : window) : Q := 2 * ((win_maxx w - win_minx w) + (win_maxy w - win_miny w)).

Definition add_geometry_feature (f : feature) : feature :=
  Feature (f_geom f)
    (<["perimeter" := Some (window_perimeter (f_geom f))]> (<["area" := Some (window_area (f_geom f))]> (f_attrs f))).

Definition add_geometry_attributes (layer : list feature) : list feature := map add_geometry_feature layer.

(** The grid the IUHD chain reads (lines 229-250): spacing 100 over
    [projwin]. *)
Definition script_grid (projwin : window) : list feature :=
  add_geometry_attributes (create_grid projwin 100 100).

(** [native:creategrid]'s checks before it generates the cells, in its
    order: positive spacings, an extent at least one spacing wide and one
    spacing high (the overlay check that follows holds for the script's
    overlay 0 whenever the spacings are positive). *)
Inductive grid_error := InvalidSpacing | HSpacingTooLarge | VSpacingTooLarge.

Definition creategrid (ext : window) (hs vs : Q) : grid_error + list feature :=
  if (hs <=? 0) || (vs <=? 0) then inl InvalidSpacing
  else if (win_maxx ext - win_minx ext) <? hs then inl HSpacingTooLarge
  else if (win_maxy ext - win_miny ext) <? vs then inl VSpacingTooLarge
  else inr (create_grid ext hs vs).

(** Lines 229-250 as the script runs them: the grid, then its geometry
    columns. *)
Definition script_grid_run (projwin : window) : grid_error + list feature :=
  g ← creategrid projwin 100 100; inr (add_geometry_attributes g).

(** ** The grid's cells *)

Lemma create_grid_elem (ext : window) (hs vs : Q) (f : feature) :
  f ∈ create_grid ext hs vs <->
  exists col row, (col < grid_count (win_maxx ext - win_minx ext) hs)%nat /\
    (row < grid_count (win_maxy ext - win_miny ext) vs)%nat /\
    f = grid_cell ext hs vs (grid_count (win_maxy ext - win_miny ext) vs) col row.
Proof.
  unfold create_grid. rewrite list_elem_of_In, in_flat_map. split.
  - intros (col & Hcol%in_seq & Hf). apply in_map_iff in Hf as (row & <- & Hrow%in_seq).
    exists col, row. split_and!; [lia | lia | done].
  - intros (col & row & Hcol & Hrow & ->). exists col. split; [apply in_seq; lia|].
    apply in_map_iff. exists row. split; [done | apply in_seq; lia].
Qed.

(** A non-negative [a] lies in the cell [floor(a / s)] of spacing [s]. *)
Lemma floor_cell (a s : Q) :
  0 < s -> 0 <= a ->
  (0 <= Qfloor (a / s))%Z /\ inject_Z (Qfloor (a / s)) * s <= a < inject_Z (Qfloor (a / s)) * s + s.
Proof.
  intros Hs Ha. assert (Hdiv : a / s * s == a) by (field; lra).
  assert (Hq : 0 <= a / s) by (apply Qle_shift_div_l; lra).
  pose proof (Qfloor_le (a / s)) as Hle. pose proof (Qlt_floor (a / s)) as Hlt.
  rewrite inject_Z_plus in Hlt. change (inject_Z 1) with 1 in Hlt.
  split; [|split; nra].
  assert (Hm : inject_Z (-1) < inject_Z (Qfloor (a / s))) by (change (inject_Z (-1)) with (-1); lra).
  rewrite <- Zlt_Qlt in Hm. lia.
Qed.

(** An index below [a / s] is below the number of cells. *)
Lemma floor_lt_count (a len s : Q) :
  0 < s -> 0 <= a < len -> (Z.to_nat (Qfloor (a / s)) < grid_count len s)%nat.
Proof.
  intros Hs [Ha Hlen]. destruct (floor_cell a s Hs Ha) as (H0 & Hlo & _). unfold grid_count.
  assert (Hc : a / s < inject_Z (Qceiling (len / s))).
  { apply (Qlt_le_trans _ (len / s)); [|apply Qle_ceiling].
    apply Qlt_shift_div_r; [done|]. assert (len / s * s == len) by (field; lra). lra. }
  assert (Hf : inject_Z (Qfloor (a / s)) < inject_Z (Qceiling (len / s))).
  { apply (Qle_lt_trans _ (a / s)); [apply Qfloor_le | exact Hc]. }
  rewrite <- Zlt_Qlt in Hf. lia.
Qed.

(** The column and the row of the cell that holds the point [(x, y)]. *)
Definition grid_col (ext : window) (hs x : Q) : nat := Z.to_nat (Qfloor ((x - win_minx ext) / hs)).
Definition grid_row (ext : window) (vs y : Q) : nat := Z.to_nat (Qfloor ((win_maxy ext - y) / vs)).

(** The cell of spacing [s] that holds [a] is unique. *)
Lemma floor_index (a s : Q) (k : nat) :
  0 < s -> inject_Z (Z.of_nat k) * s <= a < inject_Z (Z.of_nat k) * s + s -> Z.to_nat (Qfloor (a / s)) = k.
Proof.
  intros Hs [Hlo Hhi]. rewrite (Qfloor_unique (Z.of_nat k)); [apply Nat2Z.id|]. split.
  - apply Qle_shift_div_l; lra.
  - apply Qlt_shift_div_r; [done|]. rewrite Qmult_plus_distr_l. lra.
Qed.

(** A cell holds a point of the quadrant right of and below the extent's
    corner exactly when it is the point's column and row. *)
Lemma grid_cell_contains (ext : window) (hs vs : Q) (rows col row : nat) (x y : Q) :
  0 < hs -> 0 < vs -> win_minx ext <= x -> y <= win_maxy ext ->
  (win_minx (f_geom (grid_cell ext hs vs rows col row)) <= x < win_maxx (f_geom (grid_cell ext hs vs rows col row)) /\
   win_miny (f_geom (grid_cell ext hs vs rows col row)) < y <= win_maxy (f_geom (grid_cell ext hs vs rows col row))) <->
  col = grid_col ext hs x /\ row = grid_row ext vs y.
Proof.
  intros Hh Hv Hx Hy. cbn [grid_cell f_geom win_minx win_maxx win_miny win_maxy]. unfold grid_col, grid_row.
  split.
  - intros [Hxs Hys]. split; symmetry; apply floor_index; [done | lra | done | lra].
  - intros [-> ->].
    destruct (floor_cell (x - win_minx ext) hs) as (Hc0 & Hclo & Hchi); [done | lra |].
    destruct (floor_cell (win_maxy ext - y) vs) as (Hr0 & Hrlo & Hrhi); [done | lra |].
    rewrite !Z2Nat.id by done. lra.
Qed.

(** C27: the grid covers its extent: with positive spacings, every
    point of the extent ([minx <= x < maxx], [miny < y <= maxy]) lies in a
    cell of the grid ([left <= x < right], [bottom < y <= top]); the last
    column and row may reach past the extent. *)
Theorem create_grid_covers (ext : window) (hs vs x y : Q) :
  0 < hs -> 0 < vs -> win_minx ext <= x < win_maxx ext -> win_miny ext < y <= win_maxy ext ->
  exists f, f ∈ create_grid ext hs vs /\
    win_minx (f_geom f) <= x < win_maxx (f_geom f) /\ win_miny (f_geom f) < y <= win_maxy (f_geom f).
Proof.
  intros Hh Hv Hx Hy.
  destruct (floor_cell (x - win_minx ext) hs) as (Hc0 & Hclo & Hchi); [done | lra |].
  destruct (floor_cell (win_maxy ext - y) vs) as (Hr0 & Hrlo & Hrhi); [done | lra |].
  eexists. split.
  - apply create_grid_elem.
    exists (Z.to_nat (Qfloor ((x - win_minx ext) / hs))), (Z.to_nat (Qfloor ((win_maxy ext - y) / vs))).
    split_and!; [apply floor_lt_count; [done | lra] .. | reflexivity].
  - cbn [grid_cell f_geom win_minx win_maxx win_miny win_maxy]. rewrite !Z2Nat.id by done. lra.
Qed.

Lemma add_geometry_area (f : feature) :
  f_attrs (add_geometry_feature f) !! "area" = Some (Some (window_area (f_geom f))).
Proof. cbn [add_geometry_feature f_attrs]. by rewrite lookup_insert_ne, lookup_insert_eq. Qed.

Lemma grid_cell_area (ext : window) (hs vs : Q) (rows col row : nat) :
  window_area (f_geom (grid_cell ext hs vs rows col row)) == hs * vs.
Proof. unfold window_area. cbn [grid_cell f_geom win_minx win_maxx win_miny win_maxy]. ring. Qed.

(** Every cell of the grid gets its [area], [hs * vs]. *)
Lemma add_geometry_grid_area (ext : window) (hs vs : Q) :
  Forall (λ f, exists a, f_attrs f !! "area" = Some (Some a) /\ a == hs * vs)
    (add_geometry_attributes (create_grid ext hs vs)).
Proof.
  apply Forall_map, Forall_forall. intros f (col & row & _ & _ & ->)%create_grid_elem.
  eexists. split; [apply add_geometry_area | apply grid_cell_area].
Qed.

(** ** The IUHD chain on the script's grid *)

Section GridChain.
Context `{ZonalStatisticsLaws} (ln : Q -> Q).
Hypothesis ln_mono : forall x y, 0 < x -> x <= y -> ln x <= ln y.
Hypothesis ln_1 : ln 1 == 0.

(** The grid stage of the script succeeds exactly on a window at least
    100 m wide and 100 m high, and then gives [script_grid]. *)
Lemma script_grid_run_spec (projwin : window) :
  script_grid_run projwin =
    if (win_maxx projwin - win_minx projwin <? 100) then inl HSpacingTooLarge
    else if (win_maxy projwin - win_miny projwin <? 100) then inl VSpacingTooLarge
    else inr (script_grid projwin).
Proof.
  unfold script_grid_run, creategrid. simpl.
  destruct (_ <? 100); [done|]. by destruct (_ <? 100).
Qed.

(** C15: lines 229-411 composed: the grid stage fails ([native:creategrid]
    raises) exactly when [projwin] is narrower or lower than the 100 m
    spacing; otherwise every cell of the grid has the [area] 10000 that
    [wai] divides by, so with the rasters of the numpy stage the IUHD chain
    succeeds, and every cell gets a non-negative [UHIMaxNoNe] of at most
    [uhi_max] and an [IUHD] that is NULL or in [[-3, uhi_max]]. *)
Theorem script_grid_iuhd_chain (projwin : window) (cellsize : Q) (wall dem dsm cdsm b bb vb : raster) :
  building_veg_rasters dem dsm cdsm = Some (b, bb, vb) ->
  match script_grid_run projwin with
  | inl _ => win_maxx projwin - win_minx projwin < 100 \/ win_maxy projwin - win_miny projwin < 100
  | inr grid =>
      100 <= win_maxx projwin - win_minx projwin /\ 100 <= win_maxy projwin - win_miny projwin /\
      Forall (λ f, exists a, f_attrs f !! "area" = Some (Some a) /\ a == 10000) grid /\
      exists out, iuhd_chain ln cellsize wall bb vb grid = inr out /\
        Forall (λ f', (exists u, f_attrs f' !! "UHIMaxNoNe" = Some (Some u) /\ 0 <= u <= uhi_max ln) /\
                      forall x, f_attrs f' !! "IUHD" = Some (Some x) -> -3 <= x <= uhi_max ln) out
  end.
Proof.
  intros Hbv. rewrite script_grid_run_spec.
  destruct (qltb_spec (win_maxx projwin - win_minx projwin) 100) as [Hw|Hw]; [by left|].
  destruct (qltb_spec (win_maxy projwin - win_miny projwin) 100) as [Hh|Hh]; [by right|].
  assert (Ha := add_geometry_grid_area projwin 100 100). split_and!; [done|done| |].
  - eapply Forall_impl; [exact Ha|]. intros f (a & Hf & Hq). exists a. split; [done|]. rewrite Hq. reflexivity.
  - apply (iuhd_chain_valid ln ln_mono ln_1 cellsize wall dem dsm cdsm b bb vb _ Hbv).
    eapply Forall_impl; [exact Ha|]. intros f (a & Hf & _). by eexists.
Qed.
End GridChain.

(** ** One 100 m cell *)

(** The 200 m by 100 m window of two grid cells at the origin of the
    samples of [IUHD]. *)
Definition two_cell_window : window := Window 650000 650200 6639900 6640000 "EPSG:3006".

Lemma create_grid_covers_witness :
  exists f, f ∈ create_grid two_cell_window 100 100 /\
    win_minx (f_geom f) <= 650150 < win_maxx (f_geom f) /\ win_miny (f_geom f) < 6639950 <= win_maxy (f_geom f).
Proof. apply create_grid_covers; cbn; lra. Defined.

Lemma script_grid_iuhd_chain_witness :
  exists b bb vb,
    building_veg_rasters (sample_raster [[0; 0]; [0; 0]]) (sample_raster [[2; 0]; [2; 0]])
      (sample_raster [[5; 5]; [0; 0]]) = Some (b, bb, vb) /\
    match script_grid_run two_cell_window with
    | inl _ => win_maxx two_cell_window - win_minx two_cell_window < 100 \/
               win_maxy two_cell_window - win_miny two_cell_window < 100
    | inr grid =>
        100 <= win_maxx two_cell_window - win_minx two_cell_window /\
        100 <= win_maxy two_cell_window - win_miny two_cell_window /\
        Forall (λ f, exists a, f_attrs f !! "area" = Some (Some a) /\ a == 10000) grid /\
        exists out, iuhd_chain ln_tangent 0.5 (sample_raster [[0; 0]; [0; 0]]) bb vb grid = inr out /\
          Forall (λ f', (exists u, f_attrs f' !! "UHIMaxNoNe" = Some (Some u) /\ 0 <= u <= uhi_max ln_tangent) /\
                        forall x, f_attrs f' !! "IUHD" = Some (Some x) -> -3 <= x <= uhi_max ln_tangent) out
    end.
Proof.
  assert (E : exists b bb vb, building_veg_rasters (sample_raster [[0; 0]; [0; 0]])
    (sample_raster [[2; 0]; [2; 0]]) (sample_raster [[5; 5]; [0; 0]]) = Some (b, bb, vb))
    by (do 3 eexists; reflexivity).
  destruct E as (b & bb & vb & E). exists b, bb, vb. split; [exact E|].
  exact (script_grid_iuhd_chain ln_tangent ln_tangent_mono ln_tangent_1 two_cell_window 0.5
           (sample_raster [[0; 0]; [0; 0]]) _ _ _ b bb vb E).
Defined.
