(* ===== verification/Rasterize.v ===== *)
(** * [gdal:rasterize] of the IUHD grid (lines 414-431)

    The IUHD field of the 100 m grid is burnt into a raster on the study
    area's 10 m grid ([gdal:rasterize] with [FIELD 'IUHD'], [UNITS 1]
    (georeferenced), [WIDTH] and [HEIGHT] 10, [EXTENT projwin], [NODATA]
    and [INIT] [None]).  The algorithm runs [gdal_rasterize -a IUHD -tr 10
    10 -te ...]:
    - the output has [(int)(0.5 + extent / resolution)] columns and rows,
      its origin at the extent's top-left corner ([rasterize_size]);
    - with neither [-init] nor [-a_nodata] the new band starts at 0 and
      has no no-data value;
    - a pixel is burnt by a polygon that contains its centre (no
      [ALL_TOUCHED]); for the grid's rectangles that is [left <= x <
      right] and [bottom < y <= top] ([burns]);
    - the features are burnt in the layer's order, each replacing the
      value ([rasterize_pixel]); the value burnt is the field read with
      [GetFieldAsDouble], so a feature whose field is NULL burns 0.
    Float32 storage ([DATA_TYPE 5]) is not modelled, as elsewhere. *)

From stdpp Require Import strings gmap.
From Stdlib Require Import Qround.
From S2P Require Import Prelude Raster GridAligner IUHD Grid.

(** A feature's field when it holds a number ([None] when NULL). *)
Definition burn_value (fld : string) (f : feature) : option Q :=
  match f_attrs f !! fld with Some (Some v) => Some v | _ => None end.

(** The pixel centre [(x, y)] lies in the rectangle [w]. *)
Definition burns (x y : Q) (w : window) : bool :=
  (win_minx w <=? x) && (x <? win_maxx w) && (win_miny w <? y) && (y <=? win_maxy w).

(** One feature over one pixel: when it covers the centre, its field read
    as a double ([GetFieldAsDouble], 0 for NULL) replaces the pixel's
    value. *)
Definition burn_pixel (fld : string) (x y : Q) (v : Q) (f : feature) : Q :=
  if burns x y (f_geom f) then default 0 (burn_value fld f) else v.

(** The features in the layer's order. *)
Definition rasterize_pixel (fld : string) (init : Q) (layer : list feature) (x y : Q) : Q :=
  foldl (burn_pixel fld x y) init layer.

(** [(int)(0.5 + extent / resolution)]. *)
Definition rasterize_size (len res : Q) : nat := Z.to_nat (Qfloor (len / res + (1 # 2))).

(** The centre of pixel [(i, j)] of a north-up geotransform. *)
Definition gt_center (gt : geotransform) (i j : nat) : Q * Q :=
  (gt_originX gt + gt_pixelWidth gt * (inject_Z (Z.of_nat j) + (1 # 2)),
   gt_originY gt + gt_pixelHeight gt * (inject_Z (Z.of_nat i) + (1 # 2))).

(** The parameters of the call that matter to the output. *)
Record rasterize_params := RasterizeParams {
  rp_field : string; rp_extent : window; rp_width : Q; rp_height : Q;
  rp_init : option Q; rp_nodata : option Q
}.

Definition rasterize_geo (p : rasterize_params) : geotransform :=
  mkGeo (win_minx (rp_extent p)) (rp_width p) 0 (win_maxy (rp_extent p)) 0 (- rp_height p).

(** The band starts at [-init], else at the no-data value, else at 0. *)
Definition gdal_rasterize (p : rasterize_params) (layer : list feature) : raster :=
  let ext := rp_extent p in
  let nx := rasterize_size (win_maxx ext - win_minx ext) (rp_width p) in
  let ny := rasterize_size (win_maxy ext - win_miny ext) (rp_height p) in
  let init := default (default 0 (rp_nodata p)) (rp_init p) in
  let gt := rasterize_geo p in
  mkRaster
    (map (λ i, map (λ j, let '(x, y) := gt_center gt i j in rasterize_pixel (rp_field p) init layer x y)
                   (seq 0 nx)) (seq 0 ny))
    (rp_nodata p) gt.

(** Lines 414-431. *)
Definition iuhd_rasterize_params (projwin : window) : rasterize_params :=
  RasterizeParams "IUHD" projwin 10 10 None None.

(** ** The value of a pixel *)

Lemma burn_pixel_skip (fld : string) (x y v : Q) (f : feature) :
  burns x y (f_geom f) = false -> burn_pixel fld x y v f = v.
Proof. unfold burn_pixel. by intros ->. Qed.

Lemma rasterize_pixel_skip (fld : string) (init x y : Q) (l : list feature) :
  Forall (λ g, burns x y (f_geom g) = false) l ->
  rasterize_pixel fld init l x y = init.
Proof.
  unfold rasterize_pixel. revert init. induction l as [|g l IH]; intros init Hl; [done|].
  apply Forall_cons in Hl as [Hg Hl]. cbn [foldl]. rewrite burn_pixel_skip by done. by apply IH.
Qed.

(** A pixel holds the initial value or the value of a feature that
    covers its centre. *)
Lemma rasterize_pixel_cases (fld : string) (init x y : Q) (l : list feature) :
  rasterize_pixel fld init l x y = init \/
  exists f, f ∈ l /\ burns x y (f_geom f) = true /\ rasterize_pixel fld init l x y = default 0 (burn_value fld f).
Proof.
  unfold rasterize_pixel. revert init. induction l as [|g l IH]; intros init; [by left|].
  cbn [foldl]. destruct (IH (burn_pixel fld x y init g)) as [Heq | (f & Hf & Hb & Hv)].
  - rewrite Heq. unfold burn_pixel. destruct (burns x y (f_geom g)) eqn:Hb; [|by left].
    right. exists g. split_and!; [by left | done | done].
  - right. exists f. split_and!; [by right | done | done].
Qed.

(** The raster's cells: [ny] rows of [nx] pixels, each the value at its
    centre. *)
Lemma gdal_rasterize_cell (p : rasterize_params) (l : list feature) (i j : nat) (v : Q) :
  cell (cells (gdal_rasterize p l)) i j = Some v <->
  (i < rasterize_size (win_maxy (rp_extent p) - win_miny (rp_extent p)) (rp_height p))%nat /\
  (j < rasterize_size (win_maxx (rp_extent p) - win_minx (rp_extent p)) (rp_width p))%nat /\
  v = rasterize_pixel (rp_field p) (default (default 0 (rp_nodata p)) (rp_init p)) l
        (gt_center (rasterize_geo p) i j).1 (gt_center (rasterize_geo p) i j).2.
Proof.
  unfold cell, gdal_rasterize. cbn [cells]. rewrite list_lookup_fmap.
  destruct (decide (i < rasterize_size (win_maxy (rp_extent p) - win_miny (rp_extent p)) (rp_height p)))%nat
    as [Hi|Hi].
  - rewrite lookup_seq_lt by done. cbn [fmap option_fmap option_map mbind option_bind].
    rewrite list_lookup_fmap.
    destruct (decide (j < rasterize_size (win_maxx (rp_extent p) - win_minx (rp_extent p)) (rp_width p)))%nat
      as [Hj|Hj].
    + rewrite lookup_seq_lt by done. cbn. split; [intros [= <-] | intros (_ & _ & ->)]; done.
    + rewrite lookup_seq_ge by lia. cbn. split; [done | lia].
  - rewrite lookup_seq_ge by lia. cbn. split; [done | lia].
Qed.

Lemma gdal_rasterize_shape (p : rasterize_params) (l : list feature) :
  shape (cells (gdal_rasterize p l)) =
  replicate (rasterize_size (win_maxy (rp_extent p) - win_miny (rp_extent p)) (rp_height p))
    (rasterize_size (win_maxx (rp_extent p) - win_minx (rp_extent p)) (rp_width p)).
Proof.
  unfold shape, gdal_rasterize. cbn [cells]. rewrite map_map.
  rewrite (map_ext _ (λ _, rasterize_size (win_maxx (rp_extent p) - win_minx (rp_extent p)) (rp_width p)))
    by (intros i; by rewrite length_map, length_seq).
  generalize 0%nat.
  induction (rasterize_size (win_maxy (rp_extent p) - win_miny (rp_extent p)) (rp_height p)) as [|n IH];
    intros s; [done|].
  cbn [seq map replicate]. f_equal. apply IH.
Qed.

Lemma rasterize_pixel_app (fld : string) (init x y : Q) (l1 l2 : list feature) :
  rasterize_pixel fld init (l1 ++ l2) x y = rasterize_pixel fld (rasterize_pixel fld init l1 x y) l2 x y.
Proof. unfold rasterize_pixel. apply foldl_app. Qed.

Lemma rasterize_pixel_cons (fld : string) (init x y : Q) (f : feature) (l : list feature) :
  rasterize_pixel fld init (f :: l) x y = rasterize_pixel fld (burn_pixel fld x y init f) l x y.
Proof. done. Qed.

(** C19: the burning order of [gdal_rasterize]: a pixel of the
    output takes the value of the last feature of the layer that covers
    its centre, its field or 0 when the field is NULL; a pixel that no
    feature covers keeps the initial value, which for the script's call
    ([INIT] and [NODATA] [None]) is 0. *)
Theorem gdal_rasterize_last_wins (p : rasterize_params) (l1 l2 : list feature) (f : feature) (i j : nat) :
  (i < rasterize_size (win_maxy (rp_extent p) - win_miny (rp_extent p)) (rp_height p))%nat ->
  (j < rasterize_size (win_maxx (rp_extent p) - win_minx (rp_extent p)) (rp_width p))%nat ->
  let '(x, y) := gt_center (rasterize_geo p) i j in
  (burns x y (f_geom f) = true ->
   Forall (λ g, burns x y (f_geom g) = false) l2 ->
   cell (cells (gdal_rasterize p (l1 ++ f :: l2))) i j = Some (default 0 (burn_value (rp_field p) f))) /\
  (Forall (λ g, burns x y (f_geom g) = false) (l1 ++ f :: l2) ->
   rp_init p = None -> rp_nodata p = None ->
   cell (cells (gdal_rasterize p (l1 ++ f :: l2))) i j = Some 0).
Proof.
  intros Hi Hj. destruct (gt_center (rasterize_geo p) i j) as [x y] eqn:Hc. split.
  - intros Hb Hl2. apply gdal_rasterize_cell. split_and!; [done | done |]. rewrite Hc. cbn [fst snd].
    rewrite rasterize_pixel_app, rasterize_pixel_cons, rasterize_pixel_skip by done.
    unfold burn_pixel. by rewrite Hb.
  - intros Hl Hinit Hnd. apply gdal_rasterize_cell. split_and!; [done | done |]. rewrite Hc, Hinit, Hnd.
    cbn [fst snd default]. by rewrite rasterize_pixel_skip.
Qed.

(** Every pixel satisfies what the initial value, 0 (a NULL field) and
    the features' values satisfy. *)
Lemma gdal_rasterize_valid (p : rasterize_params) (l : list feature) (P : Q -> Prop) :
  P (default (default 0 (rp_nodata p)) (rp_init p)) -> P 0 ->
  Forall (λ f, forall v, burn_value (rp_field p) f = Some v -> P v) l ->
  all_cells P (cells (gdal_rasterize p l)).
Proof.
  intros Hinit H0 Hl. apply all_cells_lookup. intros i j v (_ & _ & ->)%gdal_rasterize_cell.
  destruct (rasterize_pixel_cases (rp_field p) (default (default 0 (rp_nodata p)) (rp_init p))
              (gt_center (rasterize_geo p) i j).1 (gt_center (rasterize_geo p) i j).2 l)
    as [-> | (f & Hf & _ & ->)]; [done|].
  rewrite Forall_forall in Hl. destruct (burn_value (rp_field p) f) eqn:Hv; [by apply (Hl f)|done].
Qed.

(** ** The rasterization of the script's grid *)

Lemma burns_spec (x y : Q) (w : window) :
  burns x y w = true <-> win_minx w <= x < win_maxx w /\ win_miny w < y <= win_maxy w.
Proof.
  unfold burns. rewrite !andb_true_iff, !Qle_bool_iff.
  destruct (qltb_spec x (win_maxx w)), (qltb_spec (win_miny w) y); split; intros; try split; try lra;
    naive_solver.
Qed.

(** The features that do not cover the centre leave the pixel alone. *)
Lemma rasterize_pixel_filter (fld : string) (init x y : Q) (l : list feature) :
  rasterize_pixel fld init l x y = rasterize_pixel fld init (List.filter (λ g, burns x y (f_geom g)) l) x y.
Proof.
  revert init. induction l as [|g l IH]; intros init; [done|].
  cbn [List.filter]. rewrite rasterize_pixel_cons. destruct (burns x y (f_geom g)) eqn:Hb.
  - rewrite rasterize_pixel_cons. apply IH.
  - rewrite burn_pixel_skip by done. apply IH.
Qed.

Lemma filter_flat_map {A B} (P : B -> bool) (F : A -> list B) (l : list A) :
  List.filter P (flat_map F l) = flat_map (λ a, List.filter P (F a)) l.
Proof. induction l as [|a l IH]; [done|]. cbn [flat_map]. by rewrite List.filter_app, IH. Qed.

(** Over [g s, ..., g (s + n - 1)], the one index [k] that [P] accepts. *)
Lemma filter_map_seq {A} (P : A -> bool) (g : nat -> A) (k s n : nat) :
  (forall i, P (g i) = true <-> i = k) ->
  List.filter P (map g (seq s n)) = if decide (s <= k < s + n)%nat then [g k] else [].
Proof.
  intros HP. revert s. induction n as [|n IH]; intros s; cbn [seq map List.filter].
  - case_decide; [lia | done].
  - rewrite IH. destruct (P (g s)) eqn:Hs.
    + apply HP in Hs as ->. repeat case_decide; (done || lia).
    + assert (s <> k) by (intros ->; by rewrite (proj2 (HP k) eq_refl) in Hs).
      repeat case_decide; (done || lia).
Qed.

Lemma flat_map_seq_single {A} (xs : list A) (k s n : nat) :
  (s <= k < s + n)%nat ->
  flat_map (λ i, if decide (i = k) then xs else []) (seq s n) = xs.
Proof.
  assert (Hnone : forall s n, (k < s)%nat -> flat_map (λ i, if decide (i = k) then xs else []) (seq s n) = []).
  { intros s' n'. revert s'. induction n' as [|n' IH]; intros s' Hs; [done|]. cbn [seq flat_map].
    case_decide; [lia|]. apply IH. lia. }
  revert s. induction n as [|n IH]; intros s Hk; [lia|]. cbn [seq flat_map].
  case_decide as Hs.
  - subst s. rewrite Hnone by lia. apply app_nil_r.
  - apply IH. lia.
Qed.

(** On the grid, the one cell that covers a point of the extent is the
    cell of its column and row. *)
Lemma create_grid_filter (ext : window) (hs vs x y : Q) :
  0 < hs -> 0 < vs -> win_minx ext <= x < win_maxx ext -> win_miny ext < y <= win_maxy ext ->
  List.filter (λ g, burns x y (f_geom g)) (create_grid ext hs vs) =
  [grid_cell ext hs vs (grid_count (win_maxy ext - win_miny ext) vs) (grid_col ext hs x) (grid_row ext vs y)].
Proof.
  intros Hh Hv Hx Hy. unfold create_grid. rewrite filter_flat_map.
  set (rows := grid_count (win_maxy ext - win_miny ext) vs).
  assert (Hrow : (grid_row ext vs y < rows)%nat) by (apply floor_lt_count; [done | lra]).
  rewrite (flat_map_ext _ (λ col, if decide (col = grid_col ext hs x)
                                  then [grid_cell ext hs vs rows (grid_col ext hs x) (grid_row ext vs y)] else [])).
  - apply flat_map_seq_single. split; [lia|]. apply floor_lt_count; [done | lra].
  - intros col. case_decide as Hcol.
    + subst col. rewrite (filter_map_seq _ _ (grid_row ext vs y)).
      * case_decide; [done | lia].
      * intros i. rewrite burns_spec, grid_cell_contains by (done || lra). split; [by intros [_ ->] | by intros ->].
    + destruct (List.filter _ _) as [|a l'] eqn:E; [done|]. exfalso.
      assert (Ha : In a (a :: l')) by (left; done). rewrite <- E in Ha.
      apply filter_In in Ha as [Ha Hb]. apply in_map_iff in Ha as (i & <- & _).
      rewrite burns_spec, grid_cell_contains in Hb by (done || lra). exact (Hcol (proj1 Hb)).
Qed.

Lemma filter_burns_geom (x y : Q) (l1 l2 : list feature) :
  Forall2 (λ g f, f_geom f = f_geom g) l1 l2 ->
  Forall2 (λ g f, f_geom f = f_geom g)
    (List.filter (λ g, burns x y (f_geom g)) l1) (List.filter (λ g, burns x y (f_geom g)) l2).
Proof.
  induction 1 as [|g f l1 l2 Hgf _ IH]; [constructor|]. cbn [List.filter]. rewrite Hgf.
  destruct (burns x y (f_geom g)); [by constructor | done].
Qed.

Lemma script_grid_geom (ext : window) :
  Forall2 (λ g f, f_geom f = f_geom g) (create_grid ext 100 100) (script_grid ext).
Proof.
  unfold script_grid, add_geometry_attributes.
  induction (create_grid ext 100 100) as [|g l IH]; by constructor.
Qed.

(** A singleton on one side of a geometry-preserving map is a singleton on
    the other. *)
Lemma Forall2_geom_single (c : feature) (l : list feature) :
  Forall2 (λ g f, f_geom f = f_geom g) [c] l -> exists f, l = [f] /\ f_geom f = f_geom c.
Proof.
  intros (f & k & Hf & Hk%Forall2_nil_inv_l & ->)%Forall2_cons_inv_l. subst k. by exists f.
Qed.

(** C14: the rasterization of lines 414-431 reads the grid:
    after the IUHD chain, a pixel whose centre lies in the study area is
    covered by exactly one feature of the layer, the one on the 100 m cell
    of the centre's column and row, and the pixel holds that feature's
    [IUHD], or 0 when it is NULL. *)
Theorem rasterize_script_grid `{ZonalStatistics} (ln : Q -> Q) (cellsize : Q) (wall bb vb : raster)
    (projwin : window) (out : list feature) (i j : nat) :
  iuhd_chain ln cellsize wall bb vb (script_grid projwin) = inr out ->
  (i < rasterize_size (win_maxy projwin - win_miny projwin) 10)%nat ->
  (j < rasterize_size (win_maxx projwin - win_minx projwin) 10)%nat ->
  let '(x, y) := gt_center (rasterize_geo (iuhd_rasterize_params projwin)) i j in
  win_minx projwin <= x < win_maxx projwin -> win_miny projwin < y <= win_maxy projwin ->
  exists f, List.filter (λ g, burns x y (f_geom g)) out = [f] /\
    f_geom f = f_geom (grid_cell projwin 100 100 (grid_count (win_maxy projwin - win_miny projwin) 100)
                         (grid_col projwin 100 x) (grid_row projwin 100 y)) /\
    cell (cells (gdal_rasterize (iuhd_rasterize_params projwin) out)) i j = Some (default 0 (burn_value "IUHD" f)).
Proof.
  intros Hc Hi Hj. destruct (gt_center _ i j) as [x y] eqn:Hxy. intros Hx Hy.
  pose proof (filter_burns_geom x y _ _ (script_grid_geom projwin)) as H1.
  rewrite (create_grid_filter projwin 100 100 x y) in H1 by (done || lra).
  apply Forall2_geom_single in H1 as (c & Hc1 & Hgc).
  pose proof (filter_burns_geom x y _ _ (iuhd_chain_geom ln _ _ _ _ _ _ Hc)) as H2.
  rewrite Hc1 in H2. apply Forall2_geom_single in H2 as (f & Hf & Hgf).
  exists f. split_and!; [done | congruence |].
  assert (Hb : burns x y (f_geom f) = true).
  { assert (Hin : In f (List.filter (λ g, burns x y (f_geom g)) out)) by (rewrite Hf; by left).
    by apply filter_In in Hin as [_ ?]. }
  apply gdal_rasterize_cell. split_and!; [done | done |]. rewrite Hxy. cbn [fst snd].
  rewrite rasterize_pixel_filter, Hf. unfold rasterize_pixel. cbn [foldl]. unfold burn_pixel. by rewrite Hb.
Qed.

(** ** Two grid cells *)

Definition iuhd_cell (w : window) (v : option Q) : feature := Feature w (<["IUHD" := v]> ∅).
Definition cell_west : window := Window 650000 650100 6639900 6640000 "EPSG:3006".
Definition cell_east : window := Window 650100 650200 6639900 6640000 "EPSG:3006".

(** A NULL [IUHD] on the western cell burns 0 over the 2.5 burnt before it. *)
Lemma gdal_rasterize_last_wins_witness :
  cell (cells (gdal_rasterize (iuhd_rasterize_params two_cell_window)
                 ([iuhd_cell cell_west (Some 2.5)] ++ iuhd_cell cell_west None :: [iuhd_cell cell_east (Some 7)]))) 0 0 =
    Some (default 0 (burn_value "IUHD" (iuhd_cell cell_west None))) /\
  default 0 (burn_value "IUHD" (iuhd_cell cell_west None)) = 0.
Proof.
  pose proof (gdal_rasterize_last_wins (iuhd_rasterize_params two_cell_window) [iuhd_cell cell_west (Some 2.5)]
                [iuhd_cell cell_east (Some 7)] (iuhd_cell cell_west None) 0 0
                ltac:(vm_compute; lia) ltac:(vm_compute; lia)) as Hw.
  simpl in Hw. destruct Hw as [Hw _]. split; [|reflexivity].
  apply Hw; [reflexivity | repeat constructor].
Defined.

Lemma rasterize_script_grid_witness :
  exists out, iuhd_chain ln_tangent 0.5 (sample_raster [[0; 0]; [0; 0]]) (sample_raster [[1; 0]; [1; 0]])
                (sample_raster [[1; 1]; [0; 0]]) (script_grid two_cell_window) = inr out /\
    let '(x, y) := gt_center (rasterize_geo (iuhd_rasterize_params two_cell_window)) 0 15 in
    exists f, List.filter (λ g, burns x y (f_geom g)) out = [f] /\
      f_geom f = f_geom (grid_cell two_cell_window 100 100
                           (grid_count (win_maxy two_cell_window - win_miny two_cell_window) 100)
                           (grid_col two_cell_window 100 x) (grid_row two_cell_window 100 y)) /\
      cell (cells (gdal_rasterize (iuhd_rasterize_params two_cell_window) out)) 0 15 =
        Some (default 0 (burn_value "IUHD" f)).
Proof.
  assert (Hok : match iuhd_chain ln_tangent 0.5 (sample_raster [[0; 0]; [0; 0]]) (sample_raster [[1; 0]; [1; 0]])
                  (sample_raster [[1; 1]; [0; 0]]) (script_grid two_cell_window) with
                | inl _ => false | inr _ => true end = true) by (vm_compute; reflexivity).
  destruct (iuhd_chain _ _ _ _ _ (script_grid two_cell_window)) as [e|out] eqn:E; [done|].
  exists out. split; [done|].
  generalize (rasterize_script_grid ln_tangent 0.5 _ _ _ two_cell_window out 0 15 E
                ltac:(vm_compute; lia) ltac:(vm_compute; lia)).
  destruct (gt_center _ 0 15) as [x y] eqn:Hxy. vm_compute in Hxy. injection Hxy as <- <-.
  intros Hw. apply Hw; cbn; lra.
Defined.
