(* ===== verification/Pipeline.v ===== *)
(** * The script's [outputs] dictionary and the oviposition model

    The main script threads every stage result through the dictionary
    [outputs]: a stage reads its inputs as [outputs[name]['OUTPUT']] and
    stores its result under a new name.  A name that is not in the
    dictionary raises [KeyError].  This file models the dictionary as a
    [gmap] from names to rasters, the read as [get], and two parts of the
    script on it:
    - the distance-from-ocean branch (lines 172-196);
    - the oviposition model (lines 532-869): the roof slopes, the land-use
      and land-cover mosaics, their reclassification, their mean, the
      weighted overlay with the IUHD classes and the heatmap.
    The adult model, the third part on the dictionary, is in [Adult]; the
    IUHD reclassification that feeds the overlay is composed with the
    oviposition model in [Composition].
    The external algorithms these parts call (proximity, clip by extent,
    opening a file, slope) are the operations of the class [GdalServices];
    the warp and the kernel density estimation are those of
    [HeatmapServices]. *)

From stdpp Require Import strings gmap.
From S2P Require Import Prelude Raster Reclassify RasterCalc Mosaic FillNoData GridAligner Heatmap.
From S2P Require Import IUHD Grid.

Inductive py_error :=
  | KeyError (k : string)
  | MosaicFailed (e : mosaic_error)
  | ReclassFailed (e : reclass_error)
  | CalcFailed (e : calc_error)
  | FieldCalcFailed (e : eval_error)  (* a field calculator's failure *)
  | GridFailed (e : grid_error)  (* native:creategrid's checks *)
  | ValueError.  (* numpy: arrays of different shapes *)

(** [outputs], with the [OUTPUT] of each stage. *)
Abbreviation outputs := (gmap string raster).

(** [outputs[k]['OUTPUT']] *)
Definition get (o : outputs) (k : string) : py_error + raster :=
  match o !! k with Some r => inr r | None => inl (KeyError k) end.

Definition lift_error {E E' A} (f : E -> E') (m : E + A) : E' + A :=
  match m with inl e => inl (f e) | inr x => inr x end.

Class GdalServices := {
  gdal_open : string -> raster;
  proximity : raster -> raster;
  clip_extent : window -> raster -> raster;
  slope : raster -> raster
}.

(** GRASS [r.reclass] with one rule; NULL cells are written as the
    output's no-data value [nd]. *)
Definition rreclass (lo hi k nd : Q) (r : raster) : raster :=
  mkRaster (cellmap (λ v, default nd (rreclass_rule lo hi k (nodata r) v)) (cells r)) (Some nd) (geo r).

(** ** The distance from the ocean (lines 171-196) *)

Section Ocean.
Context `{GdalServices}.

Definition ocean_stage (oceanDist : string) (landcover : raster) (projwin : window) (o : outputs)
    : py_error + outputs :=
  if String.eqb oceanDist "" then
    let o := <["ProximityRasterDistanceDistanceFromOceantemp" := proximity landcover]> o in
    r ← get o "ProximityRasterDistanceDistanceFromOcean";
    inr (<["ProximityRasterDistanceDistanceFromOcean" := clip_extent projwin r]> o)
  else inr (<["ProximityRasterDistanceDistanceFromOcean" := clip_extent projwin (gdal_open oceanDist)]> o).

(** The names the script has stored when it reaches line 171, in order
    (lines 111-160). *)
Definition keys_before_ocean : list string :=
  ["ClipLandcover"; "ClipManmade"; "ClipPowerlines"; "ClipGracing"; "ClipDSM"; "ClipDEM";
   "ClipCDSM"; "ClipLAI"; "ClipHeight0to5"; "ClipHeight5to45"].

Definition store_all (ks : list string) (rs : list raster) (o : outputs) : outputs :=
  foldl (λ o kr, <[kr.1 := kr.2]> o) o (zip ks rs).
End Ocean.

(** ** The oviposition model (lines 540-869) *)

Section Oviposition.
Context `{GdalServices} `{HeatmapServices}.
Variable rreclass_nodata : Q.

Definition store (k : string) (r : raster) (o : outputs) : outputs := <[k := r]> o.

(** Lines 540-636: the roof slopes, kept below 8 degrees and set to 129. *)
Definition roof_stages (inBuildbool inDSM : raster) (projwin : window) (o : outputs)
    : py_error + outputs :=
  let o := store "SlopeOfRooftopstemp" (slope inDSM) o in
  s ← get o "SlopeOfRooftopstemp";
  m ← lift_error CalcFailed (gdal_calc (CalcParams mask_roof_slopes (Some 130) 5) [inBuildbool; s]);
  let o := store "SlopeOfRooftops" m o in
  x ← get o "SlopeOfRooftops";
  let o := store "WarpReprojectTestingAllSlopesTo10mRes" (warp heatmap_warp_params projwin x) o in
  x ← get o "WarpReprojectTestingAllSlopesTo10mRes";
  s8 ← lift_error CalcFailed (gdal_calc (CalcParams slopes_over_8_to_nodata (Some 130) 5) [x]);
  let o := store "RasterCalculatorSetsSlopes8ToNodata" s8 o in
  x ← get o "RasterCalculatorSetsSlopes8ToNodata";
  inr (store "ReclassifyValuesRangeReclassifiesSlopes8" (rreclass 0 90 129 rreclass_nodata x) o).

(** The file list of a mosaic, written from [outputs] in order. *)
Definition mosaic_stage (o : outputs) (keys : list string) : py_error + raster :=
  rs ← mapM (get o) keys; lift_error MosaicFailed (mosaicrasters rs).

Definition lu_keys : list string :=
  ["ClipGracing"; "ClipManmade"; "ClipPowerlines"; "RasterizeVectorToRasterGardens";
   "RasterizeVectorToRasterIndustries"].

Definition lc_keys : list string := ["ClipLandcover"; "ReclassifyValuesRangeReclassifiesSlopes8"].

(** Lines 639-822: mosaics, fill, reclassification, mean and overlay. *)
Definition composite_stages (o : outputs) : py_error + outputs :=
  lu ← mosaic_stage o lu_keys;
  let o := store "MosaicRasterLayersLandUses" lu o in
  lc ← mosaic_stage o lc_keys;
  let o := store "MosaicRasterLayersLandCover" lc o in
  x ← get o "MosaicRasterLayersLandUses";
  let o := store "MosaicRasterLayersLandCoverND" (fillnodata 0 x) o in
  x ← get o "MosaicRasterLayersLandCover";
  rlc ← lift_error ReclassFailed (reclassifybytable (script_params 3 lctable) x);
  let o := store "ReclassifyValuesSimpleLandCover" rlc o in
  x ← get o "MosaicRasterLayersLandCoverND";
  rlu ← lift_error ReclassFailed (reclassifybytable (script_params 3 lutable) x);
  let o := store "ReclassifyValuesSimpleLandUse" rlu o in
  a ← get o "ReclassifyValuesSimpleLandUse";
  b ← get o "ReclassifyValuesSimpleLandCover";
  lclu ← lift_error CalcFailed (gdal_calc (script_calc mean_AB) [a; b]);
  let o := store "RasterCalculatorLCLU" lclu o in
  a ← get o "RasterCalculatorLCLU";
  b ← get o "ReclassifyValuesSimpleIUHD";
  wmca ← lift_error CalcFailed (gdal_calc (script_calc wmca_oviposition) [a; b]);
  inr (store "WMCAOviposition" wmca o).

(** Lines 823-869 with [useoldheatmaps == 0]. *)
Definition heatmap_stage (projwin : window) (o : outputs) : py_error + outputs :=
  x ← get o "WMCAOviposition";
  h ← lift_error CalcFailed (heatmap_ovi x projwin);
  inr (store "HeatmapWMCAOviposition" h o).

Definition oviposition_model (inBuildbool inDSM : raster) (projwin : window) (o : outputs)
    : py_error + outputs :=
  o ← roof_stages inBuildbool inDSM projwin o;
  o ← composite_stages o;
  heatmap_stage projwin o.
End Oviposition.

(** ** Reading the dictionary *)

Lemma get_inr (o : outputs) (k : string) (r : raster) : get o k = inr r <-> o !! k = Some r.
Proof. unfold get. destruct (o !! k); split; congruence. Qed.

Lemma lift_error_inr {E E' A} (f : E -> E') (m : E + A) (x : A) : lift_error f m = inr x <-> m = inr x.
Proof. destruct m; simpl; split; congruence. Qed.

Lemma store_all_notin (ks : list string) (rs : list raster) (o : outputs) (k : string) :
  k ∉ ks -> store_all ks rs o !! k = o !! k.
Proof.
  unfold store_all. revert rs o. induction ks as [|k' ks IH]; intros rs o Hk; [done|].
  destruct rs as [|r rs]; [done|]. simpl. rewrite not_elem_of_cons in Hk. destruct Hk as [Hk Hks].
  rewrite IH by done. simpl. by rewrite lookup_insert_ne.
Qed.

(** C23: when [oceanDist] is the empty string the script stores the
    proximity raster under [ProximityRasterDistanceDistanceFromOceantemp]
    (line 187) but reads [ProximityRasterDistanceDistanceFromOcean] (line
    189), which no stage before it stores: the branch always raises
    [KeyError]. *)
Theorem ocean_stage_keyerror `{GdalServices} (landcover : raster) (projwin : window) (rs : list raster) :
  ocean_stage "" landcover projwin (store_all keys_before_ocean rs ∅) =
    inl (KeyError "ProximityRasterDistanceDistanceFromOcean").
Proof.
  unfold ocean_stage, get. cbn [String.eqb Ascii.eqb].
  rewrite lookup_insert_ne by done. rewrite store_all_notin; [by rewrite lookup_empty|].
  apply (bool_decide_unpack _). vm_compute. exact I.
Qed.

(** ** The value domains of the oviposition stages *)

Lemma mosaic_stage_valid (o : outputs) (keys : list string) (r : raster) (P : Q -> Prop) :
  mosaic_stage o keys = inr r -> P 0 ->
  (forall k ri, k ∈ keys -> o !! k = Some ri ->
     all_cells (λ v, is_nodata (nodata ri) v = false -> P v) (cells ri)) ->
  all_cells P (cells r).
Proof.
  unfold mosaic_stage. intros (rs & Hrs & Hm)%sum_bind_inr H0 Hk. apply lift_error_inr in Hm.
  apply (mosaicrasters_valid rs r P Hm H0). apply mapM_sum_inr in Hrs. clear Hm.
  induction Hrs as [|k ri keys' rs' Hri _ IH]; constructor.
  - apply get_inr in Hri. apply (Hk k); [rewrite elem_of_cons; by left | done].
  - apply IH. intros k' ri' Hk'. apply Hk. rewrite elem_of_cons. by right.
Qed.

Lemma rreclass_valid (lo hi k nd : Q) (r : raster) :
  all_cells (λ v, is_nodata (Some nd) v = false -> v = k) (cells (rreclass lo hi k nd r)).
Proof.
  apply all_cells_cellmap. intros v. unfold rreclass_rule.
  destruct (is_nodata _ v); [|destruct (_ && _)]; cbn [default]; try done;
    intros H; by rewrite is_nodata_refl in H.
Qed.

(** The land-cover values the land-cover table classifies, and 0 (the
    mosaic's no-data). *)
Definition lc_covered (v : Q) : Prop :=
  v == 0 \/ is_Some (reclassify_value IncludeMax (classes_of_numbers lctable) v).

Lemma lutable_classes : Forall (λ k, 2 <= k <= 9) (map rc_value (classes_of_numbers lutable)).
Proof. apply (bool_decide_unpack _). vm_compute. exact I. Qed.

Lemma lctable_classes : Forall (λ k, 0 <= k <= 9) (map rc_value (classes_of_numbers lctable)).
Proof. apply (bool_decide_unpack _). vm_compute. exact I. Qed.

(** Every land-use value in [(-1, 16]] gets a class from 2 to 9. *)
Lemma lu_class_range (v : Q) :
  -1 < v <= 16 -> 2 <= default v (reclassify_value IncludeMax (classes_of_numbers lutable) v) <= 9.
Proof. intros Hv. apply (chain_class_range (-1)); [reflexivity | apply lutable_classes | exact Hv]. Qed.

Lemma lc_class_range (v : Q) :
  lc_covered v -> 0 <= default v (reclassify_value IncludeMax (classes_of_numbers lctable) v) <= 9.
Proof.
  intros [H0 | [k Hk]].
  - rewrite (reclassify_value_proper _ _ v 0 H0).
    replace (reclassify_value IncludeMax (classes_of_numbers lctable) 0) with (@None Q)
      by (vm_compute; reflexivity). cbn [default]. lra.
  - rewrite Hk. cbn [default]. apply reclassify_value_in in Hk.
    by apply (proj1 (Forall_forall _ _) lctable_classes).
Qed.

(** Written into the UInt32 bands of lines 736 and 768, the classes keep
    their ranges. *)
Lemma lu_write_range (v w : Q) :
  -1 < v <= 16 -> write_value UInt32 (default v (reclassify_value IncludeMax (classes_of_numbers lutable) v)) = Some w ->
  2 <= w <= 9.
Proof. intros Hv. apply (write_value_between UInt32 2 9). by apply lu_class_range. Qed.

Lemma lc_write_range (v w : Q) :
  lc_covered v -> write_value UInt32 (default v (reclassify_value IncludeMax (classes_of_numbers lctable) v)) = Some w ->
  0 <= w <= 9.
Proof. intros Hv. apply (write_value_between UInt32 0 9). by apply lc_class_range. Qed.

Lemma mean_AB_range (a b : Q) : 2 <= a <= 9 -> 0 <= b <= 9 -> 1 <= mean_AB [a; b] <= 9.
Proof.
  intros Ha Hb. unfold mean_AB, band_A, band_B. cbn [nth]. unfold Qdiv.
  change (Qinv 2) with (1 # 2). split; lra.
Qed.

Lemma wmca_oviposition_between (lo a b : Q) :
  1 <= a <= 9 -> lo <= b <= 10 -> 0.9 + 0.1 * lo <= wmca_oviposition [a; b] <= 9.1.
Proof. intros Ha Hb. unfold wmca_oviposition, band_A, band_B. cbn [nth]. split; lra. Qed.

Lemma get_store_eq (k : string) (r : raster) (o : outputs) : get (store k r o) k = inr r.
Proof. unfold get, store. by rewrite lookup_insert_eq. Qed.

Lemma get_store_ne (k k' : string) (r : raster) (o : outputs) :
  k <> k' -> get (store k r o) k' = get o k'.
Proof. intros Hk. unfold get, store. by rewrite lookup_insert_ne. Qed.

(** One step of a stage sequence: a read of the dictionary is resolved,
    a computation's result is named. *)
Ltac read_step H :=
  repeat (rewrite get_store_eq in H || rewrite get_store_ne in H by done); cbn [mbind sum_mbind] in H.

Ltac bind_step H :=
  let x := fresh "x" in let Hx := fresh "Hx" in
  apply sum_bind_inr in H as (x & Hx & H); rewrite ?lift_error_inr in Hx.

(** The valid cells of the composite from those of its inputs. *)
Lemma composite_stages_valid_lo (lo : Q) (o o' : outputs) :
  composite_stages o = inr o' ->
  (forall k r, k ∈ lu_keys -> o !! k = Some r ->
     all_cells (λ v, is_nodata (nodata r) v = false -> -1 < v <= 16) (cells r)) ->
  (forall k r, k ∈ lc_keys -> o !! k = Some r ->
     all_cells (λ v, is_nodata (nodata r) v = false -> lc_covered v) (cells r)) ->
  (forall r, o !! "ReclassifyValuesSimpleIUHD" = Some r ->
     all_cells (λ v, is_nodata (nodata r) v = false -> lo <= v <= 10) (cells r)) ->
  exists w, o' !! "WMCAOviposition" = Some w /\
    all_cells (λ z, is_nodata (nodata w) z = false -> 0.9 + 0.1 * lo <= z <= 9.1) (cells w).
Proof.
  intros Hc Hlu Hlc Hiuhd. unfold composite_stages in Hc.
  bind_step Hc. bind_step Hc. read_step Hc. read_step Hc. bind_step Hc. read_step Hc.
  bind_step Hc. read_step Hc. read_step Hc. bind_step Hc. read_step Hc. read_step Hc.
  bind_step Hc. apply get_inr in Hx4. bind_step Hc. injection Hc as <-.
  exists x5. split; [unfold store; by rewrite lookup_insert_eq|].
  (* land use: mosaic, fill, reclassification *)
  assert (Hlu1 := mosaic_stage_valid _ _ _ (λ v, -1 < v <= 16) Hx ltac:(split; lra) Hlu).
  assert (Hfill : all_cells (λ v, -1 < v <= 16) (cells (fillnodata 0 x))).
  { apply all_cells_fillnodata; [cbv beta; split; lra|]. eapply all_cells_impl; [exact Hlu1|]. auto. }
  assert (Hlu2 : all_cells (λ v, is_nodata (nodata x2) v = false -> 2 <= v <= 9) (cells x2)).
  { apply (reclassify_script_valid 3 UInt32 lutable _ _ (λ v, -1 < v <= 16) _ eq_refl eq_refl Hx2);
      [|apply lu_write_range].
    eapply all_cells_impl; [exact Hfill|]. auto. }
  (* land cover: mosaic and reclassification *)
  assert (Hlc1 : all_cells lc_covered (cells x0)).
  { apply (mosaic_stage_valid _ _ _ _ Hx0); [by left|]. intros k ri Hk. unfold store.
    rewrite lookup_insert_ne; [by apply Hlc|]. intros <-. revert Hk. apply (bool_decide_unpack _).
    vm_compute. exact I. }
  assert (Hlc2 : all_cells (λ v, is_nodata (nodata x1) v = false -> 0 <= v <= 9) (cells x1)).
  { apply (reclassify_script_valid 3 UInt32 lctable _ _ lc_covered _ eq_refl eq_refl Hx1); [|apply lc_write_range].
    eapply all_cells_impl; [exact Hlc1|]. auto. }
  (* the mean and the overlay *)
  assert (Hmean := gdal_calc_valid_cells _ _ _ [λ v, 2 <= v <= 9; λ v, 0 <= v <= 9] (λ z, 1 <= z <= 9) Hx3
    ltac:(repeat constructor; assumption)
    ltac:(intros vs (a & b & -> & Ha & Hb)%Forall2_two; by apply mean_AB_range)).
  apply (gdal_calc_valid_cells _ _ _ [λ v, 1 <= v <= 9; λ v, lo <= v <= 10] _ Hx5).
  - repeat constructor; [exact Hmean | by apply Hiuhd].
  - intros vs (a & b & -> & Ha & Hb)%Forall2_two. by apply wmca_oviposition_between.
Qed.

(** ** One-pixel rasters for the examples *)

Definition px (v : Q) : raster := mkRaster [[v]] (Some (-9999)) (mkGeo 650000 10 0 6640000 0 (-10)).
