(* ===== verification/Stages.v ===== *)
(** * Statements on the [outputs] dictionary

    From line 917 on, the script is a sequence of statements, each of
    one of four kinds: [native:fillnodata] with [FILL_VALUE 0]
    ([fill_stage]), [native:reclassifybytable] with the script's
    parameters ([reclass_stage]), [gdal:rastercalculator] with
    [NO_DATA None] and [RTYPE 5] ([calc_stage]), and the script's
    [mosaicrasters] on a file list ([mosaic_store]).  [run_stages] runs a
    list of statements in order; the first exception stops it.

    This file holds the statement kinds and what they guarantee:
    - on rasters of one shape, each kind succeeds and stores a raster of
      that shape ([shaped], [stage_ok] and one lemma per kind), and a
      sequence whose statements find what they read succeeds
      ([run_stages_ok]);
    - a calculator statement stores a raster whose valid cells satisfy
      what the formula makes of its operands' predicates
      ([calc_stage_valid]). *)

From stdpp Require Import strings gmap.
From S2P Require Import Prelude Raster Reclassify RasterCalc Mosaic FillNoData Pipeline.

(** ** The four kinds of statement *)

(** [outputs[dst] = processing.run("native:fillnodata", {'INPUT': outputs[src]['OUTPUT'], 'FILL_VALUE': 0, ...})] *)
Definition fill_stage (src dst : string) (o : outputs) : py_error + outputs :=
  x ← get o src; inr (store dst (fillnodata 0 x) o).

(** [outputs[dst] = processing.run('native:reclassifybytable', {'INPUT_RASTER': outputs[src]['OUTPUT'], 'TABLE': t, 'DATA_TYPE': dt, ...})] *)
Definition reclass_stage (dt : nat) (t : list Q) (src dst : string) (o : outputs) : py_error + outputs :=
  x ← get o src;
  r ← lift_error ReclassFailed (reclassifybytable (script_params dt t) x);
  inr (store dst r o).

(** [outputs[dst] = processing.run('gdal:rastercalculator', {'FORMULA': f, 'INPUT_A': outputs[srcs[0]]['OUTPUT'], ...})] *)
Definition calc_stage (f : list Q -> Q) (srcs : list string) (dst : string) (o : outputs)
    : py_error + outputs :=
  rs ← mapM (get o) srcs;
  r ← lift_error CalcFailed (gdal_calc (script_calc f) rs);
  inr (store dst r o).

(** The file list written from [outputs], [mosaicrasters], and
    [outputs[dst] = {'TARGET_OUT_GRID': ...}]. *)
Definition mosaic_store (srcs : list string) (dst : string) (o : outputs) : py_error + outputs :=
  r ← mosaic_stage o srcs; inr (store dst r o).

(** ** The whole sequence *)

(** The script as a sequence of statements on [outputs]: each runs on the
    dictionary the previous one left, and the first exception stops it. *)
Fixpoint run_stages (ss : list (outputs -> py_error + outputs)) (o : outputs) : py_error + outputs :=
  match ss with
  | [] => inr o
  | s :: ss' => o' ← s o; run_stages ss' o'
  end.

(** ** Every statement runs on rasters of one shape *)

(** The dictionary holds a raster of shape [s] under each name of [K]. *)
Definition shaped (s : list nat) (K : list string) (o : outputs) : Prop :=
  forall k, k ∈ K -> exists r, o !! k = Some r /\ shape (cells r) = s.

(** A statement that reads the names [rd] and stores the names [wr]:
    on a dictionary holding rasters of shape [s] under (at least) [rd], it
    succeeds and leaves rasters of shape [s] under [wr] and under the names
    it had. *)
Definition stage_ok (s : list nat) (rd wr : list string) (st : outputs -> py_error + outputs) : Prop :=
  forall K o, rd ⊆ K -> shaped s K o -> exists o', st o = inr o' /\ shaped s (wr ++ K) o'.

Lemma shaped_store (s : list nat) (K : list string) (o : outputs) (k : string) (r : raster) :
  shaped s K o -> shape (cells r) = s -> shaped s (k :: K) (store k r o).
Proof.
  intros HK Hr k' Hk'. unfold store. destruct (decide (k = k')) as [<-|Hne].
  - exists r. by rewrite lookup_insert_eq.
  - rewrite lookup_insert_ne by done. apply HK. apply elem_of_cons in Hk' as [->|]; done.
Qed.

Lemma shaped_get (s : list nat) (K : list string) (o : outputs) (k : string) :
  shaped s K o -> k ∈ K -> exists r, get o k = inr r /\ shape (cells r) = s.
Proof. intros HK Hk. destruct (HK k Hk) as (r & Hr & Hs). exists r. by rewrite get_inr. Qed.

Lemma shaped_mapM (s : list nat) (K : list string) (o : outputs) (ks : list string) :
  shaped s K o -> ks ⊆ K ->
  exists rs, mapM (get o) ks = inr rs /\ Forall (λ r, shape (cells r) = s) rs /\ length rs = length ks.
Proof.
  intros HK Hks. destruct (mapM_sum_Forall_exists (get o) (λ r, shape (cells r) = s) ks)
    as (rs & Hrs & Hs).
  - apply Forall_forall. intros k Hk. apply (shaped_get s K o k HK). by apply Hks.
  - exists rs. split_and!; [done | done |]. apply mapM_sum_inr in Hrs. symmetry.
    by apply Forall2_length in Hrs.
Qed.

Lemma fill_stage_ok (s : list nat) (src dst : string) : stage_ok s [src] [dst] (fill_stage src dst).
Proof.
  intros K o Hrd HK. destruct (shaped_get s K o src HK) as (x & Hx & Hs); [set_solver|].
  exists (store dst (fillnodata 0 x) o). split; [unfold fill_stage; by rewrite Hx|].
  apply shaped_store; [done|]. cbn [cells fillnodata]. by rewrite shape_cellmap.
Qed.

(** A Float32 reclassification ([DATA_TYPE 5]) always goes right. *)
Lemma reclass_stage_ok (s : list nat) (t : list Q) (src dst : string) :
  (length t mod 3 = 0)%nat -> stage_ok s [src] [dst] (reclass_stage 5 t src dst).
Proof.
  intros Ht K o Hrd HK. destruct (shaped_get s K o src HK) as (x & Hx & Hs); [set_solver|].
  exists (store dst (mkRaster (cellmap (reclassify_cell IncludeMax (classes_of_numbers t) (nodata x) (-9999) false)
                                 (cells x)) (Some (-9999)) (geo x)) o). split.
  - unfold reclass_stage. rewrite Hx. cbn [mbind sum_mbind]. by rewrite reclassifybytable_float.
  - apply shaped_store; [done|]. cbn [cells]. by rewrite shape_cellmap.
Qed.

Lemma calc_stage_ok (s : list nat) (f : list Q -> Q) (srcs : list string) (dst : string) :
  srcs <> [] -> stage_ok s srcs [dst] (calc_stage f srcs dst).
Proof.
  intros Hne K o Hrd HK. destruct (shaped_mapM s K o srcs HK Hrd) as (rs & Hrs & Hs & Hlen).
  destruct (gdal_calc_ok_shape f rs s) as (r & Hr & Hrs'); [|done|].
  { intros ->. destruct srcs; done. }
  exists (store dst r o). split; [|by apply shaped_store].
  unfold calc_stage. rewrite Hrs. cbn [mbind sum_mbind]. by rewrite Hr.
Qed.

Lemma mosaic_store_ok (s : list nat) (srcs : list string) (dst : string) :
  srcs <> [] -> stage_ok s srcs [dst] (mosaic_store srcs dst).
Proof.
  intros Hne K o Hrd HK. destruct (shaped_mapM s K o srcs HK Hrd) as (rs & Hrs & Hs & Hlen).
  destruct rs as [|r0 rs]; [destruct srcs; done|]. apply Forall_cons in Hs as [H0 Hs].
  assert (Hsame : Forall (λ r, shape (cells r) = shape (cells r0)) rs).
  { eapply Forall_impl; [exact Hs|]. intros r ->. done. }
  exists (store dst (saveraster (List.last rs r0) (mosaic_ref r0 rs)) o). split.
  - unfold mosaic_store, mosaic_stage. rewrite Hrs. cbn [mbind sum_mbind].
    rewrite mosaicrasters_cons, foldo_same_shape; [done|]. by rewrite shape_zero_nodata.
  - apply shaped_store; [done|]. cbn [cells saveraster]. by rewrite shape_mosaic_ref.
Qed.

(** Two statements in sequence: the second reads what the first stored or
    what the sequence reads. *)
Lemma stage_ok_bind (s : list nat) (rd rd1 wr1 rd2 wr2 : list string) (st1 st2 : outputs -> py_error + outputs) :
  stage_ok s rd1 wr1 st1 -> stage_ok s rd2 wr2 st2 -> rd1 ⊆ rd -> rd2 ⊆ wr1 ++ rd ->
  stage_ok s rd (wr2 ++ wr1) (λ o, o' ← st1 o; st2 o').
Proof.
  intros H1 H2 Hrd1 Hrd2 K o Hrd HK.
  destruct (H1 K o) as (o1 & Ho1 & HK1); [by transitivity rd | done |].
  destruct (H2 (wr1 ++ K) o1) as (o2 & Ho2 & HK2); [|done|].
  { intros x Hx. apply Hrd2, elem_of_app in Hx as [Hx|Hx]; apply elem_of_app; [by left | right; by apply Hrd]. }
  exists o2. rewrite Ho1. cbn [mbind sum_mbind]. split; [done|]. by rewrite <- app_assoc.
Qed.

(** A statement with the names it reads and the names it stores. *)
Abbreviation footprint := (list string * list string * (outputs -> py_error + outputs))%type.

(** Each statement of a sequence finds the names it reads: among the
    names the dictionary had and those the statements before it stored. *)
Fixpoint available (K : list string) (fs : list footprint) : bool :=
  match fs with
  | [] => true
  | (rd, wr, _) :: fs' => bool_decide (rd ⊆ K) && available (wr ++ K) fs'
  end.

Fixpoint written (K : list string) (fs : list footprint) : list string :=
  match fs with
  | [] => K
  | (_, wr, _) :: fs' => written (wr ++ K) fs'
  end.

Lemma run_stages_ok (s : list nat) (fs : list footprint) (K : list string) (o : outputs) :
  Forall (λ f, stage_ok s f.1.1 f.1.2 f.2) fs -> available K fs = true -> shaped s K o ->
  exists o', run_stages (map snd fs) o = inr o' /\ shaped s (written K fs) o'.
Proof.
  revert K o. induction fs as [|[[rd wr] st] fs IH]; intros K o Hok Hav HK; [by exists o|].
  apply Forall_cons in Hok as [Hst Hok]. cbn in Hav, Hst. apply andb_true_iff in Hav as [Hrd Hav].
  apply bool_decide_eq_true in Hrd. destruct (Hst K o Hrd HK) as (o1 & Ho1 & HK1).
  destruct (IH (wr ++ K) o1 Hok Hav HK1) as (o2 & Ho2 & HK2).
  exists o2. cbn [run_stages map snd] in *. rewrite Ho1. done.
Qed.

(** A finite inclusion of names, by computation. *)
Ltac names_sub := apply (bool_decide_unpack _); vm_compute; exact I.

(** ** The range of the adult composite *)

(** The valid cells of [r] satisfy [P]. *)
Definition valid_in (P : Q -> Prop) (r : raster) : Prop :=
  all_cells (λ v, is_nodata (nodata r) v = false -> P v) (cells r).

(** The inputs a statement reads with [mapM] carry the predicates their
    names promise. *)
Lemma mapM_get_valid (o : outputs) (ks : list string) (rs : list raster) (Ps : list (Q -> Prop)) :
  mapM (get o) ks = inr rs ->
  Forall2 (λ k P, forall r, o !! k = Some r -> valid_in P r) ks Ps ->
  Forall2 valid_in Ps rs.
Proof.
  intros Hrs%mapM_sum_inr. revert Ps. induction Hrs as [|k r ks rs Hr _ IH]; intros Ps HP;
    inversion HP; subst; constructor; [apply get_inr in Hr; eauto | by apply IH].
Qed.

(** A calculator statement stores one raster, whose valid cells satisfy
    what the formula makes of its operands' predicates. *)
Lemma calc_stage_valid (f : list Q -> Q) (srcs : list string) (dst : string) (o o' : outputs)
    (Ps : list (Q -> Prop)) (Qp : Q -> Prop) :
  calc_stage f srcs dst o = inr o' ->
  Forall2 (λ k P, forall r, o !! k = Some r -> valid_in P r) srcs Ps ->
  (forall vs, Forall2 (λ P v, P v) Ps vs -> Qp (f vs)) ->
  exists r, o' = store dst r o /\ valid_in Qp r.
Proof.
  unfold calc_stage. intros (rs & Hrs & Hc)%sum_bind_inr HPs Hf.
  apply sum_bind_inr in Hc as (r & Hr & [= <-]). apply lift_error_inr in Hr.
  exists r. split; [done|]. apply (gdal_calc_valid_cells _ _ _ Ps _ Hr); [|done].
  by apply (mapM_get_valid o srcs).
Qed.

(** [Forall2] against an explicit list of predicates, one operand each. *)
Ltac forall2_elim H :=
  repeat (apply Forall2_cons_inv_l in H as (? & ? & ? & H & ->)); apply Forall2_nil_inv_l in H as ->.
(** Splits [Forall2] of two explicit lists into its pairs. *)
Ltac forall2_intro := repeat (apply List.Forall2_cons || apply List.Forall2_nil).

