(* ===== verification/Adult.v ===== *)
(** * The adult model (lines 917-1557)

    After the oviposition heatmap the script computes the adult habitat
    composite [WMCA_adult.tif].  Its raster part is a sequence of
    statements on the dictionary [outputs], each an instance of one of the
    four kinds of [Stages] (fill, reclassification, calculator, mosaic).
    Each statement is a definition named after its [print] line; the
    model [adult_model] runs them in the script's order with [run_stages]
    and ends with the wind combination and the two adult overlays (lines
    1501-1557).

    The vector stages among them (morphometric calculators, zonal
    statistics, rasterizations, and the field calculators, two of which
    are modelled on features in [AdultVector]) are external here: their
    rasters are inputs, found in [outputs] under the names the script
    stores them under.  The wind-reduction formula [2.6 * 2.71828 ** (-0.015 * A)]
    (line 1422) uses numpy's power on floats, a section variable [qpow]
    here: no theorem assumes anything of it. *)

From stdpp Require Import strings gmap.
From S2P Require Import Prelude Raster Reclassify RasterCalc Mosaic FillNoData Pipeline Stages.

(** ** The statements of lines 917-1498 *)

Definition remove_nodata_lai := fill_stage "ClipLAI" "ReclassifyValuesSingleRemoveNodataLai".
Definition reclass_nmdgrund := reclass_stage 5 nmdgrundtable "ClipLandcover" "ReclassifyByTableNmdgrund".
Definition fill_objekthojd0_5 := fill_stage "ClipHeight0to5" "ReclassifyValuesSingleObjekthojd0_5".
Definition fill_objekthojd5_45 := fill_stage "ClipHeight5to45" "ReclassifyValuesSingleObjekthojd5_45".
Definition reclass_lai :=
  reclass_stage 5 laitable "ReclassifyValuesSingleRemoveNodataLai" "ReclassifyByTableLai".
Definition reclass_heatmaphotspot :=
  reclass_stage 5 costtable "HeatmapWMCAOviposition" "ReclassifyByTableHeatmaphotspot".
Definition vegetation_from_nmd_stage :=
  calc_stage vegetation_from_nmd ["ClipLandcover"] "RasterCalculatorGetVegetationFromNmd".
Definition reclass_vegpai :=
  reclass_stage 5 vegpaitable "RasterizeVectorToRasterVegpai" "ReclassifyValuesTableVeg_pai".
Definition fill_faibuild :=
  fill_stage "RasterizeVectorToRasterFaibuild" "ReclassifyValuesSingleRemoveNodataFaibuild".
Definition fill_landcovervector :=
  fill_stage "RasterizeVectorToRasterLandcovervectorToRaster"
    "ReclassifyValuesSingleLandcovervectorrasterNodataTo0".
Definition merge_heights :=
  mosaic_store ["ReclassifyValuesSingleObjekthojd0_5"; "ReclassifyValuesSingleObjekthojd5_45"]
    "MosaicRasterLayersMergeHeights".
Definition reclass_windspeedheight :=
  reclass_stage 5 windheighttable "RasterizeVectorToRasterWindPowerLaw" "ReclassifyByTableWindspeedheight".
Definition fill_faiveg :=
  fill_stage "RasterizeVectorToRasterFaiveg" "ReclassifyValuesSingleRemoveNodataFaiveg".
Definition reclass0to1_lai :=
  reclass_stage 5 nozerotable "ReclassifyByTableLai" "ReclassifyValuesSingleReclass0To1Lai".
Definition vegetation_heights_stage :=
  calc_stage vegetation_heights ["RasterCalculatorGetVegetationFromNmd"; "MosaicRasterLayersMergeHeights"]
    "RasterCalculatorGetVegetationHeights".
Definition ocean_distance_km_stage :=
  calc_stage ocean_distance_km ["ProximityRasterDistanceDistanceFromOcean"] "RasterCalculatorOceanDistanceInKm".
Definition reclass_vegheights :=
  reclass_stage 5 vegheighttable "RasterCalculatorGetVegetationHeights" "ReclassifyByTableVegheights".
Definition laifai_combo_stage :=
  calc_stage laifai_combo
    ["ReclassifyValuesSingleReclass0To1Lai"; "ReclassifyValuesSingleRemoveNodataFaiveg";
     "ReclassifyValuesSingleRemoveNodataFaibuild"] "RasterCalculatorLaifaicombo".
Definition reclass0to1_vegheight :=
  reclass_stage 5 nozerotable "ReclassifyByTableVegheights" "ReclassifyValuesSingleReclass0To1Vegheight".
Definition reclass_laifai :=
  reclass_stage 5 laifaitable "RasterCalculatorLaifaicombo" "ReclassifyByTableLaifaiSkaBliOutput".
Definition reclass_windreduxocean :=
  reclass_stage 5 windreduxoceantable "RasterCalculatorWindreduxocean" "ReclassifyByTableWindreduxocean".
Definition reclass0to1_laifai :=
  reclass_stage 5 nozerotable "ReclassifyByTableLaifaiSkaBliOutput" "ReclassifyValuesSingleReclass0To1Laifai".

(** ** The adult composite (lines 1501-1557) *)

(** The inputs of [AdultsMCA1], in the order [INPUT_A] .. [INPUT_F]
    (lines 1523-1528). *)
Definition adults_mca1_keys : list string :=
  ["ReclassifyValuesSingleReclass0To1Lai"; "ReclassifyByTableHeatmaphotspot";
   "ReclassifyValuesSingleLandcovervectorrasterNodataTo0"; "RasterCalculatorCombineOceanHeightWind";
   "ReclassifyValuesTableVeg_pai"; "ReclassifyValuesSingleReclass0To1Vegheight"].

(** The inputs of [AdultsMCA2] (lines 1546-1548). *)
Definition adults_mca2_keys : list string :=
  ["ReclassifyValuesSingleReclass0To1Laifai"; "ReclassifyByTableNmdgrund"; "AdultsMCA1"].

(** The nine criteria rasters the three calls read that earlier
    statements stored. *)
Definition adult_criteria_keys : list string :=
  ["ReclassifyByTableWindspeedheight"; "ReclassifyByTableWindreduxocean";
   "ReclassifyValuesSingleReclass0To1Lai"; "ReclassifyByTableHeatmaphotspot";
   "ReclassifyValuesSingleLandcovervectorrasterNodataTo0"; "ReclassifyValuesTableVeg_pai";
   "ReclassifyValuesSingleReclass0To1Vegheight"; "ReclassifyValuesSingleReclass0To1Laifai";
   "ReclassifyByTableNmdgrund"].

(** The wind combination [(A + B) / 2] (lines 1501-1516), then the two
    adult overlays. *)
Definition adult_stages (o : outputs) : py_error + outputs :=
  o ← calc_stage mean_AB ["ReclassifyByTableWindspeedheight"; "ReclassifyByTableWindreduxocean"]
        "RasterCalculatorCombineOceanHeightWind" o;
  o ← calc_stage adults_mca1 adults_mca1_keys "AdultsMCA1" o;
  calc_stage adults_mca2 adults_mca2_keys "AdultsMCA2" o.

Section AdultModel.
(** numpy's [**] on floats. *)
Variable qpow : Q -> Q -> Q.

(** [(2.6 * 2.71828 ** (-0.015 * A))] (line 1422). *)
Definition wind_redux_ocean (v : list Q) : Q := 2.6 * qpow 2.71828 (-0.015 * band_A v).

Definition windreduxocean_stage :=
  calc_stage wind_redux_ocean ["RasterCalculatorOceanDistanceInKm"] "RasterCalculatorWindreduxocean".

(** The raster statements of lines 917-1498 in the script's order. *)
Definition adult_raster_stages : list (outputs -> py_error + outputs) :=
  [remove_nodata_lai; reclass_nmdgrund; fill_objekthojd0_5; fill_objekthojd5_45; reclass_lai;
   reclass_heatmaphotspot; vegetation_from_nmd_stage; reclass_vegpai; fill_faibuild;
   fill_landcovervector; merge_heights; reclass_windspeedheight; fill_faiveg; reclass0to1_lai;
   vegetation_heights_stage; ocean_distance_km_stage; reclass_vegheights; laifai_combo_stage;
   reclass0to1_vegheight; windreduxocean_stage; reclass_laifai; reclass_windreduxocean;
   reclass0to1_laifai].

Definition adult_model (o : outputs) : py_error + outputs :=
  run_stages (adult_raster_stages ++ [adult_stages]) o.
End AdultModel.

(** The rasters of earlier parts of the script the adult model reads:
    clips (lines 111-160), the heatmap (line 869), the ocean distance
    (line 196) and the rasterized vector stages. *)
Definition adult_inputs : list string :=
  ["ClipLAI"; "ClipLandcover"; "ClipHeight0to5"; "ClipHeight5to45"; "HeatmapWMCAOviposition";
   "RasterizeVectorToRasterVegpai"; "RasterizeVectorToRasterFaibuild";
   "RasterizeVectorToRasterLandcovervectorToRaster"; "RasterizeVectorToRasterWindPowerLaw";
   "RasterizeVectorToRasterFaiveg"; "ProximityRasterDistanceDistanceFromOcean"].

Lemma adult_stages_stage_ok (s : list nat) :
  stage_ok s adult_criteria_keys ["AdultsMCA2"; "AdultsMCA1"; "RasterCalculatorCombineOceanHeightWind"]
    adult_stages.
Proof.
  assert (Hwind := calc_stage_ok s mean_AB ["ReclassifyByTableWindspeedheight"; "ReclassifyByTableWindreduxocean"]
                     "RasterCalculatorCombineOceanHeightWind" ltac:(done)).
  assert (H1 := calc_stage_ok s adults_mca1 adults_mca1_keys "AdultsMCA1" ltac:(done)).
  assert (H2 := calc_stage_ok s adults_mca2 adults_mca2_keys "AdultsMCA2" ltac:(done)).
  assert (H12 := stage_ok_bind s (adults_mca1_keys ++ ["ReclassifyValuesSingleReclass0To1Laifai"; "ReclassifyByTableNmdgrund"])
                   _ _ _ _ _ _ H1 H2 ltac:(names_sub) ltac:(names_sub)).
  exact (stage_ok_bind s adult_criteria_keys _ _ _ _ _ _ Hwind H12 ltac:(names_sub) ltac:(names_sub)).
Qed.

Section AdultModelFacts.
Variable qpow : Q -> Q -> Q.

(** The statements of [adult_model] with what each reads and stores. *)
Definition adult_footprints : list footprint :=
  [(["ClipLAI"], ["ReclassifyValuesSingleRemoveNodataLai"], remove_nodata_lai);
   (["ClipLandcover"], ["ReclassifyByTableNmdgrund"], reclass_nmdgrund);
   (["ClipHeight0to5"], ["ReclassifyValuesSingleObjekthojd0_5"], fill_objekthojd0_5);
   (["ClipHeight5to45"], ["ReclassifyValuesSingleObjekthojd5_45"], fill_objekthojd5_45);
   (["ReclassifyValuesSingleRemoveNodataLai"], ["ReclassifyByTableLai"], reclass_lai);
   (["HeatmapWMCAOviposition"], ["ReclassifyByTableHeatmaphotspot"], reclass_heatmaphotspot);
   (["ClipLandcover"], ["RasterCalculatorGetVegetationFromNmd"], vegetation_from_nmd_stage);
   (["RasterizeVectorToRasterVegpai"], ["ReclassifyValuesTableVeg_pai"], reclass_vegpai);
   (["RasterizeVectorToRasterFaibuild"], ["ReclassifyValuesSingleRemoveNodataFaibuild"], fill_faibuild);
   (["RasterizeVectorToRasterLandcovervectorToRaster"],
    ["ReclassifyValuesSingleLandcovervectorrasterNodataTo0"], fill_landcovervector);
   (["ReclassifyValuesSingleObjekthojd0_5"; "ReclassifyValuesSingleObjekthojd5_45"],
    ["MosaicRasterLayersMergeHeights"], merge_heights);
   (["RasterizeVectorToRasterWindPowerLaw"], ["ReclassifyByTableWindspeedheight"], reclass_windspeedheight);
   (["RasterizeVectorToRasterFaiveg"], ["ReclassifyValuesSingleRemoveNodataFaiveg"], fill_faiveg);
   (["ReclassifyByTableLai"], ["ReclassifyValuesSingleReclass0To1Lai"], reclass0to1_lai);
   (["RasterCalculatorGetVegetationFromNmd"; "MosaicRasterLayersMergeHeights"],
    ["RasterCalculatorGetVegetationHeights"], vegetation_heights_stage);
   (["ProximityRasterDistanceDistanceFromOcean"], ["RasterCalculatorOceanDistanceInKm"],
    ocean_distance_km_stage);
   (["RasterCalculatorGetVegetationHeights"], ["ReclassifyByTableVegheights"], reclass_vegheights);
   (["ReclassifyValuesSingleReclass0To1Lai"; "ReclassifyValuesSingleRemoveNodataFaiveg";
     "ReclassifyValuesSingleRemoveNodataFaibuild"], ["RasterCalculatorLaifaicombo"], laifai_combo_stage);
   (["ReclassifyByTableVegheights"], ["ReclassifyValuesSingleReclass0To1Vegheight"], reclass0to1_vegheight);
   (["RasterCalculatorOceanDistanceInKm"], ["RasterCalculatorWindreduxocean"], windreduxocean_stage qpow);
   (["RasterCalculatorLaifaicombo"], ["ReclassifyByTableLaifaiSkaBliOutput"], reclass_laifai);
   (["RasterCalculatorWindreduxocean"], ["ReclassifyByTableWindreduxocean"], reclass_windreduxocean);
   (["ReclassifyByTableLaifaiSkaBliOutput"], ["ReclassifyValuesSingleReclass0To1Laifai"], reclass0to1_laifai);
   (adult_criteria_keys, ["AdultsMCA2"; "AdultsMCA1"; "RasterCalculatorCombineOceanHeightWind"],
    adult_stages)].

Lemma adult_footprints_ok (s : list nat) : Forall (λ f, stage_ok s f.1.1 f.1.2 f.2) adult_footprints.
Proof.
  repeat apply List.Forall_cons; try apply List.Forall_nil; cbn [fst snd];
    first [ apply fill_stage_ok | apply reclass_stage_ok; reflexivity | apply calc_stage_ok; done
          | apply mosaic_store_ok; done | apply adult_stages_stage_ok ].
Qed.

(** C12: the adult model runs to the end: when the eleven rasters it
    reads from earlier parts of the script are in the dictionary and share
    one shape, every one of its twenty-six statements (lines 917-1557)
    succeeds, and [WMCA_adult.tif] has that shape. *)
Theorem adult_model_ok (o : outputs) (s : list nat) :
  shaped s adult_inputs o ->
  exists o', adult_model qpow o = inr o' /\
    exists w, o' !! "AdultsMCA2" = Some w /\ shape (cells w) = s.
Proof.
  intros Ho. destruct (run_stages_ok s adult_footprints adult_inputs o) as (o' & Ho' & Hs');
    [apply adult_footprints_ok | vm_compute; reflexivity | done |].
  exists o'. split; [exact Ho'|]. apply Hs'. names_sub.
Qed.
End AdultModelFacts.

(** ** The range of the adult composite *)

Lemma mean_AB_between (lo hi a b : Q) : lo <= a <= hi -> lo <= b <= hi -> lo <= mean_AB [a; b] <= hi.
Proof.
  intros Ha Hb. unfold mean_AB, band_A, band_B. cbn [nth]. unfold Qdiv.
  change (Qinv 2) with (1 # 2). split; lra.
Qed.


Lemma adults_mca1_between (lo hi : Q) (vs : list Q) :
  Forall2 (λ P v, P v) (replicate 6 (λ v, lo <= v <= hi)) vs ->
  0.85 * lo <= adults_mca1 vs <= 0.85 * hi.
Proof.
  cbn [replicate]. intros H. forall2_elim H.
  unfold adults_mca1, band_A, band_B, band_C, band_D, band_E, band_F. cbn [nth]. split; lra.
Qed.

Lemma adults_mca2_between (lo hi : Q) (vs : list Q) :
  Forall2 (λ P v, P v) [λ v, lo <= v <= hi; λ v, lo <= v <= hi; λ v, 0.85 * lo <= v <= 0.85 * hi] vs ->
  lo <= adults_mca2 vs <= hi.
Proof.
  intros H. forall2_elim H. unfold adults_mca2, band_A, band_B, band_C. cbn [nth]. split; lra.
Qed.

(** A name read after some stores: the value just stored, or one of the
    criteria the hypothesis [Hin] describes. *)
Ltac stored_valid Hin :=
  let r := fresh "r" in let Hr := fresh "Hr" in
  intros r Hr; unfold store in Hr;
  repeat (rewrite lookup_insert_eq in Hr || rewrite lookup_insert_ne in Hr by done);
  first [ injection Hr as <-; assumption
        | eapply Hin; [|exact Hr]; apply list_elem_of_In; cbn [In adult_criteria_keys]; tauto ].

(** C11: the adult composite of lines 1501-1557 stays in the range of its
    criteria: when the valid cells of the nine criteria rasters lie in
    [[lo, hi]], so do the valid cells of [AdultsMCA2] ([WMCA_adult.tif]):
    the wind combination is a mean, the first overlay's weights sum to
    0.85 and the second adds 0.1 and 0.05. *)
Theorem adult_stages_range (lo hi : Q) (o o' : outputs) :
  adult_stages o = inr o' ->
  (forall k r, k ∈ adult_criteria_keys -> o !! k = Some r -> valid_in (λ v, lo <= v <= hi) r) ->
  exists m, o' !! "AdultsMCA2" = Some m /\ valid_in (λ z, lo <= z <= hi) m.
Proof.
  intros Hc Hin. unfold adult_stages in Hc.
  apply sum_bind_inr in Hc as (o1 & H1 & Hc). apply sum_bind_inr in Hc as (o2 & H2 & H3).
  destruct (calc_stage_valid _ _ _ _ _ [λ v, lo <= v <= hi; λ v, lo <= v <= hi] (λ v, lo <= v <= hi) H1)
    as (w & -> & Hw).
  { forall2_intro; stored_valid Hin. }
  { intros vs H. forall2_elim H. by apply mean_AB_between. }
  destruct (calc_stage_valid _ _ _ _ _ (replicate 6 (λ v, lo <= v <= hi)) (λ v, 0.85 * lo <= v <= 0.85 * hi) H2) as (m1 & -> & Hm1);
    [cbn [adults_mca1_keys replicate]; forall2_intro; stored_valid Hin | apply adults_mca1_between |].
  destruct (calc_stage_valid _ _ _ _ _
              [λ v, lo <= v <= hi; λ v, lo <= v <= hi; λ v, 0.85 * lo <= v <= 0.85 * hi] (λ v, lo <= v <= hi) H3)
    as (m2 & -> & Hm2);
    [cbn [adults_mca2_keys]; forall2_intro; stored_valid Hin | apply adults_mca2_between |].
  exists m2. split; [unfold store; by rewrite lookup_insert_eq | exact Hm2].
Qed.

(** ** Witnesses on one pixel *)

(** The nine adult criteria at one pixel, each a class in [[1, 10]]. *)
Definition adult_sample : outputs :=
  store_all adult_criteria_keys [px 1; px 3; px 10; px 2; px 5; px 7; px 1; px 4; px 6] ∅.

Lemma adult_stages_range_witness :
  exists o', adult_stages adult_sample = inr o' /\
    exists m, o' !! "AdultsMCA2" = Some m /\ valid_in (λ z, 1 <= z <= 10) m.
Proof.
  assert (Hok : match adult_stages adult_sample with inl _ => false | inr _ => true end = true)
    by (vm_compute; reflexivity).
  destruct (adult_stages adult_sample) as [e|o'] eqn:E; [done|].
  exists o'. split; [done|]. apply (adult_stages_range 1 10 _ _ E).
  intros k r Hk Hr. apply list_elem_of_In in Hk. cbn [In adult_criteria_keys] in Hk.
  destruct_or! Hk; subst k; vm_compute in Hr; injection Hr as <-; unfold valid_in;
    apply (bool_decide_unpack _); vm_compute; exact I.
Defined.

(** The eleven inputs of the adult model at one pixel. *)
Definition adult_input_sample : outputs :=
  store_all adult_inputs [px 1.5; px 111; px 3; px 12; px 250; px 0.4; px 0.2; px 7; px 2.9; px 0.3; px 4200] ∅.

(** A power function for the witness: [x ** y] read as [1 + y * (x - 1)]. *)
Definition qpow_tangent (x y : Q) : Q := 1 + y * (x - 1).

Lemma adult_model_ok_witness :
  shaped [1%nat] adult_inputs adult_input_sample /\
  exists o', adult_model qpow_tangent adult_input_sample = inr o' /\
    exists w, o' !! "AdultsMCA2" = Some w /\ shape (cells w) = [1%nat].
Proof.
  assert (H : shaped [1%nat] adult_inputs adult_input_sample).
  { intros k Hk. apply list_elem_of_In in Hk. cbn [In adult_inputs] in Hk.
    destruct_or! Hk; subst k; eexists; split; reflexivity. }
  split; [exact H | exact (adult_model_ok qpow_tangent adult_input_sample [1%nat] H)].
Defined.
