(* ===== verification/AdultVector.v ===== *)
(** * The adult model's field calculators on vectors (lines 872-916)

    Before its raster statements the adult model adds two fields with
    [native:fieldcalculator]:
    - [Reclassed] on the clipped land-use layer (lines 872-881): a [CASE]
      on the land-use type [DETALJTYP], compared as a string with eleven
      types, with no [ELSE] ([reclass_landcovervector]);
    - [FAIBuildDe] on the grid (lines 906-916): the building frontal area
      index [Morph_fai] of the morphometric calculator, clamped at 0.9
      ([fai_build_calc]), evaluated with the expression model of [IUHD].
    The morphometric calculator itself, and the wind-speed field of lines
    1012-1022 (a power of the zonal DEM mean, which the expression model
    has no operator for), are not modelled. *)

From stdpp Require Import strings gmap.
From Stdlib Require Import Qround.
From S2P Require Import Prelude Raster RasterCalc GridAligner IUHD.

(** ** The land-use codes (lines 872-881) *)

(** The [WHEN] branches of the [CASE], in order: a land-use type and its
    code. *)
Definition detaljtyp_codes : list (string * Q) :=
  [("ÖPMARK", 7); ("ÖPTORG", 4); ("BEBHÖG", 2); ("BEBIND", 7); ("BEBLÅG", 5); ("BEBSLUT", 1);
   ("ODLÅKER", 7); ("ODLFRUKT", 8); ("SKOGBARR", 8); ("SKOGLÖV", 9); ("VATTEN", 0)].

(** [CASE WHEN "DETALJTYP" = 'a' THEN k WHEN ... END]: the first branch
    whose string equals the field.  A NULL field makes every comparison
    NULL, and with no [ELSE] an unmatched feature gets NULL. *)
Fixpoint case_detaljtyp (cs : list (string * Q)) (d : option string) : option Q :=
  match cs with
  | [] => None
  | (s, k) :: cs' =>
      match d with
      | Some t => if String.eqb t s then Some k else case_detaljtyp cs' d
      | None => case_detaljtyp cs' d
      end
  end.

Definition reclass_landcovervector (d : option string) : option Q := case_detaljtyp detaljtyp_codes d.

(** ** The clamped frontal area index (lines 906-916) *)

(** [CASE WHEN "Morph_fai" > 0.9 THEN 0.9 ELSE "Morph_fai" END]. *)
Definition fai_build_calc : field_calc :=
  FieldCalc "FAIBuildDe" (ECase (EGt (EField "Morph_fai") (ENum 0.9)) (ENum 0.9) (EField "Morph_fai")).

(** ** What the two fields hold *)

Lemma case_detaljtyp_Some (cs : list (string * Q)) (d : option string) (k : Q) :
  case_detaljtyp cs d = Some k -> exists t, d = Some t /\ (t, k) ∈ cs.
Proof.
  induction cs as [|[s k'] cs IH]; [done|]. cbn [case_detaljtyp].
  destruct d as [t|]; [destruct (String.eqb_spec t s) as [->|_]|].
  - intros [= <-]. exists s. split; [done | by left].
  - intros (t' & Ht & Hin)%IH. exists t'. split; [done | by right].
  - intros (t' & Ht & Hin)%IH. exists t'. split; [done | by right].
Qed.

Lemma case_detaljtyp_None (cs : list (string * Q)) (d : option string) :
  case_detaljtyp cs d = None <-> match d with None => True | Some t => t ∉ map fst cs end.
Proof.
  induction cs as [|[s k] cs IH]; cbn [case_detaljtyp map fst].
  { destruct d; split; intros; [apply not_elem_of_nil | done..]. }
  destruct d as [t|]; [|done]. destruct (String.eqb_spec t s) as [->|Hne].
  - split; [done|]. intros H. exfalso. apply H. by left.
  - rewrite IH, not_elem_of_cons. split; [by intros; split | by intros [_ ?]].
Qed.

(** C17: the [Reclassed] field of a land-use feature is one of the
    codes 0, 1, 2, 4, 5, 7, 8, 9, and it is NULL exactly when the
    feature's type is NULL or none of the eleven types of the [CASE]. *)
Theorem landcover_vector_codes (d : option string) :
  (forall k, reclass_landcovervector d = Some k -> k ∈ [0; 1; 2; 4; 5; 7; 8; 9]) /\
  (reclass_landcovervector d = None <->
     match d with None => True | Some t => t ∉ map fst detaljtyp_codes end).
Proof.
  split; [|apply case_detaljtyp_None].
  intros k (t & _ & Hin)%case_detaljtyp_Some. unfold detaljtyp_codes in Hin.
  repeat (apply elem_of_cons in Hin as [Hin|Hin]; [injection Hin as _ <-; set_solver|]).
  by apply elem_of_nil in Hin.
Qed.

Lemma round3_09 : round3 0.9 <= 0.9.
Proof. apply Qle_bool_iff. reflexivity. Qed.

(** C16: the clamp of lines 906-916: on a grid cell whose [Morph_fai]
    field is present, the field calculator succeeds; [FAIBuildDe] is NULL
    when [Morph_fai] is, and otherwise at most 0.9, and equal to the
    stored (rounded) [Morph_fai] when that is at most 0.9. *)
Theorem fai_build_clamp (ln : Q -> Q) (f : feature) (v : option Q) :
  f_attrs f !! "Morph_fai" = Some v ->
  exists f', fc_feature ln fai_build_calc f = inr f' /\
    match v with
    | None => f_attrs f' !! "FAIBuildDe" = Some None
    | Some x => exists z, f_attrs f' !! "FAIBuildDe" = Some (Some z) /\ z <= 0.9 /\
                  (x <= 0.9 -> z = round3 x)
    end.
Proof.
  intros Hv. unfold fc_feature, fai_build_calc. cbn [eval fc_formula fc_name]. rewrite Hv.
  destruct v as [x|]; simpl.
  - destruct (qltb_spec 0.9 x) as [Hx|Hx]; simpl.
    + eexists. split; [reflexivity|]. exists (round3 0.9). cbn [f_attrs]. rewrite lookup_insert_eq.
      split_and!; [done | apply round3_09 | intros; lra].
    + eexists. split; [reflexivity|]. exists (round3 x). cbn [f_attrs]. rewrite lookup_insert_eq.
      split_and!; [done | | done]. apply (Qle_trans _ (round3 0.9)); [by apply round3_mono | apply round3_09].
  - eexists. split; [reflexivity|]. cbn [f_attrs]. by rewrite lookup_insert_eq.
Qed.

(** A 100 m grid cell whose frontal area index is above the clamp. *)
Definition fai_cell : feature :=
  Feature (Window 650000 650100 6640000 6640100 "EPSG:3006") (<["Morph_fai" := Some 1.4]> ∅).

Lemma fai_build_clamp_witness :
  f_attrs fai_cell !! "Morph_fai" = Some (Some 1.4) /\
  exists f', fc_feature (λ x, x - 1) fai_build_calc fai_cell = inr f' /\
    exists z, f_attrs f' !! "FAIBuildDe" = Some (Some z) /\ z <= 0.9 /\ (1.4 <= 0.9 -> z = round3 1.4).
Proof.
  split; [reflexivity|]. exact (fai_build_clamp (λ x, x - 1) fai_cell (Some 1.4) eq_refl).
Defined.
