(* ===== verification/Composition.v ===== *)
(** * From the IUHD raster to the oviposition composite (lines 434-869)

    The IUHD field of the grid (see [IUHD]) is rasterized (lines 414-431,
    an external algorithm) under the name [RasterizeVectorToRasterUUHD]
    and reclassified into the ten IUHD classes (lines 434-457,
    [reclass_iuhd]).  The oviposition model then computes the roof slopes,
    the land-use and land-cover composites and the overlay with those
    classes ([oviposition_model] of [Pipeline]).  [iuhd_oviposition] runs
    the two parts in the script's order.

    The theorem of this file composes the components' lemmas: on inputs
    in their domains the whole run succeeds into an oviposition
    composite whose valid cells lie in [[1, 9.1]], the range the six heatmap
    bands cover.  The roof raster needs no hypothesis: [r.reclass] writes
    129 on every valid cell, a code of the land-cover table. *)

From stdpp Require Import strings gmap.
From S2P Require Import Prelude Raster Reclassify RasterCalc Mosaic FillNoData GridAligner Heatmap.
From S2P Require Import Pipeline Stages.

(** Lines 434-457. *)
Definition reclass_iuhd :=
  reclass_stage 3 iuhdtable "RasterizeVectorToRasterUUHD" "ReclassifyValuesSimpleIUHD".

Section IUHDToOviposition.
Context `{GdalServices} `{HeatmapServices}.
Variable rreclass_nodata : Q.

(** Lines 434-869 with [useoldheatmaps == 0]. *)
Definition iuhd_oviposition (inBuildbool inDSM : raster) (projwin : window) (o : outputs)
    : py_error + outputs :=
  o ← reclass_iuhd o; oviposition_model rreclass_nodata inBuildbool inDSM projwin o.
End IUHDToOviposition.

(** ** The IUHD classes *)

Lemma iuhdtable_classes : Forall (λ k, 1 <= k <= 10) (map rc_value (classes_of_numbers iuhdtable)).
Proof. apply (bool_decide_unpack _). vm_compute. exact I. Qed.

(** An IUHD in [(-3, 100]] gets a class from 1 to 10. *)
Lemma iuhd_class_range (v : Q) :
  -3 < v <= 100 -> 1 <= default v (reclassify_value IncludeMax (classes_of_numbers iuhdtable) v) <= 10.
Proof.
  intros Hv. apply (chain_class_range (-3)); [reflexivity | apply iuhdtable_classes |].
  change (chain_top (-3) _) with 100.0. lra.
Qed.

(** Written into the UInt32 band of line 454, an IUHD in [[-3, 100]] is a
    class from 1 to 10: the unclassified -3 cannot be written (its
    conversion is undefined). *)
Lemma iuhd_write_class (v w : Q) :
  -3 <= v <= 100 ->
  write_value UInt32 (default v (reclassify_value IncludeMax (classes_of_numbers iuhdtable) v)) = Some w ->
  1 <= w <= 10.
Proof.
  intros Hv Hw. destruct (Qlt_le_dec (-3) v) as [Hlt|Hle].
  - apply (write_value_between UInt32 1 10 _ _ (iuhd_class_range v ltac:(lra)) Hw).
  - assert (Hn : reclassify_value IncludeMax (classes_of_numbers iuhdtable) v = None)
      by (apply (chain_unmatched_iff (-3.0)); [reflexivity | left; lra]).
    rewrite Hn in Hw. cbn [default] in Hw. rewrite (proj2 (write_uint32_None v)) in Hw by lra. done.
Qed.

(** The reclassification of lines 434-457 stores a raster whose valid
    cells are the images of the rasterized IUHD's. *)
Lemma reclass_iuhd_valid (P : Q -> Prop) (lo : Q) (o o1 : outputs) :
  (forall v w, P v -> write_value UInt32 (default v (reclassify_value IncludeMax (classes_of_numbers iuhdtable) v)) = Some w ->
     lo <= w <= 10) ->
  reclass_iuhd o = inr o1 ->
  (forall r, o !! "RasterizeVectorToRasterUUHD" = Some r -> valid_in P r) ->
  exists r', o1 = store "ReclassifyValuesSimpleIUHD" r' o /\ valid_in (λ v, lo <= v <= 10) r'.
Proof.
  unfold reclass_iuhd, reclass_stage. intros HP (x & Hx & Hc)%sum_bind_inr Hin.
  apply sum_bind_inr in Hc as (r' & Hr & [= <-]). apply lift_error_inr in Hr. apply get_inr in Hx.
  exists r'. split; [done|].
  apply (reclassify_script_valid 3 UInt32 iuhdtable x r' P); [done | done | done | by apply Hin | exact HP].
Qed.

(** ** The frames of the roof and heatmap stages *)

(** The names [roof_stages] stores. *)
Definition roof_keys : list string :=
  ["SlopeOfRooftopstemp"; "SlopeOfRooftops"; "WarpReprojectTestingAllSlopesTo10mRes";
   "RasterCalculatorSetsSlopes8ToNodata"; "ReclassifyValuesRangeReclassifiesSlopes8"].

Lemma store_lookup_ne (k k' : string) (r : raster) (o : outputs) :
  k <> k' -> store k r o !! k' = o !! k'.
Proof. intros Hne. unfold store. by rewrite lookup_insert_ne. Qed.

Section Frames.
Context `{GdalServices} `{HeatmapServices}.

Lemma roof_stages_frame (nd : Q) (inBuildbool inDSM : raster) (projwin : window) (o o2 : outputs) :
  roof_stages nd inBuildbool inDSM projwin o = inr o2 ->
  (forall k, k ∉ roof_keys -> o2 !! k = o !! k) /\
  exists x, o2 !! "ReclassifyValuesRangeReclassifiesSlopes8" = Some (rreclass 0 90 129 nd x).
Proof.
  unfold roof_stages. intros Hc.
  read_step Hc. bind_step Hc. read_step Hc. read_step Hc. bind_step Hc. read_step Hc.
  injection Hc as <-. split.
  - intros k Hk. unfold roof_keys in Hk. rewrite !not_elem_of_cons in Hk.
    destruct Hk as (H1 & H2 & H3 & H4 & H5 & _). by rewrite !store_lookup_ne.
  - eexists. unfold store. by rewrite lookup_insert_eq.
Qed.

Lemma heatmap_stage_frame (projwin : window) (o o' : outputs) :
  heatmap_stage projwin o = inr o' -> o' !! "WMCAOviposition" = o !! "WMCAOviposition".
Proof.
  unfold heatmap_stage. intros (x & _ & Hc)%sum_bind_inr. apply sum_bind_inr in Hc as (h & _ & [= <-]).
  by rewrite store_lookup_ne.
Qed.
End Frames.

(** ** The composite from the clipped inputs *)

Lemma lc_covered_roof : lc_covered 129.
Proof. right. exists 4. reflexivity. Qed.

Section Range.
Context `{GdalServices} `{HeatmapServices}.

(** Lines 434-869 on a rasterized IUHD whose valid cells satisfy [P], when
    the IUHD table sends [P] into [[lo, 10]]. *)
Lemma iuhd_oviposition_valid (P : Q -> Prop) (lo nd : Q) (inBuildbool inDSM : raster) (projwin : window)
    (o o' : outputs) :
  (forall v w, P v -> write_value UInt32 (default v (reclassify_value IncludeMax (classes_of_numbers iuhdtable) v)) = Some w ->
     lo <= w <= 10) ->
  iuhd_oviposition nd inBuildbool inDSM projwin o = inr o' ->
  (forall k r, k ∈ lu_keys -> o !! k = Some r -> valid_in (λ v, -1 < v <= 16) r) ->
  (forall r, o !! "ClipLandcover" = Some r -> valid_in lc_covered r) ->
  (forall r, o !! "RasterizeVectorToRasterUUHD" = Some r -> valid_in P r) ->
  exists w, o' !! "WMCAOviposition" = Some w /\ valid_in (λ z, 0.9 + 0.1 * lo <= z <= 9.1) w.
Proof.
  unfold iuhd_oviposition, oviposition_model. intros HP (o1 & H1 & Hc)%sum_bind_inr Hlu Hlc Hiuhd.
  apply sum_bind_inr in Hc as (o2 & H2 & Hc). apply sum_bind_inr in Hc as (o3 & H3 & H4).
  destruct (reclass_iuhd_valid P lo o o1 HP H1 Hiuhd) as (ri & -> & Hri).
  destruct (roof_stages_frame _ _ _ _ _ _ H2) as [Hframe [x Hx]].
  destruct (composite_stages_valid_lo lo o2 o3 H3) as (w & Hw & Hwv).
  - intros k r Hk Hr. apply list_elem_of_In in Hk. cbn [In lu_keys] in Hk.
    destruct_or! Hk; subst k; rewrite Hframe, store_lookup_ne in Hr by (done || names_sub);
      (eapply Hlu; [|exact Hr]; names_sub).
  - intros k r Hk Hr. apply list_elem_of_In in Hk. cbn [In lc_keys] in Hk. destruct_or! Hk; subst k.
    + rewrite Hframe, store_lookup_ne in Hr by (done || names_sub). by apply Hlc.
    + rewrite Hx in Hr. injection Hr as <-. eapply all_cells_impl; [apply rreclass_valid|].
      intros v Hv Hnd. rewrite (Hv Hnd). apply lc_covered_roof.
  - intros r Hr. rewrite Hframe in Hr by names_sub. unfold store in Hr.
    rewrite lookup_insert_eq in Hr. by injection Hr as <-.
  - exists w. split; [by rewrite (heatmap_stage_frame _ _ _ H4) | exact Hwv].
Qed.

(** C8: lines 434-869 composed: when the land-use rasters hold
    values in [(-1, 16]], the clipped land cover values the land-cover
    table classifies (or 0), and the rasterized IUHD values in [(-3, 100]],
    every valid cell of the oviposition composite lies in [[1, 9.1]].  The
    IUHD reclassification turns the IUHD into classes 1 to 10, the roof
    slopes into 129, and the composite's own lemma does the rest. *)
Theorem iuhd_oviposition_range (nd : Q) (inBuildbool inDSM : raster) (projwin : window)
    (o o' : outputs) :
  iuhd_oviposition nd inBuildbool inDSM projwin o = inr o' ->
  (forall k r, k ∈ lu_keys -> o !! k = Some r -> valid_in (λ v, -1 < v <= 16) r) ->
  (forall r, o !! "ClipLandcover" = Some r -> valid_in lc_covered r) ->
  (forall r, o !! "RasterizeVectorToRasterUUHD" = Some r -> valid_in (λ v, -3 < v <= 100) r) ->
  exists w, o' !! "WMCAOviposition" = Some w /\ valid_in (λ z, 1 <= z <= 9.1) w.
Proof.
  intros Hc Hlu Hlc Hiuhd.
  destruct (iuhd_oviposition_valid (λ v, -3 < v <= 100) 1 nd inBuildbool inDSM projwin o o'
              (λ v w Hv, iuhd_write_class v w ltac:(cbv beta in Hv; lra)) Hc Hlu Hlc Hiuhd)
    as (w & Hw & Hv).
  exists w. split; [done|]. eapply all_cells_impl; [exact Hv|]. intros z Hz Hnd. specialize (Hz Hnd). cbv beta in *. lra.
Qed.
End Range.

(** ** A run on one pixel *)

(** One-pixel stand-ins for the GDAL and heatmap algorithms: a constant
    slope of 5 degrees, a density equal to the number of points, a warp
    that keeps the first pixel. *)
#[local] Instance flat_gdal : GdalServices := {
  gdal_open _ := px 0; proximity r := r; clip_extent _ r := r; slope _ := px 5
}.

#[local] Instance point_count_heatmaps : HeatmapServices := {
  kde p pts := mkRaster [[inject_Z (Z.of_nat (length pts))]] None (mkGeo 650000 10 0 6640000 0 (-10));
  warp p w r := mkRaster [[default 0 (cell (cells r) 0 0)]] None (mkGeo 650000 10 0 6640000 0 (-10))
}.

(** The dictionary at line 434: land use 1 in the first land-use layer,
    land cover 61, rasterized IUHD 50. *)
Definition iuhd_sample : outputs :=
  store_all (lu_keys ++ ["ClipLandcover"; "RasterizeVectorToRasterUUHD"])
    [px 1; px 0; px 0; px 0; px 0; px 61; px 50] ∅.

Definition sample_window : window := Window 650000 650100 6640000 6640100 "EPSG:3006".

Lemma iuhd_oviposition_range_witness :
  exists o', iuhd_oviposition 255 (px 1) (px 0) sample_window iuhd_sample = inr o' /\
    exists w, o' !! "WMCAOviposition" = Some w /\ valid_in (λ z, 1 <= z <= 9.1) w.
Proof.
  assert (Hok : match iuhd_oviposition 255 (px 1) (px 0) sample_window iuhd_sample with
                | inl _ => false | inr _ => true end = true) by (vm_compute; reflexivity).
  destruct (iuhd_oviposition 255 (px 1) (px 0) sample_window iuhd_sample) as [e|o'] eqn:E; [done|].
  exists o'. split; [done|].
  apply (iuhd_oviposition_range _ _ _ _ _ _ E).
  - intros k r Hk Hr. apply list_elem_of_In in Hk. cbn [In lu_keys] in Hk. destruct_or! Hk; subst k.
    all: vm_compute in Hr; injection Hr as <-; names_sub.
  - intros r Hr. vm_compute in Hr. injection Hr as <-. unfold valid_in, lc_covered. names_sub.
  - intros r Hr. vm_compute in Hr. injection Hr as <-. names_sub.
Defined.
