(* ===== verification/IUHDModel.v ===== *)
(** * The IUHD model feeding the oviposition model (lines 200-869)

    The script's first half, in its order, on one [outputs] dictionary:
    the numpy masks of lines 200-214 ([building_veg_rasters]; arrays whose
    shapes do not broadcast raise numpy's [ValueError]), the 100 m grid
    with its [area] ([script_grid_run], lines 229-250, which raises on a
    window smaller than one cell), the zonal statistics and ten
    field calculators of the IUHD ([iuhd_chain], lines 252-411; the
    cell size is [geotransform[1]] of the DSM, line 205), the
    rasterization of the [IUHD] field (lines 414-431), and the
    reclassification and oviposition model of [Composition] (lines
    434-869), whose roof stage reads the building raster of the numpy
    stage and the DSM.  The wall heights (lines 217-226) are an input.

    The theorem is the end-to-end range: the IUHD reaches the overlay as
    a class from 1 to 10 (the unclassified -3 of a fully vegetated cell
    cannot be written into the UInt32 band, so a run that meets it goes
    wrong), so every valid cell of the composite lies in [[1, 9.1]]. *)

From stdpp Require Import strings gmap.
From S2P Require Import Prelude Raster Reclassify RasterCalc GridAligner Heatmap IUHD Grid Rasterize.
From S2P Require Import Pipeline Stages Composition.

Section IUHDModel.
Context `{ZonalStatistics} `{GdalServices} `{HeatmapServices} (ln : Q -> Q).
Variable rreclass_nodata : Q.

(** Lines 200-869 with [useoldheatmaps == 0]. *)
Definition iuhd_model (wall dem dsm cdsm : raster) (projwin : window) (o : outputs)
    : py_error + outputs :=
  match building_veg_rasters dem dsm cdsm with
  | None => inl ValueError
  | Some (_, bb, vb) =>
      grid ← lift_error GridFailed (script_grid_run projwin);
      l ← lift_error FieldCalcFailed (iuhd_chain ln (gt_pixelWidth (geo dsm)) wall bb vb grid);
      let o := store "RasterizeVectorToRasterUUHD" (gdal_rasterize (iuhd_rasterize_params projwin) l) o in
      iuhd_oviposition rreclass_nodata bb dsm projwin o
  end.
End IUHDModel.

(** ** The range of the IUHD *)

Lemma uhi_max_le_100 (ln : Q -> Q) :
  (forall x y, 0 < x -> x <= y -> ln x <= ln y) -> ln 3 <= 2 -> uhi_max ln <= 100.
Proof.
  intros Hmono H3. unfold uhi_max. apply (Qle_trans _ (round3 (7.54 + 3.97 * 2))).
  - apply round3_mono. lra.
  - apply Qle_bool_iff. reflexivity.
Qed.

(** The rasterized IUHD of the chain's output lies in [[-3, 100]]: the
    uncovered pixels and the NULL cells are 0. *)
Lemma rasterize_iuhd_range (ln : Q -> Q) (projwin : window) (out : list feature) :
  uhi_max ln <= 100 ->
  Forall (λ f', forall x, f_attrs f' !! "IUHD" = Some (Some x) -> -3 <= x <= uhi_max ln) out ->
  all_cells (λ v, -3 <= v <= 100) (cells (gdal_rasterize (iuhd_rasterize_params projwin) out)).
Proof.
  intros Hmax Hout. apply gdal_rasterize_valid; [cbn; lra|lra|].
  eapply Forall_impl; [exact Hout|]. intros f Hf v Hv. unfold burn_value in Hv.
  cbn [rp_field iuhd_rasterize_params] in Hv.
  destruct (f_attrs f !! "IUHD") as [[x|]|] eqn:Hx; try discriminate. injection Hv as <-.
  specialize (Hf x Hx). lra.
Qed.

(** ** The composite of the whole first half *)

Section Range.
Context `{ZonalStatisticsLaws} `{GdalServices} `{HeatmapServices} (ln : Q -> Q).
Hypothesis ln_mono : forall x y, 0 < x -> x <= y -> ln x <= ln y.
Hypothesis ln_1 : ln 1 == 0.
Hypothesis ln_3 : ln 3 <= 2.

(** C9: lines 200-869 end to end: when the land-use rasters hold
    values in [(-1, 16]] and the clipped land cover values the land-cover
    table classifies, every valid cell of the oviposition composite of a
    run that goes right lies in [[1, 9.1]], whatever the DEM, DSM, canopy
    and wall rasters.  The IUHD of every grid cell is NULL or in
    [[-3, uhi_max]] with [uhi_max <= 100]; the rasterization writes it or
    0; the table classes it into [[1, 10]], and the unclassified -3 cannot
    be written into the UInt32 band; so the overlay
    [0.9 * LCLU + 0.1 * IUHD] is at least [0.9 + 0.1]. *)
Theorem iuhd_model_range (nd : Q) (wall dem dsm cdsm : raster) (projwin : window) (o o' : outputs) :
  iuhd_model ln nd wall dem dsm cdsm projwin o = inr o' ->
  (forall k r, k ∈ lu_keys -> o !! k = Some r -> valid_in (λ v, -1 < v <= 16) r) ->
  (forall r, o !! "ClipLandcover" = Some r -> valid_in lc_covered r) ->
  exists w, o' !! "WMCAOviposition" = Some w /\ valid_in (λ z, 1 <= z <= 9.1) w.
Proof.
  unfold iuhd_model. intros Hm Hlu Hlc.
  destruct (building_veg_rasters dem dsm cdsm) as [[[b bb] vb]|] eqn:Hbv; [|discriminate].
  apply sum_bind_inr in Hm as (grid & Hg & Hm). apply lift_error_inr in Hg.
  rewrite script_grid_run_spec in Hg.
  destruct (_ <? 100); [done|]. destruct (_ <? 100); [done|]. injection Hg as <-.
  apply sum_bind_inr in Hm as (l & Hl & Hm). apply lift_error_inr in Hl.
  destruct (iuhd_chain_valid ln ln_mono ln_1 (gt_pixelWidth (geo dsm)) wall dem dsm cdsm b bb vb
              (script_grid projwin) Hbv) as (out & Hout & Hrange).
  { eapply Forall_impl; [apply add_geometry_grid_area|]. intros f (a & Ha & _). by eexists. }
  rewrite Hout in Hl. injection Hl as <-.
  destruct (iuhd_oviposition_valid (λ v, -3 <= v <= 100) 1 nd bb dsm projwin _ o'
              (λ v w Hv, iuhd_write_class v w Hv) Hm) as (w & Hw & Hv).
  - intros k r Hk Hr. rewrite store_lookup_ne in Hr; [by eapply Hlu|]. intros <-. revert Hk. names_sub.
  - intros r Hr. rewrite store_lookup_ne in Hr by done. by apply Hlc.
  - intros r Hr. unfold store in Hr. rewrite lookup_insert_eq in Hr. injection Hr as <-.
    eapply all_cells_impl; [apply (rasterize_iuhd_range ln); [by apply uhi_max_le_100|]|].
    + eapply Forall_impl; [exact Hrange|]. by intros f [_ ?].
    + by intros v Hv _.
  - exists w. split; [done|]. eapply all_cells_impl; [exact Hv|].
    intros z Hz Hnd. specialize (Hz Hnd). cbv beta in *. lra.
Qed.
End Range.

(** ** A run on one 100 m cell *)

(** A 10 by 10 raster of 10 m pixels at the window's corner. *)
Definition block10 (v : Q) : raster :=
  mkRaster (replicate 10 (replicate 10 v)) (Some (-9999)) (mkGeo 650000 10 0 6640000 0 (-10)).

(** Stand-ins for the GDAL and heatmap algorithms on that grid: a constant
    slope of 5 degrees, a density equal to the number of points, a warp
    that spreads the first pixel. *)
#[local] Instance block_gdal : GdalServices := {
  gdal_open _ := block10 0; proximity r := r; clip_extent _ r := r;
  slope r := mkRaster (cellmap (λ _, 5) (cells r)) (nodata r) (geo r)
}.

#[local] Instance block_heatmaps : HeatmapServices := {
  kde p pts := block10 (inject_Z (Z.of_nat (length pts)));
  warp p w r := block10 (default 0 (cell (cells r) 0 0))
}.

(** Land use 1 in the first land-use layer, land cover 61. *)
Definition block_sample : outputs :=
  store_all (lu_keys ++ ["ClipLandcover"]) [block10 1; block10 0; block10 0; block10 0; block10 0; block10 61] ∅.

(** One 100 m grid cell. *)
Definition window_100m : window := Window 650000 650100 6639900 6640000 "EPSG:3006".

Lemma ln_tangent_3 : ln_tangent 3 <= 2.
Proof. unfold ln_tangent. lra. Qed.

Lemma iuhd_model_range_witness :
  exists o', iuhd_model ln_tangent 255 (block10 0) (block10 0) (block10 2) (block10 0) window_100m block_sample = inr o' /\
    exists w, o' !! "WMCAOviposition" = Some w /\ valid_in (λ z, 1 <= z <= 9.1) w.
Proof.
  assert (Hok : match iuhd_model ln_tangent 255 (block10 0) (block10 0) (block10 2) (block10 0) window_100m block_sample with
                | inl _ => false | inr _ => true end = true) by (vm_compute; reflexivity).
  destruct (iuhd_model ln_tangent 255 (block10 0) (block10 0) (block10 2) (block10 0) window_100m block_sample)
    as [e|o'] eqn:E; [done|].
  exists o'. split; [done|].
  apply (iuhd_model_range ln_tangent ln_tangent_mono ln_tangent_1 ln_tangent_3 _ _ _ _ _ _ _ _ E).
  - intros k r Hk Hr. apply list_elem_of_In in Hk. cbn [In lu_keys] in Hk. destruct_or! Hk; subst k.
    all: vm_compute in Hr; injection Hr as <-; apply (bool_decide_unpack _); vm_compute; exact I.
  - intros r Hr. assert (Hr' : r = block10 61) by (vm_compute in Hr; injection Hr as <-; reflexivity).
    subst r. unfold valid_in, lc_covered, block10. cbn [cells nodata].
    apply all_cells_replicate. intros _. right. by eexists.
Defined.
